(** * The local DNS record store of olm: model and verified properties

    Shallow embedding of [dns/dns_records.go] (the trie-based
    [DNSRecordStore]) and of the earlier flat-map [DNSRecordStore].

    Go strings are byte strings; they are modelled by [string] (a list of
    8-bit [ascii]).  [ToLower] and [IsFqdn] below are [strings.ToLower] and
    miekg's [dns.IsFqdn] on ASCII strings, those whose bytes are all below
    [utf8.RuneSelf] (0x80): there [strings.ToLower] takes its byte-wise
    branch, and the index that [strings.LastIndexFunc] returns is the index
    of a byte.  On other strings the library decodes UTF-8 ([unicode.ToLower]
    of every rune, U+FFFD for a byte that starts no rune, the index of the
    first byte of a rune), which the model does not follow: the theorems
    that hold of ASCII names only say so with [ascii_name].
    A [net.IP] is a byte slice, modelled by
    [list byte].  Go maps are [gmap]s; since Go iterates a map in an
    unspecified order, every loop over a map takes the order of the
    iteration as an argument. *)

From Stdlib.Strings Require Import Ascii String Byte.
From stdpp Require Import base option list gmap strings.

(** ** Byte strings: the functions of package [strings] the store uses *)

Module Strings.

(** [s[i]]; [None] is an index out of range (Go panics there). *)
Definition at_ (s : string) (i : nat) : option ascii := String.get i s.

(** [s[lo:hi]] *)
Definition slice (s : string) (lo hi : nat) : string :=
  String.substring lo (hi - lo) s.

Definition lower_byte (c : ascii) : ascii :=
  let n := nat_of_ascii c in
  if (65 <=? n) && (n <=? 90) then ascii_of_nat (n + 32) else c.

(** [strings.ToLower] on an ASCII string (the branch [if isASCII] of the
    library function): 'A'..'Z' become 'a'..'z', every other byte is kept.
    On a string with a byte of 0x80 or more the library function maps
    [unicode.ToLower] over the runes instead, and this is not its result:
    U+0130 (bytes C4 B0) becomes the one byte 'i' there and stays itself
    here. *)
Fixpoint ToLower (s : string) : string :=
  match s with
  | EmptyString => EmptyString
  | String c s' => String (lower_byte c) (ToLower s')
  end.

(** [strings.HasSuffix]:
    [len(s) >= len(suffix) && s[len(s)-len(suffix):] == suffix] *)
Definition HasSuffix (s suffix : string) : bool :=
  (String.length suffix <=? String.length s) &&
  bool_decide
    (slice s (String.length s - String.length suffix) (String.length s)
     = suffix).

(** [strings.TrimSuffix] *)
Definition TrimSuffix (s suffix : string) : string :=
  if HasSuffix s suffix
  then slice s 0 (String.length s - String.length suffix)
  else s.

Fixpoint IndexByte (s : string) (c : ascii) : bool :=
  match s with
  | EmptyString => false
  | String c' s' => bool_decide (c' = c) || IndexByte s' c
  end.

(** [strings.ContainsAny]: some byte of [chars] occurs in [s]. *)
Fixpoint ContainsAny (s chars : string) : bool :=
  match s with
  | EmptyString => false
  | String c s' => IndexByte chars c || ContainsAny s' chars
  end.

(** [strings.Split(s, sep)] for a one-byte separator: the pieces of [s]
    between the occurrences of [sep]; splitting the empty string gives one
    empty piece. *)
Fixpoint Split (s : string) (sep : ascii) : list string :=
  match s with
  | EmptyString => [EmptyString]
  | String c s' =>
      if bool_decide (c = sep) then EmptyString :: Split s' sep
      else match Split s' sep with
           | [] => [String c EmptyString]
           | w :: ws => String c w :: ws
           end
  end.

(** [strings.Join(elems, sep)] *)
Fixpoint Join (elems : list string) (sep : string) : string :=
  match elems with
  | [] => EmptyString
  | [w] => w
  | w :: ws => w +:+ sep +:+ Join ws sep
  end.

End Strings.

(** ** miekg/dns: [dns.IsFqdn] and [dns.Fqdn] *)

Module Dns.
Import Strings.

(** The length of the run of backslashes that ends [s], which is
    [len(s) - 1 - strings.LastIndexFunc(s, r != '\\')] when the last rune
    of [s] that is not a backslash is one byte long, as every rune of an
    ASCII string is.  ([LastIndexFunc] returns the index of the first byte
    of that rune, so a longer rune adds its other bytes to the count.) *)
Fixpoint trailing_backslashes (s : string) : nat :=
  match s with
  | EmptyString => 0
  | String c s' =>
      let n := trailing_backslashes s' in
      if (n =? String.length s') && bool_decide (c = "\"%char) then S n else n
  end.

(** [dns.IsFqdn] on an ASCII string: [s] ends in a dot that is not
    escaped, which is a dot after an even number of backslashes. *)
Definition IsFqdn (s : string) : bool :=
  if bool_decide (s = EmptyString)
     || negb (bool_decide (at_ s (String.length s - 1) = Some "."%char))
  then false
  else
    let s' := slice s 0 (String.length s - 1) in
    if bool_decide (s' = EmptyString)
       || negb (bool_decide (at_ s' (String.length s' - 1) = Some "\"%char))
    then true
    else negb ((trailing_backslashes s' + 1) mod 2 =? 0).

(** [dns.Fqdn] *)
Definition Fqdn (s : string) : string :=
  if IsFqdn s then s else s +:+ ".".

End Dns.

(** ** Wildcard matching *)

Section Match.
Import Strings.

(** [for i := lo; i <= hi; i++ { if f(i) { return true } }; return false],
    where [n] is the number of iterations left. *)
Fixpoint first_true (f : nat -> option bool) (i n : nat) : option bool :=
  match n with
  | O => Some false
  | S n' =>
      match f i with
      | Some true => Some true
      | Some false => first_true f (S i) n'
      | None => None
      end
  end.

(** The body of [matchWildcardInternal]; [self pi di] stands for the
    recursive call [matchWildcardInternal(pattern, domain, pi, di)], whose
    result is [None] when the recursion was cut off.  The indices are
    those the code can index with: [matchWildcard] starts at [0, 0] and
    every recursive call keeps [pi <= len(pattern)].  For a larger [pi] the
    Go code panics on [pattern[pi]]; the value of this definition there
    ([Some false]) stands for no result of the code. *)
Definition matchWildcardInternal_body (self : nat -> nat -> option bool)
    (pattern domain : string) (pi di : nat) : option bool :=
  let plen := String.length pattern in
  let dlen := String.length domain in
  if (pi =? plen) && (di =? dlen) then Some true
  else if pi =? plen then Some false
  else if bool_decide (at_ pattern pi = Some "*"%char) then
    if (pi =? 0) && (pi + 1 <? plen)
       && bool_decide (at_ pattern (pi + 1) = Some "."%char)
    then
      if di =? dlen then Some false
      else first_true (self (pi + 1)) (di + 1) (dlen - di)
    else
      match self (pi + 1) di with
      | Some true => Some true
      | Some false => if di <? dlen then self pi (di + 1) else Some false
      | None => None
      end
  else if bool_decide (at_ pattern pi = Some "?"%char) then
    if dlen <=? di then Some false else self (pi + 1) (di + 1)
  else if (dlen <=? di)
          || negb (bool_decide (at_ pattern pi = at_ domain di))
  then Some false
  else self (pi + 1) (di + 1).

(** [matchWildcardInternal] with the depth of the recursion bounded by
    [fuel]; [None] is fuel exhausted. *)
Fixpoint matchWildcardInternal_fuel (fuel : nat) (pattern domain : string)
    (pi di : nat) : option bool :=
  match fuel with
  | O => None
  | S fuel' =>
      matchWildcardInternal_body
        (matchWildcardInternal_fuel fuel' pattern domain)
        pattern domain pi di
  end.

(** Each call lowers [(plen - pi) + (dlen - di)], so this much fuel is
    never exhausted (see [matchWildcardInternal_fuel_enough]). *)
Definition matchWildcardInternal (pattern domain : string) (pi di : nat)
    : option bool :=
  matchWildcardInternal_fuel
    (S ((String.length pattern - pi) + (String.length domain - di)))
    pattern domain pi di.

Definition matchWildcard (pattern domain : string) : bool :=
  match matchWildcardInternal pattern domain 0 0 with
  | Some b => b
  | None => false
  end.

End Match.

(** ** Package [net]: addresses, their text form and [net.ParseIP] *)

Module Net.
Import Strings.

(** [net.IP] is [[]byte]; a valid address has 4 or 16 bytes. *)
Abbreviation IP := (list byte).

Global Instance byte_eq_dec : EqDecision byte := Byte.byte_eq_dec.

Definition u8 (n : N) : byte := default x00 (Byte.of_N (n mod 256)).
Definition chr (c : ascii) : N := N_of_ascii c.

Definition v4InV6Prefix : IP :=
  [x00; x00; x00; x00; x00; x00; x00; x00; x00; x00; xff; xff].

(** [ip.To4()]: the 4-byte form of an IPv4 or IPv4-mapped address. *)
Definition To4 (ip : IP) : option IP :=
  if length ip =? 4 then Some ip
  else if (length ip =? 16)
          && bool_decide (take 12 ip = v4InV6Prefix)
  then Some (drop 12 ip)
  else None.

(** [ip.To16()] *)
Definition To16 (ip : IP) : option IP :=
  if length ip =? 4 then Some (v4InV6Prefix ++ ip)
  else if length ip =? 16 then Some ip
  else None.

(** [ip.Equal(x)] *)
Definition Equal (ip x : IP) : bool :=
  if length ip =? length x then bool_decide (ip = x)
  else if (length ip =? 4) && (length x =? 16)
  then bool_decide (take 12 x = v4InV6Prefix) && bool_decide (ip = drop 12 x)
  else if (length ip =? 16) && (length x =? 4)
  then bool_decide (take 12 ip = v4InV6Prefix) && bool_decide (drop 12 ip = x)
  else false.

(** *** Formatting *)

Definition digit (n : N) : ascii := ascii_of_N (48 + n).

(** A [uint8] in decimal, as [%d] and [netip] print it. *)
Definition itoa (b : byte) : string :=
  let n := Byte.to_N b in
  if (n <? 10)%N then String (digit n) EmptyString
  else if (n <? 100)%N
  then String (digit (n / 10)) (String (digit (n mod 10)) EmptyString)
  else String (digit (n / 100))
         (String (digit (n / 10 mod 10))
            (String (digit (n mod 10)) EmptyString)).

(** One hexadecimal digit, lower case: ["0123456789abcdef"[n]]. *)
Definition hexdigit (n : N) : ascii :=
  if (n <? 10)%N then ascii_of_N (48 + n) else ascii_of_N (87 + n).

(** [appendHex]: a [uint16] in hexadecimal without leading zeros. *)
Definition appendHex (x : N) : string :=
  (if (4096 <=? x)%N then String (hexdigit (N.shiftr x 12)) EmptyString
   else EmptyString) +:+
  (if (256 <=? x)%N
   then String (hexdigit (N.land (N.shiftr x 8) 15)) EmptyString
   else EmptyString) +:+
  (if (16 <=? x)%N
   then String (hexdigit (N.land (N.shiftr x 4) 15)) EmptyString
   else EmptyString) +:+
  String (hexdigit (N.land x 15)) EmptyString.

(** [hexString]: two digits per byte. *)
Fixpoint hexString (b : list byte) : string :=
  match b with
  | [] => EmptyString
  | x :: b' =>
      String (hexdigit (N.shiftr (Byte.to_N x) 4))
        (String (hexdigit (N.land (Byte.to_N x) 15)) (hexString b'))
  end.

Definition string4 (p4 : IP) : string :=
  Join (itoa <$> p4) ".".

(** The eight 16-bit groups of a 16-byte address ([v6u16]). *)
Fixpoint groups (ip : IP) : list N :=
  match ip with
  | hi :: lo :: ip' =>
      N.lor (N.shiftl (Byte.to_N hi) 8) (Byte.to_N lo) :: groups ip'
  | _ => []
  end.

Fixpoint zero_run (g : list N) : nat :=
  match g with
  | 0%N :: g' => S (zero_run g')
  | _ => 0
  end.

(** The first longest run of at least two zero groups, as
    [(zeroStart, zeroEnd)]; [(255, 255)] when there is none. *)
Definition longest_zero_run (g : list N) : nat * nat :=
  foldl (fun z i =>
           let j := i + zero_run (drop i g) in
           if (2 <=? j - i) && (z.2 - z.1 <? j - i) then (i, j) else z)
        (255, 255) (seq 0 8).

(** The printing loop of [appendTo6]; [n] bounds the iterations left. *)
Fixpoint string6_from (n : nat) (g : list N) (z : nat * nat) (i : nat)
    : string :=
  match n with
  | O => EmptyString
  | S n' =>
      if 8 <=? i then EmptyString
      else if i =? z.1 then
        "::" +:+
        (if 8 <=? z.2 then EmptyString
         else appendHex (default 0%N (g !! z.2))
              +:+ string6_from n' g z (S z.2))
      else
        (if 0 <? i then ":" else EmptyString) +:+
        appendHex (default 0%N (g !! i)) +:+ string6_from n' g z (S i)
  end.

Definition string6 (ip : IP) : string :=
  let g := groups ip in
  string6_from 8 g (longest_zero_run g) 0.

(** [ip.String()] *)
Definition String_ (ip : IP) : string :=
  if length ip =? 0 then "<nil>"
  else if negb (length ip =? 4) && negb (length ip =? 16)
  then "?" +:+ hexString ip
  else match To4 ip with
       | Some p4 => string4 p4
       | None => string6 ip
       end.

(** *** Parsing: [net.ParseIP], which goes through [netip.ParseAddr] *)

Definition is_digit (c : ascii) : bool :=
  (48 <=? chr c)%N && (chr c <=? 57)%N.

(** The loop of [parseIPv4Fields] over the bytes left in [s].  [first] says
    that the byte is [s[0]], [prev_dot] that the byte before it is a dot;
    [fields] are the octets stored so far ([pos] is their number). *)
Fixpoint parseIPv4Fields_loop (s : string) (first prev_dot : bool)
    (val : N) (digLen : nat) (fields : list byte) : option (N * list byte) :=
  match s with
  | EmptyString => Some (val, fields)
  | String c s' =>
      if is_digit c then
        if (digLen =? 1) && (val =? 0)%N then None
        else
          let val' := (val * 10 + (chr c - 48))%N in
          if (255 <? val')%N then None
          else parseIPv4Fields_loop s' false false val' (S digLen) fields
      else if bool_decide (c = "."%char) then
        if first || bool_decide (s' = EmptyString) || prev_dot then None
        else if length fields =? 3 then None
        else parseIPv4Fields_loop s' false true 0%N 0 (fields ++ [u8 val])
      else None
  end.

Definition parseIPv4Fields (s : string) : option (list byte) :=
  match parseIPv4Fields_loop s true false 0%N 0 [] with
  | Some (val, fields) =>
      if length fields <? 3 then None else Some (fields ++ [u8 val])
  | None => None
  end.

Definition hexval (c : ascii) : option N :=
  let n := chr c in
  if (48 <=? n)%N && (n <=? 57)%N then Some (n - 48)%N
  else if (97 <=? n)%N && (n <=? 102)%N then Some (n - 97 + 10)%N
  else if (65 <=? n)%N && (n <=? 70)%N then Some (n - 65 + 10)%N
  else None.

(** The hex-number loop of [parseIPv6]: [off] digits read so far, of value
    [acc]; gives [off], [acc] and [s[off:]], or [None] on a fifth digit. *)
Fixpoint parseHex (s : string) (off : nat) (acc : N)
    : option (nat * N * string) :=
  match s with
  | EmptyString => Some (off, acc, EmptyString)
  | String c s' =>
      match hexval c with
      | None => Some (off, acc, s)
      | Some v =>
          let acc' := (N.shiftl acc 4 + v)%N in
          if 3 <? off then None
          else if (65535 <? acc')%N then None
          else parseHex s' (S off) acc'
      end
  end.

(** The main loop of [parseIPv6], [for i < 16]: [ip] holds the [i] bytes
    parsed so far and [n] is [(16 - i) / 2].  Gives what is left of the
    string, the bytes and the position of the ellipsis. *)
Fixpoint parseIPv6_loop (n : nat) (s : string) (ip : list byte)
    (ellipsis : option nat) : option (string * list byte * option nat) :=
  match n with
  | O => Some (s, ip, ellipsis)
  | S n' =>
      match parseHex s 0 0%N with
      | None => None
      | Some (off, acc, rest) =>
          if off =? 0 then None
          else if bool_decide (at_ rest 0 = Some "."%char) then
            if bool_decide (ellipsis = None) && negb (length ip =? 12)
            then None
            else if 16 <? length ip + 4 then None
            else match parseIPv4Fields s with
                 | None => None
                 | Some f => Some (EmptyString, ip ++ f, ellipsis)
                 end
          else
            let ip' := ip ++ [u8 (N.shiftr acc 8); u8 acc] in
            match rest with
            | EmptyString => Some (EmptyString, ip', ellipsis)
            | String c rest1 =>
                if negb (bool_decide (c = ":"%char)) then None
                else match rest1 with
                     | EmptyString => None
                     | String c2 rest2 =>
                         if bool_decide (c2 = ":"%char) then
                           match ellipsis with
                           | Some _ => None
                           | None =>
                               if bool_decide (rest2 = EmptyString)
                               then Some (EmptyString, ip', Some (length ip'))
                               else parseIPv6_loop n' rest2 ip'
                                      (Some (length ip'))
                           end
                         else parseIPv6_loop n' rest1 ip' ellipsis
                     end
            end
      end
  end.

(** [parseIPv6], for [net.ParseIP]: an address with a zone is refused by
    [net.ParseIP], so a ['%'] anywhere gives [None]. *)
Definition parseIPv6 (s : string) : option (list byte) :=
  if IndexByte s "%"%char then None
  else
    let lead :=
      (2 <=? String.length s)
      && bool_decide (at_ s 0 = Some ":"%char)
      && bool_decide (at_ s 1 = Some ":"%char) in
    let s1 := if lead then slice s 2 (String.length s) else s in
    if lead && bool_decide (s1 = EmptyString) then Some (replicate 16 x00)
    else
      match parseIPv6_loop 8 s1 [] (if lead then Some 0 else None) with
      | None => None
      | Some (rest, ip, ellipsis) =>
          if negb (bool_decide (rest = EmptyString)) then None
          else if length ip <? 16 then
            match ellipsis with
            | None => None
            | Some e =>
                Some (take e ip ++ replicate (16 - length ip) x00
                      ++ drop e ip)
            end
          else match ellipsis with
               | Some _ => None
               | None => Some ip
               end
      end.

(** The first of ['.'], [':'] and ['%'] in [s], on which [ParseAddr]
    chooses the parser. *)
Fixpoint first_sep (s : string) : option ascii :=
  match s with
  | EmptyString => None
  | String c s' =>
      if bool_decide (c = "."%char) || bool_decide (c = ":"%char)
         || bool_decide (c = "%"%char)
      then Some c else first_sep s'
  end.

(** [net.ParseIP]: the 16-byte form of the address, or [None] (nil). *)
Definition ParseIP (s : string) : option IP :=
  match first_sep s with
  | Some "."%char => (fun f => v4InV6Prefix ++ f) <$> parseIPv4Fields s
  | Some ":"%char => parseIPv6 s
  | _ => None
  end.

End Net.

(** ** Reverse-DNS names *)

Section ReverseDNS.
Import Strings Dns Net.

(** [p[i]] on a slice of bytes or of strings within its bounds. *)
Definition ix {T} `{Inhabited T} (p : list T) (i : nat) : T :=
  default inhabitant (p !! i).

Global Instance byte_inhabited : Inhabited byte := populate x00.

(** [fmt.Sprintf("%x", b)] for a [byte]. *)
Definition sprintf_x (b : N) : string :=
  if (b <? 16)%N then String (hexdigit b) EmptyString
  else String (hexdigit (N.shiftr b 4))
         (String (hexdigit (N.land b 15)) EmptyString).

(** [IPToReverseDNS] *)
Definition IPToReverseDNS (ip : IP) : string :=
  match To4 ip with
  | Some ip4 =>
      Fqdn (itoa (ix ip4 3) +:+ "." +:+ itoa (ix ip4 2) +:+ "." +:+
            itoa (ix ip4 1) +:+ "." +:+ itoa (ix ip4 0) +:+ ".in-addr.arpa")
  | None =>
      match To16 ip with
      | Some ip6 =>
          let nibbles :=
            flat_map
              (fun i =>
                 [sprintf_x (N.land (Byte.to_N (ix ip6 i)) 15);
                  sprintf_x (N.shiftr (Byte.to_N (ix ip6 i)) 4)])
              (rev (seq 0 16)) in
          Fqdn (Join nibbles "." +:+ ".ip6.arpa")
      | None => EmptyString
      end
  end.

(** [reverseDNSToIP]; [None] is the nil address. *)
Definition reverseDNSToIP (domain : string) : option IP :=
  let domain := ToLower (Fqdn domain) in
  if HasSuffix domain ".in-addr.arpa." then
    let ipPart := TrimSuffix domain ".in-addr.arpa." in
    let parts := Split ipPart "."%char in
    if negb (length parts =? 4) then None
    else
      let reversed := (fun i => ix parts (3 - i)) <$> seq 0 4 in
      ParseIP (Join reversed ".")
  else if HasSuffix domain ".ip6.arpa." then
    let ipPart := TrimSuffix domain ".ip6.arpa." in
    let parts := Split ipPart "."%char in
    if negb (length parts =? 32) then None
    else
      let reversed := (fun i => ix parts (31 - i)) <$> seq 0 32 in
      let ipv6Parts :=
        (fun k => ix reversed (4 * k) +:+ ix reversed (4 * k + 1) +:+
                  ix reversed (4 * k + 2) +:+ ix reversed (4 * k + 3))
          <$> seq 0 8 in
      ParseIP (Join ipv6Parts ":")
  else None.

End ReverseDNS.

(** ** The record store of [dns_records.go] *)

(** [RecordType] is a [uint16]; the values are those of [dns.TypeA],
    [dns.TypeAAAA] and [dns.TypePTR]. *)
Definition RecordType := N.
Definition RecordTypeA : RecordType := 1%N.
Definition RecordTypeAAAA : RecordType := 28%N.

Record recordSet : Type := mkRecordSet {
  A : list Net.IP;
  AAAA : list Net.IP
}.

(** A node of the trie; a nil [data] pointer is [None]. *)
#[warnings="-register-all"]
Inductive domainTrieNode : Type := mkNode {
  children : gmap string domainTrieNode;
  data : option recordSet
}.

Record DNSRecordStore : Type := mkStore {
  root : domainTrieNode;
  wildcards : gmap string recordSet;
  ptrRecords : gmap string string
}.

(** The error of [AddRecord], a [*net.ParseError]. *)
Record ParseError : Type := mkParseError { Type_ : string; Text : string }.

Section Store.
Import Strings Dns Net.

(** [domainToPath]: the labels of the name, last label first. *)
Definition domainToPath (domain : string) : list string :=
  let domain := ToLower (Fqdn domain) in
  let domain := TrimSuffix domain "." in
  if bool_decide (domain = EmptyString) then []
  else rev (Split domain "."%char).

(** [&domainTrieNode{children: make(map[string]*domainTrieNode)}] *)
Definition newNode : domainTrieNode := mkNode ∅ None.

(** [NewDNSRecordStore] *)
Definition NewDNSRecordStore : DNSRecordStore := mkStore newNode ∅ ∅.

(** The walk [node = node.children[label]] along [path] that stops at a nil
    child. *)
Fixpoint walk (node : domainTrieNode) (path : list string)
    : option domainTrieNode :=
  match path with
  | [] => Some node
  | label :: path' =>
      match children node !! label with
      | None => None
      | Some child => walk child path'
      end
  end.

(** The walk of [AddRecord], which creates the children that are missing,
    followed by the update [f] of the node it ends at.  The nodes are
    shared through pointers in the Go code; here the trie is rebuilt along
    the path. *)
Fixpoint update_at (node : domainTrieNode) (path : list string)
    (f : domainTrieNode -> domainTrieNode) : domainTrieNode :=
  match path with
  | [] => f node
  | label :: path' =>
      let child := default newNode (children node !! label) in
      mkNode (<[label := update_at child path' f]> (children node))
             (data node)
  end.

(** The preamble of every mutator: a trailing dot is added when it is
    missing, then the name is lower-cased. *)
Definition normalize (domain : string) : string :=
  let domain :=
    if (String.length domain =? 0)
       || negb (bool_decide
                  (at_ domain (String.length domain - 1) = Some "."%char))
    then domain +:+ "." else domain in
  ToLower (Fqdn domain).

(** [rs.A = append(rs.A, ip)] or [rs.AAAA = append(rs.AAAA, ip)] *)
Definition append_ip (isV4 : bool) (ip : IP) (rs : recordSet) : recordSet :=
  if isV4 then mkRecordSet (A rs ++ [ip]) (AAAA rs)
  else mkRecordSet (A rs) (AAAA rs ++ [ip]).

(** [AddRecord]: the store afterwards and the error returned. *)
Definition AddRecord (s : DNSRecordStore) (domain : string) (ip : IP)
    : DNSRecordStore * option ParseError :=
  let domain := normalize domain in
  let isWildcard := ContainsAny domain "*?" in
  let isV4 := bool_decide (To4 ip <> None) in
  if negb isV4 && bool_decide (To16 ip = None)
  then (s, Some (mkParseError "IP address" (String_ ip)))
  else if isWildcard then
    let rs := default (mkRecordSet [] []) (wildcards s !! domain) in
    (mkStore (root s) (<[domain := append_ip isV4 ip rs]> (wildcards s))
             (ptrRecords s),
     None)
  else
    let path := domainToPath domain in
    let root' :=
      update_at (root s) path
        (fun node =>
           let rs := default (mkRecordSet [] []) (data node) in
           mkNode (children node) (Some (append_ip isV4 ip rs))) in
    (mkStore root' (wildcards s) (<[String_ ip := domain]> (ptrRecords s)),
     None).

(** [AddPTRRecord] (it always returns a nil error). *)
Definition AddPTRRecord (s : DNSRecordStore) (ip : IP) (domain : string)
    : DNSRecordStore :=
  let domain := normalize domain in
  mkStore (root s) (wildcards s) (<[String_ ip := domain]> (ptrRecords s)).

(** [removeIP] *)
Definition removeIP (ips : list IP) (toRemove : IP) : list IP :=
  filter (fun ip => Equal ip toRemove = false) ips.

(** [if ptrDomain, exists := ptr[ip.String()]; exists && ptrDomain == domain
    { delete(ptr, ip.String()) }] *)
Definition delete_ptr_owned (domain : string) (ptr : gmap string string)
    (ip : IP) : gmap string string :=
  match ptr !! String_ ip with
  | Some ptrDomain =>
      if bool_decide (ptrDomain = domain) then delete (String_ ip) ptr
      else ptr
  | None => ptr
  end.

(** [RemoveRecord]; the address [None] is the nil [ip]. *)
Definition RemoveRecord (s : DNSRecordStore) (domain : string)
    (ip : option IP) : DNSRecordStore :=
  let domain := normalize domain in
  let isWildcard := ContainsAny domain "*?" in
  if isWildcard then
    match ip with
    | None => mkStore (root s) (delete domain (wildcards s)) (ptrRecords s)
    | Some ip =>
        match wildcards s !! domain with
        | None => s
        | Some rs =>
            let rs' :=
              if bool_decide (To4 ip <> None)
              then mkRecordSet (removeIP (A rs) ip) (AAAA rs)
              else mkRecordSet (A rs) (removeIP (AAAA rs) ip) in
            if (length (A rs') =? 0) && (length (AAAA rs') =? 0)
            then mkStore (root s) (delete domain (wildcards s))
                         (ptrRecords s)
            else mkStore (root s) (<[domain := rs']> (wildcards s))
                         (ptrRecords s)
        end
    end
  else
    let path := domainToPath domain in
    match walk (root s) path with
    | None => s
    | Some node =>
        match data node with
        | None => s
        | Some rs =>
            match ip with
            | None =>
                let ptr1 :=
                  foldl (delete_ptr_owned domain) (ptrRecords s) (A rs) in
                let ptr2 := foldl (delete_ptr_owned domain) ptr1 (AAAA rs) in
                mkStore
                  (update_at (root s) path
                     (fun node => mkNode (children node) None))
                  (wildcards s) ptr2
            | Some ip =>
                let rs' :=
                  if bool_decide (To4 ip <> None)
                  then mkRecordSet (removeIP (A rs) ip) (AAAA rs)
                  else mkRecordSet (A rs) (removeIP (AAAA rs) ip) in
                let ptr' := delete_ptr_owned domain (ptrRecords s) ip in
                let data' :=
                  if (length (A rs') =? 0) && (length (AAAA rs') =? 0)
                  then None else Some rs' in
                mkStore
                  (update_at (root s) path
                     (fun node => mkNode (children node) data'))
                  (wildcards s) ptr'
            end
        end
    end.

(** [RemovePTRRecord] *)
Definition RemovePTRRecord (s : DNSRecordStore) (ip : IP) : DNSRecordStore :=
  mkStore (root s) (wildcards s) (delete (String_ ip) (ptrRecords s)).

(** The result of a Go function that returns a slice: [None] is the nil
    slice. *)
Definition slice_result (records : list IP) : option (list IP) :=
  if length records =? 0 then None else Some records.

(** [GetRecords].  [order] is the sequence in which the [range] loop visits
    the entries of [s.wildcards]. *)
Definition GetRecords (order : list (string * recordSet))
    (s : DNSRecordStore) (domain : string) (recordType : RecordType)
    : option (list IP) :=
  let domain := ToLower (Fqdn domain) in
  let path := domainToPath domain in
  let exact :=
    match walk (root s) path with
    | Some node =>
        match data node with
        | Some rs =>
            let ips :=
              if (recordType =? RecordTypeA)%N then A rs else AAAA rs in
            if 0 <? length ips then Some ips else None
        | None => None
        end
    | None => None
    end in
  match exact with
  | Some out => Some out
  | None =>
      let records :=
        foldl
          (fun records '(pattern, rs) =>
             if negb (matchWildcard pattern domain) then records
             else if (recordType =? RecordTypeA)%N then records ++ A rs
             else records ++ AAAA rs)
          [] order in
      slice_result records
  end.

(** [GetPTRRecord] *)
Definition GetPTRRecord (s : DNSRecordStore) (domain : string)
    : string * bool :=
  match reverseDNSToIP domain with
  | None => (EmptyString, false)
  | Some ip =>
      match ptrRecords s !! String_ ip with
      | Some ptrDomain => (ptrDomain, true)
      | None => (EmptyString, false)
      end
  end.

(** The [range] loop of [HasRecord], which returns at the first hit. *)
Fixpoint has_wildcard (order : list (string * recordSet)) (domain : string)
    (recordType : RecordType) : bool :=
  match order with
  | [] => false
  | (pattern, rs) :: order' =>
      if negb (matchWildcard pattern domain)
      then has_wildcard order' domain recordType
      else if (recordType =? RecordTypeA)%N && (0 <? length (A rs))
      then true
      else if (recordType =? RecordTypeAAAA)%N && (0 <? length (AAAA rs))
      then true
      else has_wildcard order' domain recordType
  end.

(** [HasRecord], with the order of its [range] loop. *)
Definition HasRecord (order : list (string * recordSet))
    (s : DNSRecordStore) (domain : string) (recordType : RecordType)
    : bool :=
  let domain := ToLower (Fqdn domain) in
  let path := domainToPath domain in
  let exact :=
    match walk (root s) path with
    | Some node =>
        match data node with
        | Some rs =>
            ((recordType =? RecordTypeA)%N && (0 <? length (A rs)))
            || ((recordType =? RecordTypeAAAA)%N && (0 <? length (AAAA rs)))
        | None => false
        end
    | None => false
    end in
  if exact then true else has_wildcard order domain recordType.

(** [HasPTRRecord] *)
Definition HasPTRRecord (s : DNSRecordStore) (domain : string) : bool :=
  match reverseDNSToIP domain with
  | None => false
  | Some ip => bool_decide (is_Some (ptrRecords s !! String_ ip))
  end.

(** [Clear] *)
Definition Clear (s : DNSRecordStore) : DNSRecordStore :=
  mkStore newNode ∅ ∅.

(** The orders in which a [range] loop may visit the entries of a map. *)
Definition range_order {V} (m : gmap string V) (order : list (string * V))
    : Prop :=
  order ≡ₚ map_to_list m.

End Store.

(** ** The flat-map record store (the second [DNSRecordStore] of the source) *)

Module Flat.
Import Strings Dns Net.

Record DNSRecordStore : Type := mkStore {
  aRecords : gmap string (list IP);
  aaaaRecords : gmap string (list IP);
  aWildcards : gmap string (list IP);
  aaaaWildcards : gmap string (list IP);
  ptrRecords : gmap string string
}.

(** [NewDNSRecordStore] *)
Definition NewDNSRecordStore : DNSRecordStore := mkStore ∅ ∅ ∅ ∅ ∅.

(** [m[domain] = append(m[domain], ip)] *)
Definition append_at (m : gmap string (list IP)) (domain : string) (ip : IP)
    : gmap string (list IP) :=
  <[domain := default [] (m !! domain) ++ [ip]]> m.

(** [AddRecord] *)
Definition AddRecord (s : DNSRecordStore) (domain : string) (ip : IP)
    : DNSRecordStore * option ParseError :=
  let domain := normalize domain in
  let isWildcard := ContainsAny domain "*?" in
  if bool_decide (To4 ip <> None) then
    if isWildcard then
      (mkStore (aRecords s) (aaaaRecords s)
               (append_at (aWildcards s) domain ip) (aaaaWildcards s)
               (ptrRecords s), None)
    else
      (mkStore (append_at (aRecords s) domain ip) (aaaaRecords s)
               (aWildcards s) (aaaaWildcards s)
               (<[String_ ip := domain]> (ptrRecords s)), None)
  else if bool_decide (To16 ip <> None) then
    if isWildcard then
      (mkStore (aRecords s) (aaaaRecords s) (aWildcards s)
               (append_at (aaaaWildcards s) domain ip) (ptrRecords s), None)
    else
      (mkStore (aRecords s) (append_at (aaaaRecords s) domain ip)
               (aWildcards s) (aaaaWildcards s)
               (<[String_ ip := domain]> (ptrRecords s)), None)
  else (s, Some (mkParseError "IP address" (String_ ip))).

(** [AddPTRRecord] *)
Definition AddPTRRecord (s : DNSRecordStore) (ip : IP) (domain : string)
    : DNSRecordStore :=
  let domain := normalize domain in
  mkStore (aRecords s) (aaaaRecords s) (aWildcards s) (aaaaWildcards s)
          (<[String_ ip := domain]> (ptrRecords s)).

(** [if ips, ok := m[domain]; ok { m[domain] = removeIP(ips, ip);
    if len(m[domain]) == 0 { delete(m, domain) } }] *)
Definition remove_at (m : gmap string (list IP)) (domain : string) (ip : IP)
    : gmap string (list IP) :=
  match m !! domain with
  | Some ips =>
      if length (removeIP ips ip) =? 0 then delete domain m
      else <[domain := removeIP ips ip]> m
  | None => m
  end.

(** The loop over [m[domain]] that deletes the PTR entries the domain
    owns. *)
Definition delete_ptrs_of (m : gmap string (list IP)) (domain : string)
    (ptr : gmap string string) : gmap string string :=
  match m !! domain with
  | Some ips => foldl (delete_ptr_owned domain) ptr ips
  | None => ptr
  end.

(** [RemoveRecord]; the address [None] is the nil [ip]. *)
Definition RemoveRecord (s : DNSRecordStore) (domain : string)
    (ip : option IP) : DNSRecordStore :=
  let domain := normalize domain in
  let isWildcard := ContainsAny domain "*?" in
  match ip with
  | None =>
      if isWildcard then
        mkStore (aRecords s) (aaaaRecords s)
                (delete domain (aWildcards s))
                (delete domain (aaaaWildcards s)) (ptrRecords s)
      else
        let ptr1 := delete_ptrs_of (aRecords s) domain (ptrRecords s) in
        let ptr2 := delete_ptrs_of (aaaaRecords s) domain ptr1 in
        mkStore (delete domain (aRecords s)) (delete domain (aaaaRecords s))
                (aWildcards s) (aaaaWildcards s) ptr2
  | Some ip =>
      if bool_decide (To4 ip <> None) then
        if isWildcard then
          mkStore (aRecords s) (aaaaRecords s)
                  (remove_at (aWildcards s) domain ip) (aaaaWildcards s)
                  (ptrRecords s)
        else
          match aRecords s !! domain with
          | Some _ =>
              mkStore (remove_at (aRecords s) domain ip) (aaaaRecords s)
                      (aWildcards s) (aaaaWildcards s)
                      (delete_ptr_owned domain (ptrRecords s) ip)
          | None => s
          end
      else if bool_decide (To16 ip <> None) then
        if isWildcard then
          mkStore (aRecords s) (aaaaRecords s) (aWildcards s)
                  (remove_at (aaaaWildcards s) domain ip) (ptrRecords s)
        else
          match aaaaRecords s !! domain with
          | Some _ =>
              mkStore (aRecords s) (remove_at (aaaaRecords s) domain ip)
                      (aWildcards s) (aaaaWildcards s)
                      (delete_ptr_owned domain (ptrRecords s) ip)
          | None => s
          end
      else s
  end.

(** [RemovePTRRecord] *)
Definition RemovePTRRecord (s : DNSRecordStore) (ip : IP) : DNSRecordStore :=
  mkStore (aRecords s) (aaaaRecords s) (aWildcards s) (aaaaWildcards s)
          (delete (String_ ip) (ptrRecords s)).

(** One [case] of the [switch] of [GetRecords], on the maps [exact] and
    [wild] of the record type; [order] is the order in which [wild] is
    visited.  The exact list, when the key is there, is returned whatever
    its length. *)
Definition get_case (exact : gmap string (list IP))
    (order : list (string * list IP)) (domain : string)
    : option (list IP) :=
  match exact !! domain with
  | Some ips => Some ips
  | None =>
      let records :=
        foldl
          (fun records '(pattern, ips) =>
             if matchWildcard pattern domain then records ++ ips
             else records)
          [] order in
      if 0 <? length records then Some records else None
  end.

(** [GetRecords]; [order] is the order of the [range] loop over the
    wildcard map of the record type. *)
Definition GetRecords (order : list (string * list IP))
    (s : DNSRecordStore) (domain : string) (recordType : RecordType)
    : option (list IP) :=
  let domain := ToLower (Fqdn domain) in
  if (recordType =? RecordTypeA)%N
  then get_case (aRecords s) order domain
  else if (recordType =? RecordTypeAAAA)%N
  then get_case (aaaaRecords s) order domain
  else None.

(** [GetPTRRecord] *)
Definition GetPTRRecord (s : DNSRecordStore) (domain : string)
    : string * bool :=
  match reverseDNSToIP domain with
  | None => (EmptyString, false)
  | Some ip =>
      match ptrRecords s !! String_ ip with
      | Some ptrDomain => (ptrDomain, true)
      | None => (EmptyString, false)
      end
  end.

(** One [case] of the [switch] of [HasRecord]. *)
Definition has_case (exact : gmap string (list IP))
    (order : list (string * list IP)) (domain : string) : bool :=
  match exact !! domain with
  | Some _ => true
  | None => existsb (fun '(pattern, _) => matchWildcard pattern domain) order
  end.

(** [HasRecord] *)
Definition HasRecord (order : list (string * list IP))
    (s : DNSRecordStore) (domain : string) (recordType : RecordType)
    : bool :=
  let domain := ToLower (Fqdn domain) in
  if (recordType =? RecordTypeA)%N
  then has_case (aRecords s) order domain
  else if (recordType =? RecordTypeAAAA)%N
  then has_case (aaaaRecords s) order domain
  else false.

(** [HasPTRRecord] *)
Definition HasPTRRecord (s : DNSRecordStore) (domain : string) : bool :=
  match reverseDNSToIP domain with
  | None => false
  | Some ip => bool_decide (is_Some (ptrRecords s !! String_ ip))
  end.

(** [Clear] *)
Definition Clear (s : DNSRecordStore) : DNSRecordStore :=
  mkStore ∅ ∅ ∅ ∅ ∅.

End Flat.

(** ** Vocabulary of the properties *)

Section Vocabulary.
Import Strings Dns Net.

(** [r] gives every result that [r'] gives. *)
Definition extends_ (r r' : nat -> nat -> option bool) : Prop :=
  forall pi di b, r' pi di = Some b -> r pi di = Some b.

(** The measure that every recursive call lowers. *)
Definition measure_ (p d : string) (pi di : nat) : nat :=
  (String.length p - pi) + (String.length d - di).

(** A valid address has 4 or 16 bytes. *)
Definition validIP (ip : IP) : Prop := length ip = 4 \/ length ip = 16.

(** [len] of a slice that may be nil. *)
Definition len_ (r : option (list IP)) : nat :=
  match r with Some l => length l | None => 0 end.

(** The list of a record set that a query of type [q] reads:
    [A] for [RecordTypeA], [AAAA] otherwise. *)
Definition select (q : RecordType) (rs : recordSet) : list IP :=
  if (q =? RecordTypeA)%N then A rs else AAAA rs.

(** The record set the trie holds at a name. *)
Definition exact_set (s : DNSRecordStore) (name : string) : option recordSet :=
  match walk (root s) (domainToPath name) with
  | Some node => data node
  | None => None
  end.

(** The [q] records the trie holds at a name; none when there is no node or
    no record set. *)
Definition exact_records (s : DNSRecordStore) (name : string)
    (q : RecordType) : list IP :=
  match exact_set s name with
  | Some rs => select q rs
  | None => []
  end.

(** The wildcard entries whose pattern matches a name. *)
Definition matching (name : string) (e : string * recordSet) : Prop :=
  matchWildcard e.1 name = true.

(** The store of scenario S1: a wildcard entry and an exact name under it. *)
Definition ip_10_0_0_1 : IP := [x0a; x00; x00; x01].
Definition ip_10_0_0_2 : IP := [x0a; x00; x00; x02].
Definition store_S1 : DNSRecordStore :=
  (AddRecord (AddRecord NewDNSRecordStore "*.autoco.internal" ip_10_0_0_1).1
     "exact.autoco.internal" ip_10_0_0_2).1.

(** The record set of the node that [path] leads to from [node]. *)
Definition data_at (node : domainTrieNode) (path : list string)
    : option recordSet :=
  match walk node path with
  | Some n => data n
  | None => None
  end.

(** A record set that holds an address. *)
Definition nonempty_set (rs : recordSet) : Prop := A rs <> [] \/ AAAA rs <> [].

(** Invariant 1, first half: every node of the trie other than the root has
    children or a record set that holds an address. *)
Definition inv_nodes (s : DNSRecordStore) : Prop :=
  forall path node,
    path <> [] -> walk (root s) path = Some node ->
    children node <> ∅
    \/ exists rs, data node = Some rs /\ nonempty_set rs.

(** Invariant 1, second half: no record set of the trie has both lists
    empty. *)
Definition inv_record_sets (s : DNSRecordStore) : Prop :=
  forall path rs, data_at (root s) path = Some rs -> nonempty_set rs.

(** Invariant 2: every wildcard entry holds an address. *)
Definition inv_wildcards (s : DNSRecordStore) : Prop :=
  forall p rs, wildcards s !! p = Some rs -> nonempty_set rs.

(** The mutating calls of the store. *)
Inductive mutator : Type :=
| CallAddRecord (domain : string) (ip : IP)
| CallAddPTRRecord (ip : IP) (domain : string)
| CallRemoveRecord (domain : string) (ip : option IP)
| CallRemovePTRRecord (ip : IP)
| CallClear.

(** The store after a call. *)
Definition call (s : DNSRecordStore) (m : mutator) : DNSRecordStore :=
  match m with
  | CallAddRecord domain ip => (AddRecord s domain ip).1
  | CallAddPTRRecord ip domain => AddPTRRecord s ip domain
  | CallRemoveRecord domain ip => RemoveRecord s domain ip
  | CallRemovePTRRecord ip => RemovePTRRecord s ip
  | CallClear => Clear s
  end.

(** The store after a sequence of calls on a new store. *)
Definition run (ms : list mutator) : DNSRecordStore :=
  foldl call NewDNSRecordStore ms.

Definition is_RemoveRecord (m : mutator) : bool :=
  match m with CallRemoveRecord _ _ => true | _ => false end.

(** The two hexadecimal digits of a byte. *)
Definition hi_nibble (b : byte) : ascii := hexdigit (N.shiftr (Byte.to_N b) 4).
Definition lo_nibble (b : byte) : ascii := hexdigit (N.land (Byte.to_N b) 15).

(** The four digits of a 16-bit group. *)
Definition hextet (b1 b2 : byte) : string :=
  String (hi_nibble b1)
    (String (lo_nibble b1)
       (String (hi_nibble b2) (String (lo_nibble b2) EmptyString))).

(** The groups of an address, in full. *)
Fixpoint hextets (ip : list byte) : list string :=
  match ip with
  | b1 :: b2 :: ip' => hextet b1 b2 :: hextets ip'
  | _ => []
  end.

(** The 32 labels of the reverse-DNS name of a 16-byte address: for each
    byte, last byte first, its low digit then its high digit. *)
Definition nibble_labels (ip : list byte) : list string :=
  flat_map (fun b => [String (lo_nibble b) EmptyString;
                      String (hi_nibble b) EmptyString])
           (rev ip).

(** A label that is one hexadecimal digit. *)
Definition is_nibble_label (w : string) : bool :=
  match w with
  | String c EmptyString => bool_decide (is_Some (hexval c))
  | _ => false
  end.

(** A name in the form the store keeps: lower-cased and fully qualified. *)
Definition canonical (name : string) : Prop := ToLower (Fqdn name) = name.

(** A 16-bit group: its digit of weight [16^3] is a hexadecimal digit. *)
Definition group_ok (x : N) : Prop := (N.shiftr x 12 < 16)%N.

(** The flat-map store after a call. *)
Definition flat_call (f : Flat.DNSRecordStore) (m : mutator)
    : Flat.DNSRecordStore :=
  match m with
  | CallAddRecord domain ip => (Flat.AddRecord f domain ip).1
  | CallAddPTRRecord ip domain => Flat.AddPTRRecord f ip domain
  | CallRemoveRecord domain ip => Flat.RemoveRecord f domain ip
  | CallRemovePTRRecord ip => Flat.RemovePTRRecord f ip
  | CallClear => Flat.Clear f
  end.

(** The flat-map store after a sequence of calls on a new store. *)
Definition flat_run (ms : list mutator) : Flat.DNSRecordStore :=
  foldl flat_call Flat.NewDNSRecordStore ms.

Definition is_AddPTRRecord (m : mutator) : bool :=
  match m with CallAddPTRRecord _ _ => true | _ => false end.

(** A list as the flat maps hold it: no entry for the empty list. *)
Definition ne (l : list IP) : option (list IP) :=
  match l with [] => None | _ => Some l end.

(** The list of one family that the trie holds at a name, as the flat maps
    would hold it. *)
Definition family_at (t : DNSRecordStore) (name : string)
    (sel : recordSet -> list IP) : option (list IP) :=
  match data_at (root t) (domainToPath name) with
  | Some rs => ne (sel rs)
  | None => None
  end.

(** The list of one family of a wildcard entry, as the flat maps hold it. *)
Definition family_of (sel : recordSet -> list IP) (o : option recordSet)
    : option (list IP) :=
  match o with
  | Some rs => ne (sel rs)
  | None => None
  end.

(** The trie store and the flat-map store hold the same records. *)
Definition sim (t : DNSRecordStore) (f : Flat.DNSRecordStore) : Prop :=
  ptrRecords t = Flat.ptrRecords f
  /\ (forall n, canonical n -> Flat.aRecords f !! n = family_at t n A)
  /\ (forall n, canonical n -> Flat.aaaaRecords f !! n = family_at t n AAAA)
  /\ (forall p, Flat.aWildcards f !! p = family_of A (wildcards t !! p))
  /\ (forall p, Flat.aaaaWildcards f !! p = family_of AAAA (wildcards t !! p)).

(** The addresses of a record set are filed under their family. *)
Definition typed_set (rs : recordSet) : Prop :=
  Forall (fun x => To4 x <> None) (A rs)
  /\ Forall (fun x => length x = 16 /\ To4 x = None) (AAAA rs).

Definition inv_typed (t : DNSRecordStore) : Prop :=
  (forall path rs, data_at (root t) path = Some rs -> typed_set rs)
  /\ (forall p rs, wildcards t !! p = Some rs -> typed_set rs).

(** Every PTR entry is the text of an address that its domain holds. *)
Definition inv_ptr (t : DNSRecordStore) : Prop :=
  forall k n,
    ptrRecords t !! k = Some n ->
    canonical n
    /\ exists ip rs,
         String_ ip = k
         /\ data_at (root t) (domainToPath n) = Some rs
         /\ (ip ∈ A rs \/ ip ∈ AAAA rs).

(** The two stores hold the same records and the trie store satisfies its
    invariants. *)
Definition linked (t : DNSRecordStore) (f : Flat.DNSRecordStore) : Prop :=
  sim t f /\ inv_typed t /\ inv_ptr t
  /\ inv_record_sets t /\ inv_wildcards t.

(** Two results of [GetRecords] that hold the same addresses, in any order;
    nil only with nil. *)
Definition same_up_to_order (r1 r2 : option (list IP)) : Prop :=
  match r1, r2 with
  | Some l1, Some l2 => l1 ≡ₚ l2
  | None, None => True
  | _, _ => False
  end.

(** The wildcard map of the flat store that a query of type [q] visits. *)
Definition flat_wildcards (f : Flat.DNSRecordStore) (q : RecordType)
    : gmap string (list IP) :=
  if (q =? RecordTypeA)%N then Flat.aWildcards f else Flat.aaaaWildcards f.

(** The record set that [RemoveRecord] of one address leaves. *)
Definition without (ip : IP) (rs : recordSet) : recordSet :=
  if bool_decide (To4 ip <> None)
  then mkRecordSet (removeIP (A rs) ip) (AAAA rs)
  else mkRecordSet (A rs) (removeIP (AAAA rs) ip).

Definition is_empty_set (rs : recordSet) : bool :=
  (length (A rs) =? 0) && (length (AAAA rs) =? 0).

(** The entries of the wildcard map of the trie store that the flat map of
    one family holds, in the same order: the entries whose list of the
    family is not empty. *)
Definition flat_view (sel : recordSet -> list IP)
    (order : list (string * recordSet)) : list (string * list IP) :=
  omap (fun e => pair e.1 <$> ne (sel e.2)) order.

(** The wildcard entries of the flat maps whose pattern matches a name. *)
Definition flat_matching (name : string) (e : string * list IP) : Prop :=
  matchWildcard e.1 name = true.

(** A sequence of calls without [AddPTRRecord]. *)
Definition no_AddPTRRecord (ms : list mutator) : Prop :=
  Forall (fun m => is_AddPTRRecord m = false) ms.

(** Two trie stores with the same records: the same trie and the same
    wildcard entries, whatever their PTR tables. *)
Definition same_records (t t' : DNSRecordStore) : Prop :=
  root t = root t' /\ wildcards t = wildcards t'.

(** Two flat-map stores with the same records. *)
Definition flat_same_records (f f' : Flat.DNSRecordStore) : Prop :=
  Flat.aRecords f = Flat.aRecords f'
  /\ Flat.aaaaRecords f = Flat.aaaaRecords f'
  /\ Flat.aWildcards f = Flat.aWildcards f'
  /\ Flat.aaaaWildcards f = Flat.aaaaWildcards f'.

(** A sequence of calls without its [AddPTRRecord] calls. *)
Definition drop_AddPTRRecord (ms : list mutator) : list mutator :=
  filter (fun m => is_AddPTRRecord m = false) ms.

(** Matching of a pattern against a name byte by byte: [*] stands for any
    run of bytes, [?] for one byte, every other byte for itself. *)
Inductive glob : string -> string -> Prop :=
| glob_end : glob EmptyString EmptyString
| glob_star_none (p d : string) :
    glob p d -> glob (String "*"%char p) d
| glob_star_more (p d : string) (c : ascii) :
    glob (String "*"%char p) d -> glob (String "*"%char p) (String c d)
| glob_any (p d : string) (c : ascii) :
    glob p d -> glob (String "?"%char p) (String c d)
| glob_byte (p d : string) (a : ascii) :
    a <> "*"%char -> a <> "?"%char ->
    glob p d -> glob (String a p) (String a d).

(** The names a pattern stands for: a pattern that starts with a star and a
    dot asks for at least one byte before the dot. *)
Inductive wildcard_match : string -> string -> Prop :=
| wildcard_anchored (s x ds : string) :
    x <> EmptyString -> glob ("." +:+ s) ds ->
    wildcard_match ("*." +:+ s) (x +:+ ds)
| wildcard_plain (p d : string) :
    (forall s, p <> "*." +:+ s) -> glob p d -> wildcard_match p d.

(** The [q] records of the wildcard entry of a pattern; none when the
    pattern has no entry. *)
Definition wildcard_records (s : DNSRecordStore) (pattern : string)
    (q : RecordType) : list IP :=
  match wildcards s !! pattern with
  | Some rs => select q rs
  | None => []
  end.

(** The record type under which the store files an address, and the other
    one. *)
Definition family (ip : IP) : RecordType :=
  if bool_decide (To4 ip <> None) then RecordTypeA else RecordTypeAAAA.

Definition other_family (ip : IP) : RecordType :=
  if bool_decide (To4 ip <> None) then RecordTypeAAAA else RecordTypeA.

(** A flat map that holds no empty list. *)
Definition no_empty_list (m : gmap string (list IP)) : Prop :=
  forall k l, m !! k = Some l -> l <> [].

(** The four maps of the flat-map store hold no empty list. *)
Definition flat_inv (f : Flat.DNSRecordStore) : Prop :=
  no_empty_list (Flat.aRecords f)
  /\ no_empty_list (Flat.aaaaRecords f)
  /\ no_empty_list (Flat.aWildcards f)
  /\ no_empty_list (Flat.aaaaWildcards f).

(** What every address of a list of type [q] is: an IPv4 address in an A
    list, a 16-byte address that is not IPv4 in an AAAA list. *)
Definition of_type (q : RecordType) (x : IP) : Prop :=
  if (q =? RecordTypeA)%N then To4 x <> None
  else length x = 16 /\ To4 x = None.

(** Every byte of [s] is below [utf8.RuneSelf]: the test [isASCII] of
    [strings.ToLower]. *)
Fixpoint isASCII (s : string) : bool :=
  match s with
  | EmptyString => true
  | String c s' => (nat_of_ascii c <? 128) && isASCII s'
  end.

(** An ASCII name.  On ASCII names [ToLower], [IsFqdn] and [Fqdn] are the
    functions of the libraries, and so are [normalize], [domainToPath] and
    the calls of the two stores. *)
Definition ascii_name (s : string) : Prop := isASCII s = true.

(** A call whose name, if it has one, is ASCII. *)
Definition ascii_call (m : mutator) : Prop :=
  match m with
  | CallAddRecord domain _ => ascii_name domain
  | CallAddPTRRecord _ domain => ascii_name domain
  | CallRemoveRecord domain _ => ascii_name domain
  | CallRemovePTRRecord _ => True
  | CallClear => True
  end.

(** A sequence of calls with ASCII names. *)
Definition ascii_calls (ms : list mutator) : Prop := Forall ascii_call ms.

(** The two stores answer the same on the PTR table: they hold the same
    entry under the text of every valid address, which are the keys that
    [GetPTRRecord] and [HasPTRRecord] look up. *)
Definition same_PTR (t : DNSRecordStore) (f : Flat.DNSRecordStore) : Prop :=
  forall x, validIP x ->
    ptrRecords t !! String_ x = Flat.ptrRecords f !! String_ x.

(** The calls on which the trie store deletes a PTR entry that the flat-map
    store keeps: [RemoveRecord(domain, ip)] with a valid address and a name
    without wildcards, made when the name has a record set without an
    address of the family of [ip] and the PTR entry of [ip] points at the
    name.  The trie store checks the PTR entry once it has found the record
    set; the flat-map store checks it only inside
    [if ips, ok := m[domain]; ok], on the map of the family of [ip]. *)
Definition ptr_divergent (t : DNSRecordStore) (m : mutator) : bool :=
  match m with
  | CallRemoveRecord domain (Some ip) =>
      let domain := normalize domain in
      ((length ip =? 4) || (length ip =? 16))
      && negb (ContainsAny domain "*?")
      && bool_decide (is_Some (exact_set t domain))
      && (length (exact_records t domain (family ip)) =? 0)
      && bool_decide (ptrRecords t !! String_ ip = Some domain)
  | _ => false
  end.

(** No call of the sequence [ms], made on the store [t], is one of
    those. *)
Fixpoint ptr_safe_from (t : DNSRecordStore) (ms : list mutator) : bool :=
  match ms with
  | [] => true
  | m :: ms' => negb (ptr_divergent t m) && ptr_safe_from (call t m) ms'
  end.

Definition ptr_safe (ms : list mutator) : Prop :=
  ptr_safe_from NewDNSRecordStore ms = true.

End Vocabulary.

(** * Properties *)

(** ** Byte strings *)

Section StringFacts.
Import Strings.

Lemma sapp_cons (c : ascii) (a b : string) :
  String c a +:+ b = String c (a +:+ b).
Proof. reflexivity. Qed.

Lemma sapp_nil_l (b : string) : EmptyString +:+ b = b.
Proof. reflexivity. Qed.

Lemma slength_app (a b : string) :
  String.length (a +:+ b) = String.length a + String.length b.
Proof.
  induction a as [|c a IH]; [done |]. rewrite sapp_cons; simpl. by rewrite IH.
Qed.

Lemma sapp_nil_r (a : string) : a +:+ EmptyString = a.
Proof. induction a as [|c a IH]; [done |]. by rewrite sapp_cons, IH. Qed.

Lemma sapp_assoc (a b c : string) : (a +:+ b) +:+ c = a +:+ (b +:+ c).
Proof. induction a as [|x a IH]; [done |]. by rewrite !sapp_cons, IH. Qed.

Lemma at_app_r (a b : string) (i : nat) :
  at_ (a +:+ b) (String.length a + i) = at_ b i.
Proof. induction a as [|c a IH]; [done |]. rewrite sapp_cons. exact IH. Qed.

Lemma at_app_l (a b : string) (i : nat) :
  i < String.length a -> at_ (a +:+ b) i = at_ a i.
Proof.
  revert i; induction a as [|c a IH]; intros i Hi; simpl in Hi; [lia |].
  rewrite sapp_cons. destruct i as [|i]; [done |]. apply IH; lia.
Qed.

Lemma at_ge (s : string) (i : nat) : String.length s <= i -> at_ s i = None.
Proof.
  revert i; induction s as [|c s IH]; simpl; intros i Hi; [done |].
  destruct i as [|i]; [lia |]. apply IH; lia.
Qed.

Lemma at_lt (s : string) (i : nat) :
  i < String.length s -> is_Some (at_ s i).
Proof.
  revert i; induction s as [|c s IH]; simpl; intros i Hi; [lia |].
  destruct i as [|i]; [by eexists |]. apply IH; lia.
Qed.

(** [a +:+ String c b] at the position just after [a]. *)
Lemma at_middle (a b : string) (c : ascii) :
  at_ (a +:+ String c b) (String.length a) = Some c.
Proof.
  rewrite <- (Nat.add_0_r (String.length a)). by rewrite at_app_r.
Qed.

End StringFacts.

(** ** The matcher terminates *)

Section MatchFacts.
Import Strings.

Lemma first_true_ext (f g : nat -> option bool) (i n : nat) :
  (forall j, i <= j < i + n -> f j = g j) ->
  first_true f i n = first_true g i n.
Proof.
  revert i; induction n as [|n IH]; intros i H; simpl; [done |].
  rewrite (H i) by lia. destruct (g i) as [[|]|]; try done.
  apply IH. intros j Hj. apply H. lia.
Qed.

Lemma first_true_mono (f g : nat -> option bool) (i n : nat) (b : bool) :
  (forall j c, f j = Some c -> g j = Some c) ->
  first_true f i n = Some b -> first_true g i n = Some b.
Proof.
  intros Hfg. revert i; induction n as [|n IH]; intros i; simpl; [done |].
  destruct (f i) as [[|]|] eqn:E; try done.
  - by rewrite (Hfg _ _ E).
  - rewrite (Hfg _ _ E). apply IH.
Qed.

Lemma body_mono (r r' : nat -> nat -> option bool) p d pi di b :
  extends_ r r' ->
  matchWildcardInternal_body r' p d pi di = Some b ->
  matchWildcardInternal_body r p d pi di = Some b.
Proof.
  intros Hr. unfold matchWildcardInternal_body.
  repeat case_match; try done.
  all: try (intros ?; by apply Hr).
  all: try (apply first_true_mono; intros; by apply Hr).
  all: repeat match goal with
         | H : _ = Some _ |- _ => apply Hr in H
         end; try congruence.
Qed.

Lemma fuel_mono (n m : nat) p d pi di b :
  n <= m ->
  matchWildcardInternal_fuel n p d pi di = Some b ->
  matchWildcardInternal_fuel m p d pi di = Some b.
Proof.
  revert m pi di b; induction n as [|n IH]; intros m pi di b Hnm; [done |].
  destruct m as [|m]; [lia |]. simpl.
  apply body_mono. intros ???. apply IH. lia.
Qed.

Lemma first_true_is_Some (f : nat -> option bool) (i n : nat) :
  (forall j, i <= j < i + n -> is_Some (f j)) -> is_Some (first_true f i n).
Proof.
  revert i; induction n as [|n IH]; intros i H; simpl; [by eexists |].
  destruct (H i) as [[|] ->]; [lia | by eexists |].
  apply IH. intros j Hj. apply H. lia.
Qed.

Lemma fuel_enough (n : nat) p d pi di :
  measure_ p d pi di < n ->
  is_Some (matchWildcardInternal_fuel n p d pi di).
Proof.
  unfold measure_.
  revert pi di; induction n as [|n IH]; intros pi di Hn; [lia |].
  simpl. unfold matchWildcardInternal_body.
  destruct (decide (pi < String.length p)) as [Hpi|Hpi].
  2:{ rewrite (at_ge p pi) by lia.
      rewrite !(bool_decide_eq_false_2 (None = Some _)) by done.
      destruct (decide (di < String.length d)) as [Hdi|Hdi].
      - destruct (at_lt d di Hdi) as [c ->].
        rewrite (bool_decide_eq_false_2 (None = Some _)) by done.
        rewrite orb_true_r. repeat case_match; eexists; reflexivity.
      - apply Nat.nlt_ge, Nat.leb_le in Hdi. rewrite Hdi, orb_true_l.
        repeat case_match; eexists; reflexivity. }
  repeat case_match; try (eexists; reflexivity).
  all: repeat match goal with
         | H : (_ <? _) = true |- _ => apply Nat.ltb_lt in H
         | H : (_ <=? _) = false |- _ => apply Nat.leb_gt in H
         | H : _ || _ = false |- _ => apply orb_false_iff in H as [? ?]
         end.
  all: try (apply IH; lia).
  all: try (apply first_true_is_Some; intros j Hj; apply IH; lia).
  all: match goal with
       | H : matchWildcardInternal_fuel _ _ _ ?a ?b = None |- _ =>
           destruct (IH a b) as [? ?]; [lia | congruence]
       end.
Qed.

Lemma matchWildcardInternal_total p d pi di :
  is_Some (matchWildcardInternal p d pi di).
Proof. apply fuel_enough. unfold measure_. lia. Qed.

(** The unfolding equation of [matchWildcardInternal]: the function
    satisfies the recursive definition of the source. *)
Lemma matchWildcardInternal_eq p d pi di :
  matchWildcardInternal p d pi di
  = matchWildcardInternal_body (matchWildcardInternal p d) p d pi di.
Proof.
  destruct (matchWildcardInternal_total p d pi di) as [b Hb].
  rewrite Hb. symmetry.
  unfold matchWildcardInternal in Hb. simpl in Hb.
  eapply body_mono; [| exact Hb].
  intros pi' di' b' H'. unfold matchWildcardInternal.
  destruct (matchWildcardInternal_total p d pi' di') as [c Hc].
  unfold matchWildcardInternal in Hc. rewrite Hc. f_equal.
  set (m := Nat.max (String.length p - pi + (String.length d - di))
              (S (String.length p - pi' + (String.length d - di')))).
  apply (fuel_mono _ m) in H'; [| lia].
  apply (fuel_mono _ m) in Hc; [| lia]. congruence.
Qed.

Lemma first_true_hit (f : nat -> option bool) (i n j : nat) :
  i <= j < i + n -> f j = Some true ->
  (forall k, i <= k < j -> is_Some (f k)) ->
  first_true f i n = Some true.
Proof.
  revert i; induction n as [|n IH]; intros i Hj Hf Hk; simpl; [lia |].
  destruct (decide (i = j)) as [->|Hne]; [by rewrite Hf |].
  destruct (Hk i) as [[|] ->]; [lia | done |].
  apply IH; [lia | done |]. intros k ?. apply Hk. lia.
Qed.

Lemma first_true_miss (f : nat -> option bool) (i n : nat) :
  (forall j, i <= j < i + n -> f j = Some false) ->
  first_true f i n = Some false.
Proof.
  revert i; induction n as [|n IH]; intros i H; simpl; [done |].
  rewrite (H i) by lia. apply IH. intros j ?. apply H. lia.
Qed.

End MatchFacts.

(** ** The anchored star (C2) *)

Section AnchoredStar.
Import Strings.

Lemma ContainsAny_cons_false (c : ascii) (s : string) :
  ContainsAny (String c s) "*?" = false ->
  c <> "*"%char /\ c <> "?"%char /\ ContainsAny s "*?" = false.
Proof.
  simpl. intros H.
  apply orb_false_iff in H as [H1 H2].
  apply orb_false_iff in H1 as [Ha Hb].
  apply orb_false_iff in Hb as [Hb _].
  apply bool_decide_eq_false in Ha, Hb. naive_solver.
Qed.

(** A pattern tail without wildcards matches the same domain tail. *)
Lemma match_literal_same (s pre dpre : string) :
  ContainsAny s "*?" = false ->
  matchWildcardInternal (pre +:+ s) (dpre +:+ s)
    (String.length pre) (String.length dpre) = Some true.
Proof.
  revert pre dpre; induction s as [|c s IH]; intros pre dpre Hs.
  - rewrite matchWildcardInternal_eq. unfold matchWildcardInternal_body.
    rewrite !sapp_nil_r, !Nat.eqb_refl. done.
  - apply ContainsAny_cons_false in Hs as (Hc1 & Hc2 & Hs).
    rewrite matchWildcardInternal_eq. unfold matchWildcardInternal_body.
    rewrite !slength_app, !at_middle. simpl String.length.
    replace (String.length pre =? String.length pre + S (String.length s))
      with false by (symmetry; apply Nat.eqb_neq; lia).
    rewrite andb_false_l.
    rewrite (bool_decide_eq_false_2 (Some c = Some "*"%char)) by congruence.
    rewrite (bool_decide_eq_false_2 (Some c = Some "?"%char)) by congruence.
    replace (String.length dpre + S (String.length s) <=? String.length dpre)
      with false by (symmetry; apply Nat.leb_gt; lia).
    rewrite bool_decide_eq_true_2 by done. simpl.
    specialize (IH (pre +:+ String c EmptyString)
                   (dpre +:+ String c EmptyString) Hs).
    rewrite !sapp_assoc, !slength_app in IH. simpl in IH. exact IH.
Qed.

(** A pattern tail without wildcards matches only a domain tail of its
    own length. *)
Lemma match_literal_length (s pre d : string) (di : nat) :
  ContainsAny s "*?" = false ->
  matchWildcardInternal (pre +:+ s) d (String.length pre) di = Some true ->
  String.length d = di + String.length s.
Proof.
  revert pre di; induction s as [|c s IH]; intros pre di Hs.
  - rewrite matchWildcardInternal_eq. unfold matchWildcardInternal_body.
    rewrite !sapp_nil_r, !Nat.eqb_refl. simpl.
    destruct (di =? String.length d) eqn:E; [| done].
    apply Nat.eqb_eq in E. lia.
  - apply ContainsAny_cons_false in Hs as (Hc1 & Hc2 & Hs).
    rewrite matchWildcardInternal_eq. unfold matchWildcardInternal_body.
    rewrite !slength_app, !at_middle. simpl String.length.
    replace (String.length pre =? String.length pre + S (String.length s))
      with false by (symmetry; apply Nat.eqb_neq; lia).
    rewrite andb_false_l.
    rewrite (bool_decide_eq_false_2 (Some c = Some "*"%char)) by congruence.
    rewrite (bool_decide_eq_false_2 (Some c = Some "?"%char)) by congruence.
    destruct (String.length d <=? di) eqn:E; [done |].
    apply Nat.leb_gt in E. rewrite orb_false_l.
    destruct (negb _); [done |]. intros H.
    specialize (IH (pre +:+ String c EmptyString) (di + 1) Hs).
    rewrite !sapp_assoc, !slength_app in IH. simpl in IH.
    specialize (IH H). lia.
Qed.

(** The first step on a pattern that starts with a star and a dot. *)
Lemma match_anchored (s d : string) :
  matchWildcardInternal ("*." +:+ s) d 0 0
  = if 0 =? String.length d then Some false
    else first_true (matchWildcardInternal ("*." +:+ s) d 1) 1
           (String.length d - 0).
Proof.
  rewrite matchWildcardInternal_eq at 1. unfold matchWildcardInternal_body.
  rewrite slength_app. simpl. done.
Qed.

(** The second step: the dot of the pattern against the byte at [j]. *)
Lemma match_anchored_dot (s d : string) (j : nat) :
  matchWildcardInternal ("*." +:+ s) d 1 j
  = if (String.length d <=? j)
       || negb (bool_decide (Some "."%char = at_ d j))
    then Some false
    else matchWildcardInternal ("*." +:+ s) d 2 (j + 1).
Proof.
  rewrite matchWildcardInternal_eq at 1. unfold matchWildcardInternal_body.
  rewrite slength_app. simpl. done.
Qed.

End AnchoredStar.

(** C2.  For every non-empty suffix [s] without wildcards, the pattern
    ["*." ++ s] matches [x ++ "." ++ s] for every non-empty [x] and does
    not match [s]: the leading anchored star consumes at least one byte. *)
Theorem C2_anchored_star (s : string) :
  s <> EmptyString ->
  Strings.ContainsAny s "*?" = false ->
  (forall x : string, x <> EmptyString ->
     matchWildcard ("*." +:+ s) (x +:+ "." +:+ s) = true)
  /\ matchWildcard ("*." +:+ s) s = false.
Proof.
  intros _ Hs. split.
  - intros x Hx. unfold matchWildcard.
    assert (Hlen : 0 < String.length x) by (destruct x; simpl; [done | lia]).
    change (x +:+ "." +:+ s) with (x +:+ String "."%char s).
    rewrite match_anchored, !slength_app. simpl String.length.
    replace (0 =? _) with false by (symmetry; apply Nat.eqb_neq; lia).
    rewrite (first_true_hit _ _ _ (String.length x)); [done | lia | |].
    + rewrite match_anchored_dot, !slength_app. simpl String.length.
      replace (_ <=? _) with false by (symmetry; apply Nat.leb_gt; lia).
      rewrite at_middle, bool_decide_eq_true_2 by done. simpl.
      pose proof (match_literal_same s "*." (x +:+ ".") Hs) as H.
      rewrite sapp_assoc, slength_app in H. exact H.
    + intros k _. apply matchWildcardInternal_total.
  - unfold matchWildcard. rewrite match_anchored.
    destruct (0 =? String.length s); [done |].
    rewrite first_true_miss; [done |]. intros j Hj.
    destruct (matchWildcardInternal_total ("*." +:+ s) s 1 j) as [[|] Hb];
      [| done].
    exfalso. rewrite match_anchored_dot in Hb.
    destruct (_ || _); [done |].
    apply (match_literal_length s "*." s (j + 1) Hs) in Hb. lia.
Qed.

Lemma C2_anchored_star_witness :
  matchWildcard "*.autoco.internal." "host.autoco.internal." = true
  /\ matchWildcard "*.autoco.internal." "a.b.autoco.internal." = true
  /\ matchWildcard "*.autoco.internal." "autoco.internal." = false.
Proof.
  destruct (C2_anchored_star "autoco.internal.") as [Hyes Hno];
    [done | reflexivity |].
  split; [exact (Hyes "host" ltac:(done)) |].
  split; [exact (Hyes "a.b" ltac:(done)) | exact Hno].
Defined.

(** ** The observers [GetRecords] and [HasRecord] (C1, C7, C10) *)

Section Observers.
Import Strings Dns Net.

Global Instance matching_dec name e : Decision (matching name e).
Proof. unfold matching. apply _. Defined.

(** The [range] loop of [GetRecords] appends the lists of the matching
    entries, in the order of the iteration. *)
Lemma GetRecords_loop (order : list (string * recordSet)) (name : string)
    (q : RecordType) (acc : list IP) :
  foldl (fun records '(pattern, rs) =>
           if negb (matchWildcard pattern name) then records
           else if (q =? RecordTypeA)%N then records ++ A rs
           else records ++ AAAA rs)
        acc order
  = acc ++ concat (select q <$> (filter (matching name) order).*2).
Proof.
  revert acc; induction order as [|[p rs] order IH]; intros acc; simpl.
  - by rewrite app_nil_r.
  - rewrite IH, filter_cons.
    destruct (decide (matching name (p, rs))) as [Hm|Hm];
      unfold matching in Hm; simpl in Hm.
    + rewrite Hm. simpl. unfold select.
      destruct (q =? RecordTypeA)%N; by rewrite <- app_assoc.
    + apply not_true_is_false in Hm. by rewrite Hm.
Qed.

(** [GetRecords] in terms of the trie lookup and of the matching entries. *)
Lemma GetRecords_unfold (order : list (string * recordSet))
    (s : DNSRecordStore) (d : string) (q : RecordType) :
  GetRecords order s d q
  = let name := ToLower (Fqdn d) in
    if 0 <? length (exact_records s name q)
    then Some (exact_records s name q)
    else slice_result
           (concat (select q <$> (filter (matching name) order).*2)).
Proof.
  unfold GetRecords, exact_records, exact_set. simpl.
  rewrite GetRecords_loop. simpl.
  destruct (walk _ _) as [node|]; [| done].
  destruct (data node) as [rs|]; [| done].
  fold (select q rs). by destruct (0 <? length (select q rs)).
Qed.

(** The [range] loop of [HasRecord] finds a matching entry with a record of
    the type asked for. *)
Lemma has_wildcard_true (order : list (string * recordSet)) (name : string)
    (q : RecordType) :
  q = RecordTypeA \/ q = RecordTypeAAAA ->
  has_wildcard order name q = true
  <-> exists e, e ∈ order /\ matching name e /\ select q e.2 <> [].
Proof.
  intros Hq. induction order as [|[p rs] order IH]; simpl.
  - split; [done | intros (e & He & _); by apply elem_of_nil in He].
  - unfold matching in *.
    destruct (matchWildcard p name) eqn:Hm; simpl.
    + assert (Hsel : ((q =? RecordTypeA)%N && (0 <? length (A rs))
                      || (q =? RecordTypeAAAA)%N && (0 <? length (AAAA rs)))
                     = (0 <? length (select q rs))).
      { unfold select. destruct Hq as [-> | ->]; simpl; [|done].
        by rewrite orb_false_r. }
      destruct ((q =? RecordTypeA)%N && (0 <? length (A rs))) eqn:E1;
        [| destruct ((q =? RecordTypeAAAA)%N && (0 <? length (AAAA rs)))
             eqn:E2]; simpl in Hsel.
      * split; [intros _ | done]. exists (p, rs). simpl.
        split; [left |]. split; [done |].
        symmetry in Hsel. apply Nat.ltb_lt in Hsel.
        destruct (select q rs); simpl in *; [lia | done].
      * split; [intros _ | done]. exists (p, rs). simpl.
        split; [left |]. split; [done |].
        symmetry in Hsel. apply Nat.ltb_lt in Hsel.
        destruct (select q rs); simpl in *; [lia | done].
      * rewrite IH. split.
        -- intros (e & He & H1 & H2). exists e. split; [by right | done].
        -- intros (e & He & H1 & H2). apply elem_of_cons in He as [-> | He].
           ++ simpl in *. symmetry in Hsel. apply Nat.ltb_ge in Hsel.
              destruct (select q rs); simpl in *; [done | lia].
           ++ by exists e.
    + rewrite IH. split.
      * intros (e & He & H1 & H2). exists e. split; [by right | done].
      * intros (e & He & H1 & H2). apply elem_of_cons in He as [-> | He].
        -- simpl in *. congruence.
        -- by exists e.
Qed.

Lemma concat_select_nonempty (q : RecordType) (name : string)
    (order : list (string * recordSet)) :
  concat (select q <$> (filter (matching name) order).*2) <> []
  <-> exists e, e ∈ order /\ matching name e /\ select q e.2 <> [].
Proof.
  induction order as [|[p rs] order IH]; simpl.
  - split; [done | intros (e & He & _); by apply elem_of_nil in He].
  - rewrite filter_cons. destruct (decide (matching name (p, rs))) as [Hm|Hm].
    + simpl. split.
      * intros H. destruct (select q rs) as [|x l] eqn:E.
        -- simpl in H. apply IH in H. destruct H as (e & He & ?). exists e.
           split; [by right | done].
        -- exists (p, rs). simpl. rewrite E. split; [left | done].
      * intros (e & He & H1 & H2) Hnil.
        apply app_eq_nil in Hnil as [Hn1 Hn2].
        apply elem_of_cons in He as [-> | He]; [done |].
        apply IH in Hn2; [done |]. by exists e.
    + rewrite IH. split.
      * intros (e & He & ?). exists e. split; [by right | done].
      * intros (e & He & H1 & H2).
        apply elem_of_cons in He as [-> | He]; [done |]. by exists e.
Qed.

(** The matching entries that a [range] loop visits are the matching entries
    of the map, each one once. *)
Lemma filter_range_order (m : gmap string recordSet) (name : string)
    (order : list (string * recordSet)) :
  range_order m order ->
  filter (matching name) order
  ≡ₚ map_to_list (filter (matching name) m).
Proof.
  unfold range_order. intros ->.
  apply NoDup_Permutation.
  - apply NoDup_filter, NoDup_map_to_list.
  - apply NoDup_map_to_list.
  - intros [p rs]. rewrite list_elem_of_filter, !elem_of_map_to_list.
    rewrite map_lookup_filter_Some. simpl. tauto.
Qed.

End Observers.

Section ObserverTheorems.
Import Strings Dns Net.

Lemma select_nonempty_length (q : RecordType) (rs : recordSet) :
  (0 <? length (select q rs)) = bool_decide (select q rs <> []).
Proof. by destruct (select q rs). Qed.

Lemma exact_records_ltb (s : DNSRecordStore) (name : string) (q : RecordType) :
  (0 <? length (exact_records s name q))
  = bool_decide (exact_records s name q <> []).
Proof. by destruct (exact_records s name q). Qed.

(** C1.  For a query type A or AAAA: when the trie holds records of that type
    at the normalized name, [GetRecords] returns that list and the wildcard
    entries play no part; otherwise it returns the lists of the matching
    wildcard entries, each entry of the map once, concatenated in the order
    of the iteration, and nil when that concatenation is empty. *)
Theorem C1_GetRecords_exact_then_wildcards
    (order : list (string * recordSet)) (s : DNSRecordStore) (d : string)
    (q : RecordType) :
  q = RecordTypeA \/ q = RecordTypeAAAA ->
  range_order (wildcards s) order ->
  let name := ToLower (Fqdn d) in
  let hits := filter (matching name) order in
  (exact_records s name q <> [] ->
     forall order' : list (string * recordSet),
       GetRecords order' s d q = Some (exact_records s name q))
  /\ (exact_records s name q = [] ->
        GetRecords order s d q
        = slice_result (concat (select q <$> hits.*2))
        /\ hits ≡ₚ map_to_list (filter (matching name) (wildcards s))
        /\ ((forall p rs, wildcards s !! p = Some rs ->
               matchWildcard p name = true -> select q rs = []) ->
            GetRecords order s d q = None)).
Proof.
  intros Hq Horder name hits. split.
  - intros Hex order'. rewrite GetRecords_unfold. simpl. fold name.
    rewrite exact_records_ltb. by rewrite bool_decide_eq_true_2.
  - intros Hex. rewrite GetRecords_unfold. simpl. fold name. rewrite Hex.
    simpl. fold hits. split; [done |]. split.
    + by apply filter_range_order.
    + intros Hall.
      assert (Hnil : concat (select q <$> hits.*2) = []).
      { destruct (decide (concat (select q <$> hits.*2) = []))
          as [|Hne]; [done |].
        apply concat_select_nonempty in Hne as ([p rs] & He & Hm & Hsel).
        rewrite Horder in He. apply elem_of_map_to_list in He.
        destruct Hsel. by apply (Hall p rs). }
      by rewrite Hnil.
Qed.

Lemma C1_GetRecords_exact_then_wildcards_witness :
  let order := map_to_list (wildcards store_S1) in
  GetRecords order store_S1 "exact.autoco.internal." RecordTypeA
  = Some [ip_10_0_0_2]
  /\ GetRecords order store_S1 "host.autoco.internal." RecordTypeA
     = Some [ip_10_0_0_1]
  /\ GetRecords order store_S1 "autoco.internal." RecordTypeA = None.
Proof.
  intros order.
  pose proof (fun d => C1_GetRecords_exact_then_wildcards order store_S1 d
                         RecordTypeA (or_introl eq_refl)
                         (reflexivity order)) as H.
  split; [| split].
  - destruct (H "exact.autoco.internal.") as [Hex _].
    rewrite Hex; [by vm_compute | by vm_compute].
  - destruct (H "host.autoco.internal.") as [_ Hw].
    destruct Hw as (Hw & _); [by vm_compute |].
    rewrite Hw. by vm_compute.
  - destruct (H "autoco.internal.") as [_ Hw].
    destruct Hw as (Hw & _); [by vm_compute |].
    rewrite Hw. by vm_compute.
Defined.

(** C7.  For a query type A or AAAA, [HasRecord] is true exactly when
    [GetRecords] returns a list that is not empty, whatever the orders in
    which the two calls visit the wildcard map. *)
Theorem C7_HasRecord_iff_GetRecords_nonempty
    (order1 order2 : list (string * recordSet)) (s : DNSRecordStore)
    (d : string) (q : RecordType) :
  q = RecordTypeA \/ q = RecordTypeAAAA ->
  range_order (wildcards s) order1 ->
  range_order (wildcards s) order2 ->
  HasRecord order1 s d q = true <-> 0 < len_ (GetRecords order2 s d q).
Proof.
  intros Hq H1 H2. rewrite GetRecords_unfold. simpl.
  set (name := ToLower (Fqdn d)).
  assert (Hhas : HasRecord order1 s d q
                 = (0 <? length (exact_records s name q))
                   || has_wildcard order1 name q).
  { unfold HasRecord, exact_records, exact_set. fold name.
    destruct (walk _ _) as [node|]; [| done].
    destruct (data node) as [rs|]; [| done].
    unfold select. destruct Hq as [-> | ->]; simpl.
    - rewrite orb_false_r. by destruct (0 <? length (A rs)).
    - by destruct (0 <? length (AAAA rs)). }
  rewrite Hhas.
  destruct (0 <? length (exact_records s name q)) eqn:Hex; simpl.
  - apply Nat.ltb_lt in Hex. done.
  - rewrite (has_wildcard_true _ _ _ Hq).
    unfold slice_result.
    assert (Hperm : order1 ≡ₚ order2) by (by rewrite H1, H2).
    split.
    + intros (e & He & Hm & Hsel).
      assert (Hne : concat (select q <$> (filter (matching name) order2).*2)
                    <> []).
      { apply concat_select_nonempty. exists e. by rewrite <- Hperm. }
      destruct (concat _) as [|x l]; [done | simpl; lia].
    + intros Hlen.
      destruct (concat (select q <$> (filter (matching name) order2).*2))
        as [|x l] eqn:E; [simpl in Hlen; lia |].
      assert (Hne : concat (select q <$> (filter (matching name) order2).*2)
                    <> []) by (by rewrite E).
      apply concat_select_nonempty in Hne as (e & He & ?).
      exists e. by rewrite Hperm.
Qed.

Lemma C7_HasRecord_iff_GetRecords_nonempty_witness :
  let order := map_to_list (wildcards store_S1) in
  HasRecord order store_S1 "host.autoco.internal." RecordTypeA = true
  <-> 0 < len_ (GetRecords order store_S1 "host.autoco.internal."
                  RecordTypeA).
Proof.
  intros order.
  apply (C7_HasRecord_iff_GetRecords_nonempty order order store_S1
           "host.autoco.internal." RecordTypeA).
  - left. reflexivity.
  - unfold range_order. reflexivity.
  - unfold range_order. reflexivity.
Defined.



End ObserverTheorems.

(** ** Normalization keeps the wildcard bytes *)

Section NormalizeFacts.
Import Strings Dns Net.

Lemma ContainsAny_app (a b chars : string) :
  ContainsAny (a +:+ b) chars = ContainsAny a chars || ContainsAny b chars.
Proof.
  induction a as [|c a IH]; [done |].
  rewrite sapp_cons. simpl. by rewrite IH, orb_assoc.
Qed.

Lemma lower_byte_star_qmark (c : ascii) :
  IndexByte "*?" (lower_byte c) = IndexByte "*?" c.
Proof. by destruct c as [[] [] [] [] [] [] [] []]. Qed.

Lemma ContainsAny_ToLower (s : string) :
  ContainsAny (ToLower s) "*?" = ContainsAny s "*?".
Proof.
  induction s as [|c s IH]; [done |].
  cbn [ToLower ContainsAny]. by rewrite IH, lower_byte_star_qmark.
Qed.

Lemma ContainsAny_Fqdn (s : string) :
  ContainsAny (Fqdn s) "*?" = ContainsAny s "*?".
Proof.
  unfold Fqdn. destruct (IsFqdn s); [done |].
  rewrite ContainsAny_app. simpl. by rewrite orb_false_r.
Qed.

(** The name is a wildcard pattern after normalization exactly when it holds
    a star or a question mark. *)
Lemma ContainsAny_normalize (d : string) :
  ContainsAny (normalize d) "*?" = ContainsAny d "*?".
Proof.
  unfold normalize. rewrite ContainsAny_ToLower, ContainsAny_Fqdn.
  destruct (_ || _); [| done].
  rewrite ContainsAny_app. simpl. by rewrite orb_false_r.
Qed.

Lemma validIP_To16 (ip : IP) : validIP ip -> To16 ip <> None.
Proof. intros [H | H]; unfold To16; rewrite H; done. Qed.

(** [AddRecord] accepts every valid address. *)
Lemma AddRecord_valid_guard (ip : IP) :
  validIP ip ->
  negb (bool_decide (To4 ip <> None)) && bool_decide (To16 ip = None) = false.
Proof.
  intros H%validIP_To16.
  rewrite (bool_decide_eq_false_2 (To16 ip = None)) by done.
  apply andb_false_r.
Qed.

End NormalizeFacts.

(** ** Wildcard adds and the PTR table (C8) *)

(** C8.  [AddRecord] of a wildcard pattern with a valid address succeeds and
    leaves the PTR table as it was: [GetPTRRecord] and [HasPTRRecord] return
    the same results for every reverse-DNS name before and after the call; in
    particular a lookup of the address that found nothing still finds
    nothing. *)
Theorem C8_wildcard_add_keeps_PTR
    (s : DNSRecordStore) (p : string) (ip : Net.IP) :
  Strings.ContainsAny p "*?" = true ->
  validIP ip ->
  let s' := (AddRecord s p ip).1 in
  (AddRecord s p ip).2 = None
  /\ ptrRecords s' = ptrRecords s
  /\ root s' = root s
  /\ (forall r : string,
        GetPTRRecord s' r = GetPTRRecord s r
        /\ HasPTRRecord s' r = HasPTRRecord s r)
  /\ (GetPTRRecord s (IPToReverseDNS ip) = (EmptyString, false) ->
      GetPTRRecord s' (IPToReverseDNS ip) = (EmptyString, false)).
Proof.
  intros Hp Hip. unfold AddRecord.
  rewrite (AddRecord_valid_guard ip Hip), ContainsAny_normalize, Hp. simpl.
  unfold GetPTRRecord, HasPTRRecord. simpl. done.
Qed.

Lemma C8_wildcard_add_keeps_PTR_witness :
  let s' := (AddRecord NewDNSRecordStore "*.autoco.internal" ip_10_0_0_1).1 in
  (AddRecord NewDNSRecordStore "*.autoco.internal" ip_10_0_0_1).2 = None
  /\ ptrRecords s' = ptrRecords NewDNSRecordStore
  /\ GetPTRRecord s' (IPToReverseDNS ip_10_0_0_1) = (EmptyString, false).
Proof.
  destruct (C8_wildcard_add_keeps_PTR NewDNSRecordStore "*.autoco.internal"
              ip_10_0_0_1) as (H1 & H2 & _ & _ & H3).
  - reflexivity.
  - left. reflexivity.
  - split; [exact H1 |]. split; [exact H2 |]. apply H3. reflexivity.
Defined.

(** ** The trie: walking after an update *)

Section TrieFacts.
Import Strings Dns Net.

Lemma walk_newNode (path : list string) :
  default newNode (walk newNode path) = newNode.
Proof. by destruct path. Qed.

Lemma walk_newNode_cons (l : string) (path : list string) :
  walk newNode (l :: path) = None.
Proof. done. Qed.

(** The node at the end of the updated path is the updated node. *)
Lemma walk_update_at_same (node : domainTrieNode) (path : list string)
    (f : domainTrieNode -> domainTrieNode) :
  walk (update_at node path f) path
  = Some (f (default newNode (walk node path))).
Proof.
  revert node; induction path as [|l path IH]; intros node; simpl; [done |].
  rewrite lookup_insert_eq, IH.
  destruct (children node !! l) as [c|]; simpl; [done |].
  by rewrite walk_newNode.
Qed.

(** A path that is not a prefix of the updated one leads to the node it led
    to before, when the update keeps the children of the node. *)
Lemma walk_update_at_off (node : domainTrieNode) (path q : list string)
    (f : domainTrieNode -> domainTrieNode) :
  (forall n, children (f n) = children n) ->
  ~ q `prefix_of` path ->
  walk (update_at node path f) q = walk node q.
Proof.
  intros Hf. revert node q; induction path as [|l path IH]; intros node q Hq.
  - destruct q as [|l' q]; [by destruct Hq |]. simpl. by rewrite Hf.
  - destruct q as [|l' q]; [destruct Hq; apply prefix_nil |]. simpl.
    destruct (decide (l = l')) as [<-|Hne].
    + rewrite lookup_insert_eq, IH.
      * destruct (children node !! l) as [c|]; simpl; [done |].
        destruct q as [|l' q]; [| done].
        destruct Hq. apply prefix_cons, prefix_nil.
      * intros Hp. destruct Hq. by apply prefix_cons.
    + by rewrite lookup_insert_ne.
Qed.

(** A proper prefix of the updated path leads to a node with a child. *)
Lemma walk_update_at_prefix (node : domainTrieNode) (q : list string)
    (l : string) (rest : list string) (f : domainTrieNode -> domainTrieNode) :
  exists n, walk (update_at node (q ++ l :: rest) f) q = Some n
            /\ is_Some (children n !! l).
Proof.
  revert node; induction q as [|l' q IH]; intros node; simpl.
  - eexists. split; [done |]. simpl. rewrite lookup_insert_eq. by eexists.
  - rewrite lookup_insert_eq. apply IH.
Qed.

Lemma data_at_update_at_same (node : domainTrieNode) (path : list string)
    (f : domainTrieNode -> domainTrieNode) :
  data_at (update_at node path f) path
  = data (f (default newNode (walk node path))).
Proof. unfold data_at. by rewrite walk_update_at_same. Qed.

(** The record set at any other path is the one it was, when the update
    keeps the children of the node. *)
Lemma data_at_update_at_other (node : domainTrieNode) (path q : list string)
    (f : domainTrieNode -> domainTrieNode) :
  (forall n, children (f n) = children n) ->
  path <> q ->
  data_at (update_at node path f) q = data_at node q.
Proof.
  intros Hf. unfold data_at.
  revert node q; induction path as [|l path IH]; intros node q Hq.
  - destruct q as [|l' q]; [done |]. simpl. by rewrite Hf.
  - destruct q as [|l' q]; [done |]. simpl.
    destruct (decide (l = l')) as [<-|Hne].
    + rewrite lookup_insert_eq, IH by congruence.
      destruct (children node !! l) as [c|]; simpl; [done |].
      by destruct q.
    + by rewrite lookup_insert_ne.
Qed.

End TrieFacts.

(** ** The invariants of the store (C9) *)

Section Invariants.
Import Strings Dns Net.

Lemma append_ip_nonempty (v : bool) (ip : IP) (rs : recordSet) :
  nonempty_set (append_ip v ip rs).
Proof.
  unfold nonempty_set, append_ip.
  destruct v; simpl; [left | right]; by destruct (_ rs).
Qed.

Lemma keeps_children_data (d : option recordSet) :
  forall n, children (mkNode (children n) d) = children n.
Proof. done. Qed.

Lemma inv_new : inv_nodes NewDNSRecordStore
                /\ inv_record_sets NewDNSRecordStore
                /\ inv_wildcards NewDNSRecordStore.
Proof.
  split; [| split].
  - intros [|l path] node Hp Hw; done.
  - intros [|l path] rs H; done.
  - intros p rs H. done.
Qed.

(** What [AddRecord] does to a store that accepts the call. *)
Lemma AddRecord_cases (s : DNSRecordStore) (d : string) (ip : IP) :
  let s' := (AddRecord s d ip).1 in
  s' = s
  \/ (root s' = root s
      /\ exists rs, wildcards s'
                    = <[normalize d := append_ip (bool_decide (To4 ip <> None))
                                         ip rs]> (wildcards s))
  \/ (wildcards s' = wildcards s
      /\ root s'
         = update_at (root s) (domainToPath (normalize d))
             (fun node =>
                mkNode (children node)
                  (Some (append_ip (bool_decide (To4 ip <> None)) ip
                           (default (mkRecordSet [] []) (data node)))))).
Proof.
  unfold AddRecord. simpl.
  destruct (_ && _); [by left |].
  destruct (ContainsAny _ _); simpl; right; [left | right]; eauto.
Qed.

Lemma AddRecord_inv_sets (s : DNSRecordStore) (d : string) (ip : IP) :
  inv_record_sets s -> inv_wildcards s ->
  inv_record_sets (AddRecord s d ip).1 /\ inv_wildcards (AddRecord s d ip).1.
Proof.
  intros Hr Hw.
  destruct (AddRecord_cases s d ip) as [-> | [(Hroot & rs & Hwild)
                                            | (Hwild & Hroot)]]; [done | |].
  - split.
    + unfold inv_record_sets. by rewrite Hroot.
    + unfold inv_wildcards. rewrite Hwild. intros p rs' H.
      apply lookup_insert_Some in H as [[_ <-] | [_ H]];
        [apply append_ip_nonempty | by eapply Hw].
  - split.
    + unfold inv_record_sets. rewrite Hroot. intros q rs.
      destruct (decide (domainToPath (normalize d) = q)) as [<-|Hne].
      * rewrite data_at_update_at_same. simpl. intros [= <-].
        apply append_ip_nonempty.
      * rewrite data_at_update_at_other by done. apply Hr.
    + unfold inv_wildcards. by rewrite Hwild.
Qed.

Lemma AddRecord_inv_nodes (s : DNSRecordStore) (d : string) (ip : IP) :
  inv_nodes s -> inv_nodes (AddRecord s d ip).1.
Proof.
  intros Hn.
  destruct (AddRecord_cases s d ip) as [-> | [(Hroot & rs & Hwild)
                                            | (Hwild & Hroot)]]; [done | |].
  - unfold inv_nodes. by rewrite Hroot.
  - unfold inv_nodes. rewrite Hroot. intros q node Hq.
    destruct (decide (q `prefix_of` domainToPath (normalize d)))
      as [[k Hk]|Hoff].
    + destruct k as [|l rest].
      * rewrite app_nil_r in Hk. subst q.
        rewrite walk_update_at_same. intros [= <-]. right. simpl.
        eexists. split; [done |]. apply append_ip_nonempty.
      * rewrite Hk.
        destruct (walk_update_at_prefix (root s) q l rest
                    (fun node =>
                       mkNode (children node)
                         (Some (append_ip (bool_decide (To4 ip <> None)) ip
                                  (default (mkRecordSet [] []) (data node))))))
          as (n & -> & [c Hc]).
        intros [= <-]. left. intros Hempty.
        by rewrite Hempty, lookup_empty in Hc.
    + rewrite walk_update_at_off by done. by apply Hn.
Qed.

Lemma removeIP_sets_nonempty (rs : recordSet) :
  (length (A rs) =? 0) && (length (AAAA rs) =? 0) = false -> nonempty_set rs.
Proof.
  unfold nonempty_set. destruct (A rs), (AAAA rs); simpl; try done; eauto.
Qed.

Lemma RemoveRecord_inv_sets (s : DNSRecordStore) (d : string)
    (ip : option IP) :
  inv_record_sets s -> inv_wildcards s ->
  inv_record_sets (RemoveRecord s d ip) /\ inv_wildcards (RemoveRecord s d ip).
Proof.
  intros Hr Hw. unfold RemoveRecord.
  destruct (ContainsAny _ _).
  - destruct ip as [ip|].
    + destruct (wildcards s !! normalize d) as [rs|] eqn:E; [| done].
      destruct (_ && _) eqn:Hlen; (split; [done |]);
        unfold inv_wildcards; simpl; intros p rs' H.
      * apply lookup_delete_Some in H as [_ H]. by eapply Hw.
      * apply lookup_insert_Some in H as [[_ <-] | [_ H]];
          [by apply removeIP_sets_nonempty | by eapply Hw].
    + split; [done |]. unfold inv_wildcards; simpl; intros p rs' H.
      apply lookup_delete_Some in H as [_ H]. by eapply Hw.
  - destruct (walk _ _) as [node|]; [| done].
    destruct (data node) as [rs|]; [| done].
    destruct ip as [ip|]; (split; [| done]);
      unfold inv_record_sets; simpl; intros q rs'.
    + destruct (decide (domainToPath (normalize d) = q)) as [<-|Hne].
      * rewrite data_at_update_at_same. simpl.
        destruct (_ && _) eqn:Hlen; [done |]. intros [= <-].
        by apply removeIP_sets_nonempty.
      * rewrite data_at_update_at_other by done. apply Hr.
    + destruct (decide (domainToPath (normalize d) = q)) as [<-|Hne].
      * by rewrite data_at_update_at_same.
      * rewrite data_at_update_at_other by done. apply Hr.
Qed.

Lemma call_inv_sets (s : DNSRecordStore) (m : mutator) :
  inv_record_sets s -> inv_wildcards s ->
  inv_record_sets (call s m) /\ inv_wildcards (call s m).
Proof.
  intros Hr Hw. destruct m; simpl; try done.
  - by apply AddRecord_inv_sets.
  - by apply RemoveRecord_inv_sets.
  - split; [apply inv_new | apply inv_new].
Qed.

Lemma call_inv_nodes (s : DNSRecordStore) (m : mutator) :
  is_RemoveRecord m = false -> inv_nodes s -> inv_nodes (call s m).
Proof.
  intros Hm Hn. destruct m; simpl; try done.
  - by apply AddRecord_inv_nodes.
  - apply inv_new.
Qed.

End Invariants.

(** C9, as amended.  The two invariants on record sets (no record set of the
    trie has both lists empty; every wildcard entry holds an address) hold in
    a new store and are preserved by each of the five mutators, so they hold
    after every sequence of calls.  The invariant on the nodes of the trie
    (children or a record set that is not empty) holds in a new store and is
    preserved by [AddRecord], [AddPTRRecord], [RemovePTRRecord] and [Clear];
    [RemoveRecord], which does not prune the trie, is left out. *)
Theorem C9_invariants_preserved :
  (inv_nodes NewDNSRecordStore /\ inv_record_sets NewDNSRecordStore
   /\ inv_wildcards NewDNSRecordStore)
  /\ (forall s m, inv_record_sets s -> inv_wildcards s ->
        inv_record_sets (call s m) /\ inv_wildcards (call s m))
  /\ (forall s m, is_RemoveRecord m = false -> inv_nodes s ->
        inv_nodes (call s m))
  /\ (forall ms, inv_record_sets (run ms) /\ inv_wildcards (run ms))
  /\ (forall ms, forallb (fun m => negb (is_RemoveRecord m)) ms = true ->
        inv_nodes (run ms)).
Proof.
  split; [apply inv_new |]. split; [apply call_inv_sets |].
  split; [apply call_inv_nodes |]. split.
  - intros ms. unfold run.
    induction ms as [|m ms IH] using rev_ind; [apply inv_new |].
    rewrite foldl_app. simpl. destruct IH. by apply call_inv_sets.
  - intros ms. unfold run.
    induction ms as [|m ms IH] using rev_ind; [intros; simpl; apply inv_new |].
    rewrite forallb_app, foldl_app. simpl.
    intros [H1 H2]%andb_true_iff. rewrite andb_true_r in H2.
    apply call_inv_nodes; [by apply negb_true_iff | by apply IH].
Qed.

Lemma C9_invariants_preserved_witness :
  let ms := [CallAddRecord "a.internal" ip_10_0_0_1;
             CallAddRecord "*.internal" ip_10_0_0_2;
             CallClear;
             CallAddPTRRecord ip_10_0_0_1 "b.internal"] in
  inv_nodes (run ms) /\ inv_record_sets (run ms) /\ inv_wildcards (run ms).
Proof.
  intros ms.
  destruct C9_invariants_preserved as (_ & _ & _ & Hsets & Hnodes).
  split; [apply Hnodes; reflexivity | apply Hsets].
Defined.

(** The claim as stated fails: in a store that satisfies the three
    invariants, [RemoveRecord] of the only record of a name leaves its node in
    the trie, with no children and no record set. *)
Lemma C9_counterexample :
  let s := (AddRecord NewDNSRecordStore "a.internal" ip_10_0_0_1).1 in
  let s' := RemoveRecord s "a.internal" (Some ip_10_0_0_1) in
  (inv_nodes s /\ inv_record_sets s /\ inv_wildcards s)
  /\ walk (root s') ["internal"; "a"] = Some newNode
  /\ ~ inv_nodes s'.
Proof.
  intros s s'. split; [| split].
  - split; [apply AddRecord_inv_nodes, inv_new |].
    apply AddRecord_inv_sets; apply inv_new.
  - by vm_compute.
  - intros H.
    destruct (H ["internal"; "a"] newNode) as [Hc | (rs & Hd & _)];
      [done | by vm_compute | by apply Hc | done].
Qed.

(** ** The empty name (C5) *)

Section EmptyName.
Import Strings Dns Net.

(** The record type under which [AddRecord] files an address. *)
Lemma select_append_ip (ip : IP) (rs : recordSet) :
  let v4 := bool_decide (To4 ip <> None) in
  select (if v4 then RecordTypeA else RecordTypeAAAA) (append_ip v4 ip rs)
  = select (if v4 then RecordTypeA else RecordTypeAAAA) rs ++ [ip].
Proof. simpl. by destruct (bool_decide _). Qed.

(** C5, as amended.  The empty name is not rejected: [AddRecord] with the
    empty name and a valid address is [AddRecord] with the root name ["."];
    it returns no error, files the address at the root of the trie, where
    [GetRecords] and [HasRecord] with the empty name find it, and makes the
    PTR entry of the address point to ["."]. *)
Theorem C5_empty_name_is_root
    (order : list (string * recordSet)) (s : DNSRecordStore) (ip : IP) :
  validIP ip ->
  let q := if bool_decide (To4 ip <> None)
           then RecordTypeA else RecordTypeAAAA in
  let s' := (AddRecord s EmptyString ip).1 in
  AddRecord s EmptyString ip = AddRecord s "." ip
  /\ (AddRecord s EmptyString ip).2 = None
  /\ GetRecords order s' EmptyString q
     = Some (exact_records s "." q ++ [ip])
  /\ HasRecord order s' EmptyString q = true
  /\ ptrRecords s' !! String_ ip = Some ".".
Proof.
  intros Hip q s'. split; [done |].
  assert (Hs' : s' = mkStore
                  (mkNode (children (root s))
                     (Some (append_ip (bool_decide (To4 ip <> None)) ip
                              (default (mkRecordSet [] []) (data (root s))))))
                  (wildcards s) (<[String_ ip := "."]> (ptrRecords s))).
  { unfold s', AddRecord. by rewrite (AddRecord_valid_guard ip Hip). }
  split; [| split; [| split]].
  - unfold AddRecord. by rewrite (AddRecord_valid_guard ip Hip).
  - rewrite GetRecords_unfold. cbv zeta.
    assert (Hex : exact_records s' "." q = exact_records s "." q ++ [ip]).
    { rewrite Hs'. unfold exact_records, exact_set. simpl.
      unfold q. rewrite select_append_ip.
      destruct (data (root s)); [done |].
      by destruct (bool_decide (To4 ip <> None)). }
    change (ToLower (Fqdn EmptyString)) with ".".
    rewrite Hex. by destruct (exact_records s "." q).
  - rewrite Hs'. unfold HasRecord. simpl. unfold q, append_ip.
    destruct (bool_decide (To4 ip <> None)); simpl.
    + rewrite length_app. simpl.
      by replace (0 <? _) with true by (symmetry; apply Nat.ltb_lt; lia).
    + rewrite length_app. simpl.
      by replace (0 <? _ + 1) with true by (symmetry; apply Nat.ltb_lt; lia).
  - rewrite Hs'. simpl. apply lookup_insert_eq.
Qed.

Lemma C5_empty_name_is_root_witness :
  let s' := (AddRecord NewDNSRecordStore EmptyString ip_10_0_0_1).1 in
  AddRecord NewDNSRecordStore EmptyString ip_10_0_0_1
  = AddRecord NewDNSRecordStore "." ip_10_0_0_1
  /\ GetRecords [] s' EmptyString RecordTypeA = Some [ip_10_0_0_1]
  /\ HasRecord [] s' EmptyString RecordTypeA = true.
Proof.
  destruct (C5_empty_name_is_root [] NewDNSRecordStore ip_10_0_0_1)
    as (H1 & _ & H2 & H3 & _).
  - left. reflexivity.
  - split; [exact H1 |]. split; [exact H2 | exact H3].
Defined.

(** The claim as stated fails: the call with the empty name is accepted, it
    changes the store, and the address comes back from [GetRecords]. *)
Lemma C5_counterexample :
  let r := AddRecord NewDNSRecordStore EmptyString ip_10_0_0_1 in
  r.2 = None
  /\ r.1 <> NewDNSRecordStore
  /\ GetRecords [] NewDNSRecordStore EmptyString RecordTypeA = None
  /\ GetRecords [] r.1 EmptyString RecordTypeA = Some [ip_10_0_0_1]
  /\ HasRecord [] NewDNSRecordStore EmptyString RecordTypeA = false
  /\ HasRecord [] r.1 EmptyString RecordTypeA = true.
Proof.
  intros r. split; [done |]. split; [| by vm_compute].
  intros H. apply (f_equal (fun s => data (root s))) in H.
  by vm_compute in H.
Qed.

End EmptyName.

(** ** Suffixes, splitting and joining *)

Section SuffixFacts.
Import Strings Dns Net.

Lemma substring_0_length (s : string) :
  String.substring 0 (String.length s) s = s.
Proof. induction s as [|c s IH]; simpl; [done | by rewrite IH]. Qed.

Lemma substring_app_l (a b : string) :
  String.substring 0 (String.length a) (a +:+ b) = a.
Proof.
  induction a as [|c a IH]; [by destruct b |].
  rewrite sapp_cons. simpl. by rewrite IH.
Qed.

Lemma substring_app_r (a b : string) (n : nat) :
  String.substring (String.length a) n (a +:+ b) = String.substring 0 n b.
Proof. induction a as [|c a IH]; [done |]. by rewrite sapp_cons. Qed.

Lemma substring_split (s : string) (n : nat) :
  n <= String.length s ->
  s = String.substring 0 n s
      +:+ String.substring n (String.length s - n) s.
Proof.
  revert n; induction s as [|c s IH]; intros n Hn.
  - simpl in Hn. by replace n with 0 by lia.
  - destruct n as [|n]; simpl.
    + by rewrite substring_0_length.
    + rewrite sapp_cons. f_equal. apply IH. simpl in Hn. lia.
Qed.

Lemma HasSuffix_app (a suffix : string) : HasSuffix (a +:+ suffix) suffix = true.
Proof.
  unfold HasSuffix, slice. rewrite slength_app.
  replace (String.length a + String.length suffix - String.length suffix)
    with (String.length a) by lia.
  replace (String.length a + String.length suffix - String.length a)
    with (String.length suffix) by lia.
  rewrite substring_app_r, substring_0_length.
  rewrite bool_decide_eq_true_2 by done.
  rewrite andb_true_r. apply Nat.leb_le. lia.
Qed.

Lemma HasSuffix_inv (s suffix : string) :
  HasSuffix s suffix = true -> exists a, s = a +:+ suffix.
Proof.
  unfold HasSuffix, slice. intros [Hlen Heq]%andb_true_iff.
  apply Nat.leb_le in Hlen. apply bool_decide_eq_true in Heq.
  set (n := String.length s - String.length suffix) in *.
  exists (String.substring 0 n s). rewrite <- Heq.
  apply substring_split. lia.
Qed.

Lemma TrimSuffix_app (a suffix : string) :
  TrimSuffix (a +:+ suffix) suffix = a.
Proof.
  unfold TrimSuffix. rewrite HasSuffix_app. unfold slice.
  rewrite slength_app.
  replace (String.length a + String.length suffix - String.length suffix - 0)
    with (String.length a) by lia.
  apply substring_app_l.
Qed.

(** Two strings that end in tails of the same length end in the same
    tail. *)
Lemma sapp_inj_tail (x y a b : string) :
  String.length a = String.length b ->
  x +:+ a = y +:+ b -> x = y /\ a = b.
Proof.
  intros Hlen. revert y; induction x as [|c x IH]; intros y H.
  - destruct y as [|c' y]; [done |].
    apply (f_equal String.length) in H.
    rewrite sapp_nil_l, sapp_cons in H. simpl in H.
    rewrite slength_app in H. lia.
  - destruct y as [|c' y].
    + apply (f_equal String.length) in H.
      rewrite sapp_nil_l, sapp_cons in H. simpl in H.
      rewrite slength_app in H. lia.
    + rewrite !sapp_cons in H. injection H as -> H.
      destruct (IH y H) as [-> ->]. done.
Qed.

Lemma IndexByte_app (a b : string) (c : ascii) :
  IndexByte (a +:+ b) c = IndexByte a c || IndexByte b c.
Proof.
  induction a as [|x a IH]; [done |].
  rewrite sapp_cons. simpl. by rewrite IH, orb_assoc.
Qed.

Lemma Split_nonempty (s : string) (sep : ascii) : Split s sep <> [].
Proof.
  induction s as [|c s IH]; simpl; [done |].
  destruct (bool_decide _); [done |]. by destruct (Split s sep).
Qed.

(** A piece without the separator, followed by the separator. *)
Lemma Split_app (w rest : string) (sep : ascii) :
  IndexByte w sep = false ->
  Split (w +:+ String sep rest) sep = w :: Split rest sep.
Proof.
  induction w as [|c w IH]; intros Hw.
  - rewrite sapp_nil_l. simpl. by rewrite bool_decide_eq_true_2.
  - simpl in Hw. apply orb_false_iff in Hw as [Hc Hw].
    rewrite sapp_cons. simpl. rewrite Hc, (IH Hw). done.
Qed.

Lemma Split_single (w : string) (sep : ascii) :
  IndexByte w sep = false -> Split w sep = [w].
Proof.
  induction w as [|c w IH]; intros Hw; [done |].
  simpl in Hw. apply orb_false_iff in Hw as [Hc Hw].
  simpl. by rewrite Hc, (IH Hw).
Qed.

(** Splitting what was joined gives the pieces back. *)
Lemma Split_Join (ws : list string) (sep : ascii) :
  ws <> [] ->
  Forall (fun w => IndexByte w sep = false) ws ->
  Split (Join ws (String sep EmptyString)) sep = ws.
Proof.
  induction ws as [|w ws IH]; [done |]. intros _ Hall.
  apply Forall_cons in Hall as [Hw Hall].
  destruct ws as [|w' ws]; [by apply Split_single |].
  change (Join (w :: w' :: ws) (String sep EmptyString))
    with (w +:+ String sep (Join (w' :: ws) (String sep EmptyString))).
  rewrite Split_app by done. by rewrite IH.
Qed.

(** Joining what was split gives the string back. *)
Lemma Join_Split (s : string) (sep : ascii) :
  Join (Split s sep) (String sep EmptyString) = s.
Proof.
  induction s as [|c s IH]; [done |]. simpl.
  destruct (bool_decide (c = sep)) eqn:E.
  - apply bool_decide_eq_true in E as ->.
    pose proof (Split_nonempty s sep).
    destruct (Split s sep) as [|w ws] eqn:Es; [done |].
    change (Join (EmptyString :: w :: ws) (String sep EmptyString))
      with (String sep (Join (w :: ws) (String sep EmptyString))).
    by rewrite IH.
  - pose proof (Split_nonempty s sep).
    destruct (Split s sep) as [|w ws] eqn:Es; [done |].
    destruct ws as [|w' ws].
    + simpl in *. by rewrite IH.
    + change (Join (String c w :: w' :: ws) (String sep EmptyString))
        with (String c (Join (w :: w' :: ws) (String sep EmptyString))).
      by rewrite IH.
Qed.

Lemma ToLower_app (a b : string) :
  ToLower (a +:+ b) = ToLower a +:+ ToLower b.
Proof.
  induction a as [|c a IH]; [done |].
  rewrite sapp_cons. simpl. by rewrite IH, sapp_cons.
Qed.

Lemma ToLower_length (s : string) : String.length (ToLower s) = String.length s.
Proof. induction s as [|c s IH]; simpl; [done | by rewrite IH]. Qed.

Lemma lower_byte_idem (c : ascii) : lower_byte (lower_byte c) = lower_byte c.
Proof. by destruct c as [[] [] [] [] [] [] [] []]. Qed.

Lemma ToLower_idem (s : string) : ToLower (ToLower s) = ToLower s.
Proof.
  induction s as [|c s IH]; simpl; [done |]. by rewrite IH, lower_byte_idem.
Qed.

End SuffixFacts.

(** ** Fully qualified names *)

Section FqdnFacts.
Import Strings Dns Net.

(** A string that does not end in a dot is not fully qualified. *)
Lemma IsFqdn_not_dot (x : string) (c : ascii) :
  c <> "."%char -> IsFqdn (x +:+ String c EmptyString) = false.
Proof.
  intros Hc. unfold IsFqdn. rewrite slength_app. simpl.
  replace (String.length x + 1 - 1) with (String.length x) by lia.
  rewrite at_middle.
  rewrite (bool_decide_eq_false_2 (Some c = Some "."%char)) by congruence.
  by rewrite orb_true_r.
Qed.

(** A string that ends in a dot after a byte other than a backslash is fully
    qualified. *)
Lemma IsFqdn_dot (x : string) (c : ascii) :
  c <> "\"%char ->
  IsFqdn (x +:+ String c (String "."%char EmptyString)) = true.
Proof.
  intros Hc. unfold IsFqdn.
  change (x +:+ String c (String "."%char EmptyString))
    with (x +:+ String c EmptyString +:+ String "."%char EmptyString).
  rewrite <- sapp_assoc.
  set (y := x +:+ String c EmptyString).
  rewrite slength_app. simpl.
  replace (String.length y + 1 - 1) with (String.length y) by lia.
  rewrite at_middle. unfold slice.
  replace (String.length y - 0) with (String.length y) by lia.
  rewrite substring_app_l.
  assert (Hy : String.length y = String.length x + 1)
    by (unfold y; by rewrite slength_app).
  rewrite (bool_decide_eq_false_2 (y +:+ _ = EmptyString)).
  2:{ intros H. apply (f_equal String.length) in H.
      rewrite slength_app in H. simpl in H. lia. }
  rewrite bool_decide_eq_true_2 by done. simpl.
  rewrite (bool_decide_eq_false_2 (y = EmptyString)).
  2:{ intros H. apply (f_equal String.length) in H. simpl in H. lia. }
  rewrite Hy. replace (String.length x + 1 - 1) with (String.length x) by lia.
  unfold y. rewrite at_middle.
  by rewrite (bool_decide_eq_false_2 (Some c = Some "\"%char)) by congruence.
Qed.

End FqdnFacts.

(** ** Reverse-DNS names of IPv4 addresses *)

Section ReverseV4.
Import Strings Dns Net.

Lemma u8_to_N (b : byte) : u8 (Byte.to_N b) = b.
Proof. by destruct b. Qed.

Lemma itoa_no_dot (b : byte) : IndexByte (itoa b) "."%char = false.
Proof. by destruct b. Qed.

Lemma itoa_lower (b : byte) : ToLower (itoa b) = itoa b.
Proof. by destruct b. Qed.

Lemma ToLower_dot (x : string) :
  ToLower (String "."%char x) = String "."%char (ToLower x).
Proof. done. Qed.

Lemma itoa_first_sep (b : byte) (rest : string) :
  first_sep (itoa b +:+ rest) = first_sep rest.
Proof. by destruct b. Qed.

Lemma itoa_app_nonempty (b : byte) (rest : string) :
  bool_decide (itoa b +:+ rest = EmptyString) = false.
Proof. by destruct b. Qed.

(** [parseIPv4Fields] reads the digits of an octet. *)
Lemma parseIPv4Fields_itoa (b : byte) (rest : string) (first pd : bool)
    (fields : list byte) :
  parseIPv4Fields_loop (itoa b +:+ rest) first pd 0%N 0 fields
  = parseIPv4Fields_loop rest false false (Byte.to_N b)
      (String.length (itoa b)) fields.
Proof. by destruct b. Qed.

(** The octet is stored at the dot that follows it. *)
Lemma parseIPv4Fields_octet_dot (b b' : byte) (rest : string)
    (first pd : bool) (fields : list byte) :
  length fields < 3 ->
  parseIPv4Fields_loop
    (itoa b +:+ String "."%char (itoa b' +:+ rest)) first pd 0%N 0 fields
  = parseIPv4Fields_loop (itoa b' +:+ rest) false true 0%N 0 (fields ++ [b]).
Proof.
  intros Hlen. rewrite parseIPv4Fields_itoa.
  cbn [parseIPv4Fields_loop]. cbn [is_digit chr N_of_ascii].
  change (is_digit "."%char) with false. cbv iota.
  rewrite bool_decide_eq_true_2 by done.
  rewrite itoa_app_nonempty. simpl.
  replace (length fields =? 3) with false by (symmetry; apply Nat.eqb_neq; lia).
  by rewrite u8_to_N.
Qed.

Lemma parseIPv4Fields_dotted (a b c d : byte) :
  parseIPv4Fields
    (itoa a +:+ String "."%char
       (itoa b +:+ String "."%char
          (itoa c +:+ String "."%char (itoa d))))
  = Some [a; b; c; d].
Proof.
  unfold parseIPv4Fields.
  rewrite <- (sapp_nil_r (itoa d)).
  rewrite !parseIPv4Fields_octet_dot by (simpl; lia).
  rewrite parseIPv4Fields_itoa. simpl. by rewrite u8_to_N.
Qed.

Lemma ParseIP_dotted (a b c d : byte) :
  ParseIP
    (itoa a +:+ String "."%char
       (itoa b +:+ String "."%char
          (itoa c +:+ String "."%char (itoa d))))
  = Some (v4InV6Prefix ++ [a; b; c; d]).
Proof.
  unfold ParseIP. rewrite itoa_first_sep. cbn [first_sep].
  rewrite bool_decide_eq_true_2 by done. simpl orb. cbv iota.
  by rewrite parseIPv4Fields_dotted.
Qed.

(** The reverse-DNS name of the IPv4 address [a.b.c.d] parses back to the
    16-byte form of the address. *)
Lemma reverseDNSToIP_v4 (a b c d : byte) :
  reverseDNSToIP
    (Fqdn (itoa d +:+ "." +:+ itoa c +:+ "." +:+ itoa b +:+ "." +:+
           itoa a +:+ ".in-addr.arpa"))
  = Some (v4InV6Prefix ++ [a; b; c; d]).
Proof.
  set (p := itoa d +:+ String "."%char
              (itoa c +:+ String "."%char
                 (itoa b +:+ String "."%char (itoa a)))).
  assert (Hname : itoa d +:+ "." +:+ itoa c +:+ "." +:+ itoa b +:+ "." +:+
                  itoa a +:+ ".in-addr.arpa"
                  = p +:+ ".in-addr.arpa").
  { unfold p.
    repeat first [rewrite sapp_assoc | rewrite sapp_cons | rewrite sapp_nil_l].
    done. }
  rewrite Hname.
  assert (Hfq : Fqdn (p +:+ ".in-addr.arpa") = p +:+ ".in-addr.arpa.").
  { unfold Fqdn.
    change (p +:+ ".in-addr.arpa")
      with (p +:+ (".in-addr.arp" +:+ String "a"%char EmptyString)).
    rewrite <- sapp_assoc, IsFqdn_not_dot by done.
    by rewrite !sapp_assoc. }
  rewrite Hfq. unfold reverseDNSToIP.
  assert (Hfq2 : Fqdn (p +:+ ".in-addr.arpa.") = p +:+ ".in-addr.arpa.").
  { unfold Fqdn.
    change (p +:+ ".in-addr.arpa.")
      with (p +:+ (".in-addr.arp"
                   +:+ String "a"%char (String "."%char EmptyString))).
    rewrite <- sapp_assoc, IsFqdn_dot by done. done. }
  assert (Hlow : ToLower (p +:+ ".in-addr.arpa.") = p +:+ ".in-addr.arpa.").
  { unfold p.
    repeat first [rewrite ToLower_app | rewrite ToLower_dot
                 | rewrite itoa_lower].
    done. }
  rewrite Hfq2, Hlow, HasSuffix_app, TrimSuffix_app.
  assert (Hsplit : Split p "."%char = [itoa d; itoa c; itoa b; itoa a]).
  { unfold p. rewrite !Split_app by apply itoa_no_dot.
    by rewrite Split_single by apply itoa_no_dot. }
  rewrite Hsplit. simpl. apply ParseIP_dotted.
Qed.

End ReverseV4.

(** ** Reverse-DNS names of IPv6 addresses *)

Section ReverseV6.
Import Strings Dns Net.

Lemma sprintf_x_hi (b : byte) :
  sprintf_x (N.shiftr (Byte.to_N b) 4) = String (hi_nibble b) EmptyString.
Proof. by destruct b. Qed.

Lemma sprintf_x_lo (b : byte) :
  sprintf_x (N.land (Byte.to_N b) 15) = String (lo_nibble b) EmptyString.
Proof. by destruct b. Qed.

Lemma hexval_hi (b : byte) :
  hexval (hi_nibble b) = Some (N.shiftr (Byte.to_N b) 4).
Proof. by destruct b. Qed.

Lemma hexval_lo (b : byte) :
  hexval (lo_nibble b) = Some (N.land (Byte.to_N b) 15).
Proof. by destruct b. Qed.

Lemma nibbles_value (b : byte) :
  (N.shiftr (Byte.to_N b) 4 * 16 + N.land (Byte.to_N b) 15)%N = Byte.to_N b.
Proof. by destruct b. Qed.

Lemma nibble_plain (b : byte) (c : ascii) :
  c = hi_nibble b \/ c = lo_nibble b ->
  lower_byte c = c /\ c <> "."%char /\ c <> ":"%char /\ c <> "%"%char.
Proof. intros [-> | ->]; by destruct b. Qed.

(** [parseHex] reads the four digits of a group. *)
Lemma parseHex_hextet (b1 b2 : byte) (rest : string) :
  rest = EmptyString \/ (exists r, rest = String ":"%char r) ->
  parseHex (hextet b1 b2 +:+ rest) 0 0%N
  = Some (4, (Byte.to_N b1 * 256 + Byte.to_N b2)%N, rest).
Proof.
  intros Hrest. unfold hextet. rewrite !sapp_cons, sapp_nil_l.
  cbn [parseHex]. rewrite !hexval_hi, !hexval_lo.
  pose proof (Byte.to_N_bounded b1) as B1.
  pose proof (Byte.to_N_bounded b2) as B2.
  pose proof (nibbles_value b1) as V1.
  pose proof (nibbles_value b2) as V2.
  set (h1 := N.shiftr (Byte.to_N b1) 4) in *.
  set (l1 := N.land (Byte.to_N b1) 15) in *.
  set (h2 := N.shiftr (Byte.to_N b2) 4) in *.
  set (l2 := N.land (Byte.to_N b2) 15) in *.
  rewrite !N.shiftl_mul_pow2. change (2 ^ 4)%N with 16%N.
  change (3 <? 0) with false. change (3 <? 1) with false.
  change (3 <? 2) with false. change (3 <? 3) with false. cbv iota.
  replace (65535 <? 0 * 16 + h1)%N with false
    by (symmetry; apply N.ltb_ge; lia).
  replace (65535 <? (0 * 16 + h1) * 16 + l1)%N with false
    by (symmetry; apply N.ltb_ge; lia).
  replace (65535 <? ((0 * 16 + h1) * 16 + l1) * 16 + h2)%N with false
    by (symmetry; apply N.ltb_ge; lia).
  replace (65535 <? (((0 * 16 + h1) * 16 + l1) * 16 + h2) * 16 + l2)%N
    with false by (symmetry; apply N.ltb_ge; lia).
  replace ((((0 * 16 + h1) * 16 + l1) * 16 + h2) * 16 + l2)%N
    with (Byte.to_N b1 * 256 + Byte.to_N b2)%N by lia.
  destruct Hrest as [-> | [r ->]]; reflexivity.
Qed.

Lemma u8_high (b1 b2 : byte) :
  u8 (N.shiftr (Byte.to_N b1 * 256 + Byte.to_N b2) 8) = b1.
Proof.
  rewrite N.shiftr_div_pow2. change (2 ^ 8)%N with 256%N.
  pose proof (Byte.to_N_bounded b2).
  replace ((Byte.to_N b1 * 256 + Byte.to_N b2) / 256)%N with (Byte.to_N b1).
  - apply u8_to_N.
  - apply (N.div_unique _ 256 _ (Byte.to_N b2)); lia.
Qed.

Lemma u8_low (b1 b2 : byte) :
  u8 (Byte.to_N b1 * 256 + Byte.to_N b2) = b2.
Proof.
  unfold u8. pose proof (Byte.to_N_bounded b2).
  replace ((Byte.to_N b1 * 256 + Byte.to_N b2) mod 256)%N
    with (Byte.to_N b2).
  - by rewrite Byte.of_to_N.
  - apply (N.mod_unique _ 256 (Byte.to_N b1)); lia.
Qed.

Lemma Join_hextets_cons (b1 b2 b3 b4 : byte) (ip : list byte) :
  Join (hextets (b1 :: b2 :: b3 :: b4 :: ip)) ":"
  = hextet b1 b2 +:+ String ":"%char (Join (hextets (b3 :: b4 :: ip)) ":").
Proof. done. Qed.

(** One turn of the loop of [parseIPv6] on a group written in full that a
    colon and another group follow. *)
Lemma parseIPv6_loop_step (n : nat) (b1 b2 : byte) (c : ascii) (r : string)
    (acc : list byte) :
  c <> ":"%char ->
  parseIPv6_loop (S n) (hextet b1 b2 +:+ String ":"%char (String c r)) acc None
  = parseIPv6_loop n (String c r) (acc ++ [b1; b2]) None.
Proof.
  intros Hc. cbn [parseIPv6_loop].
  rewrite parseHex_hextet by (right; by eexists).
  cbn [Nat.eqb at_ String.get].
  rewrite (bool_decide_eq_false_2 (Some ":"%char = Some "."%char)) by done.
  rewrite bool_decide_eq_true_2 by done. cbn [negb].
  rewrite (bool_decide_eq_false_2 (c = ":"%char)) by done.
  by rewrite u8_high, u8_low.
Qed.

(** The loop of [parseIPv6] over groups written in full. *)
Lemma parseIPv6_loop_hextets (n : nat) (ip acc : list byte) :
  length ip = 2 * S n ->
  parseIPv6_loop (S n) (Join (hextets ip) ":") acc None
  = Some (EmptyString, acc ++ ip, None).
Proof.
  revert ip acc; induction n as [|n IH]; intros ip acc Hlen.
  - destruct ip as [|b1 [|b2 [|? ?]]]; try done.
    change (Join (hextets [b1; b2]) ":") with (hextet b1 b2).
    cbn [parseIPv6_loop].
    rewrite <- (sapp_nil_r (hextet b1 b2)) at 1.
    rewrite parseHex_hextet by (by left). simpl.
    by rewrite u8_high, u8_low.
  - destruct ip as [|b1 [|b2 [|b3 [|b4 ip]]]]; simpl in Hlen; try lia.
    rewrite Join_hextets_cons.
    assert (exists c r,
               Join (hextets (b3 :: b4 :: ip)) ":" = String c r
               /\ c <> ":"%char) as (c & r & Hj & Hc).
    { destruct ip as [|b5 [|b6 ip]];
        (eexists _, _; split; [reflexivity |];
         apply (nibble_plain b3); by left). }
    rewrite Hj, parseIPv6_loop_step by done.
    rewrite <- Hj, IH by (simpl; lia).
    by rewrite <- app_assoc.
Qed.

Lemma first_sep_hextets (b1 b2 b3 b4 : byte) (ip : list byte) :
  first_sep (Join (hextets (b1 :: b2 :: b3 :: b4 :: ip)) ":")
  = Some ":"%char.
Proof.
  rewrite Join_hextets_cons. unfold hextet.
  rewrite !sapp_cons, sapp_nil_l. cbn [first_sep].
  destruct (nibble_plain b1 (hi_nibble b1)) as (_ & ? & ? & ?); [by left |].
  destruct (nibble_plain b1 (lo_nibble b1)) as (_ & ? & ? & ?); [by right |].
  destruct (nibble_plain b2 (hi_nibble b2)) as (_ & ? & ? & ?); [by left |].
  destruct (nibble_plain b2 (lo_nibble b2)) as (_ & ? & ? & ?); [by right |].
  rewrite !(bool_decide_eq_false_2 (hi_nibble _ = _)) by done.
  rewrite !(bool_decide_eq_false_2 (lo_nibble _ = _)) by done.
  done.
Qed.

Lemma IndexByte_hextets (ip : list byte) :
  IndexByte (Join (hextets ip) ":") "%"%char = false.
Proof.
  induction ip as [ip IH] using (induction_ltof1 _ (@length byte)).
  unfold ltof in IH.
  destruct ip as [|b1 [|b2 ip]]; try done.
  assert (Hh : IndexByte (hextet b1 b2) "%"%char = false).
  { unfold hextet. simpl.
    destruct (nibble_plain b1 (hi_nibble b1)) as (_ & ? & ? & ?); [by left |].
    destruct (nibble_plain b1 (lo_nibble b1)) as (_ & ? & ? & ?); [by right |].
    destruct (nibble_plain b2 (hi_nibble b2)) as (_ & ? & ? & ?); [by left |].
    destruct (nibble_plain b2 (lo_nibble b2)) as (_ & ? & ? & ?); [by right |].
    rewrite !(bool_decide_eq_false_2 (hi_nibble _ = _)) by done.
    rewrite !(bool_decide_eq_false_2 (lo_nibble _ = _)) by done.
    done. }
  destruct ip as [|b3 [|b4 ip]].
  - exact Hh.
  - exact Hh.
  - rewrite Join_hextets_cons.
    rewrite IndexByte_app, Hh, orb_false_l.
    cbn [IndexByte]. rewrite bool_decide_eq_false_2 by done.
    apply IH. simpl. lia.
Qed.

(** An address written as eight groups in full parses to that address. *)
Lemma ParseIP_hextets (ip : list byte) :
  length ip = 16 -> ParseIP (Join (hextets ip) ":") = Some ip.
Proof.
  intros Hlen.
  destruct ip as [|b1 [|b2 [|b3 [|b4 ip]]]]; try done.
  unfold ParseIP. rewrite first_sep_hextets.
  unfold parseIPv6. rewrite IndexByte_hextets.
  assert (Hlead : bool_decide
                    (at_ (Join (hextets (b1 :: b2 :: b3 :: b4 :: ip)) ":") 0
                     = Some ":"%char) = false).
  { apply bool_decide_eq_false_2. rewrite Join_hextets_cons. simpl.
    intros [= H].
    by destruct (nibble_plain b1 (hi_nibble b1)) as (_ & ? & ? & ?);
      [by left |]. }
  rewrite Hlead, andb_false_r. simpl andb. cbv iota.
  rewrite (parseIPv6_loop_hextets 7) by done.
  rewrite app_nil_l, bool_decide_eq_true_2 by done. cbn [negb].
  by rewrite Hlen.
Qed.

End ReverseV6.

Section ReverseRoundTrip.
Import Strings Dns Net.

Lemma ToLower_Join (ws : list string) (sep : string) :
  Forall (fun w => ToLower w = w) ws -> ToLower sep = sep ->
  ToLower (Join ws sep) = Join ws sep.
Proof.
  intros Hall Hsep. induction Hall as [|w ws Hw Hall IH]; [done |].
  destruct ws as [|w' ws]; [done |].
  change (Join (w :: w' :: ws) sep) with (w +:+ sep +:+ Join (w' :: ws) sep).
  by rewrite !ToLower_app, Hw, Hsep, IH.
Qed.

Lemma nibble_labels_plain (ip : list byte) :
  Forall (fun w => ToLower w = w) (nibble_labels ip)
  /\ Forall (fun w => IndexByte w "."%char = false) (nibble_labels ip).
Proof.
  unfold nibble_labels. induction (rev ip) as [|b l [IH1 IH2]]; [done |].
  simpl.
  destruct (nibble_plain b (hi_nibble b)) as (Hh & Hh' & _); [by left |].
  destruct (nibble_plain b (lo_nibble b)) as (Hl & Hl' & _); [by right |].
  split.
  - apply Forall_cons; split; [simpl; by rewrite Hl |].
    apply Forall_cons; split; [simpl; by rewrite Hh | done].
  - apply Forall_cons; split;
      [simpl; by rewrite (bool_decide_eq_false_2 (lo_nibble b = "."%char)) |].
    apply Forall_cons; split; [| done].
    simpl; by rewrite (bool_decide_eq_false_2 (hi_nibble b = "."%char)).
Qed.

(** The labels that [IPToReverseDNS] prints for a 16-byte address. *)
Lemma nibbles_of_ip6 (ip6 : list byte) :
  length ip6 = 16 ->
  flat_map
    (fun i => [sprintf_x (N.land (Byte.to_N (ix ip6 i)) 15);
               sprintf_x (N.shiftr (Byte.to_N (ix ip6 i)) 4)])
    (rev (seq 0 16))
  = nibble_labels ip6.
Proof.
  intros Hlen.
  do 16 (destruct ip6 as [|? ip6]; [done |]).
  destruct ip6; [| done].
  unfold nibble_labels. cbn. by rewrite !sprintf_x_lo, !sprintf_x_hi.
Qed.

(** The joined groups that [reverseDNSToIP] parses, for the labels of a
    16-byte address. *)
Lemma regroup_nibble_labels (ip6 : list byte) :
  length ip6 = 16 ->
  let parts := nibble_labels ip6 in
  let reversed := (fun i => ix parts (31 - i)) <$> seq 0 32 in
  (fun k => ix reversed (4 * k) +:+ ix reversed (4 * k + 1) +:+
            ix reversed (4 * k + 2) +:+ ix reversed (4 * k + 3))
    <$> seq 0 8
  = hextets ip6.
Proof.
  intros Hlen.
  do 16 (destruct ip6 as [|? ip6]; [done |]).
  destruct ip6; [| done]. reflexivity.
Qed.

Lemma not_in_addr_suffix (x : string) :
  HasSuffix (x +:+ ".ip6.arpa.") ".in-addr.arpa." = false.
Proof.
  destruct (HasSuffix _ _) eqn:E; [| done].
  apply HasSuffix_inv in E as [a Ha].
  change (a +:+ ".in-addr.arpa.") with (a +:+ (".in-" +:+ "addr.arpa."))
    in Ha.
  rewrite <- sapp_assoc in Ha.
  by apply sapp_inj_tail in Ha as [_ ?].
Qed.

(** The reverse-DNS name of a 16-byte address parses back to the address. *)
Lemma reverseDNSToIP_v6 (ip6 : list byte) :
  length ip6 = 16 ->
  reverseDNSToIP (Fqdn (Join (nibble_labels ip6) "." +:+ ".ip6.arpa"))
  = Some ip6.
Proof.
  intros Hlen.
  set (j := Join (nibble_labels ip6) ".").
  destruct (nibble_labels_plain ip6) as [Hlow Hdot].
  assert (Hfq : Fqdn (j +:+ ".ip6.arpa") = j +:+ ".ip6.arpa.").
  { unfold Fqdn.
    change (j +:+ ".ip6.arpa")
      with (j +:+ (".ip6.arp" +:+ String "a"%char EmptyString)).
    rewrite <- sapp_assoc, IsFqdn_not_dot by done.
    by rewrite !sapp_assoc. }
  assert (Hfq2 : Fqdn (j +:+ ".ip6.arpa.") = j +:+ ".ip6.arpa.").
  { unfold Fqdn.
    change (j +:+ ".ip6.arpa.")
      with (j +:+ (".ip6.arp"
                   +:+ String "a"%char (String "."%char EmptyString))).
    rewrite <- sapp_assoc, IsFqdn_dot by done. done. }
  assert (Hlower : ToLower (j +:+ ".ip6.arpa.") = j +:+ ".ip6.arpa.").
  { rewrite ToLower_app. unfold j. by rewrite ToLower_Join. }
  rewrite Hfq. unfold reverseDNSToIP.
  rewrite Hfq2, Hlower, not_in_addr_suffix, HasSuffix_app, TrimSuffix_app.
  assert (Hne : nibble_labels ip6 <> []).
  { do 16 (destruct ip6 as [|? ip6]; [done |]). by destruct ip6. }
  unfold j. rewrite (Split_Join _ "."%char) by done.
  assert (Hn : length (nibble_labels ip6) = 32).
  { do 16 (destruct ip6 as [|? ip6]; [done |]). by destruct ip6. }
  rewrite Hn. cbn [Nat.eqb negb].
  rewrite (regroup_nibble_labels ip6 Hlen).
  by apply ParseIP_hextets.
Qed.

Lemma To4_length (ip p4 : IP) : To4 ip = Some p4 -> length p4 = 4.
Proof.
  unfold To4. destruct (length ip =? 4) eqn:E.
  - intros [= <-]. by apply Nat.eqb_eq.
  - destruct (_ && _) eqn:E2; [| done]. intros [= <-].
    apply andb_true_iff in E2 as [E2 _]. apply Nat.eqb_eq in E2.
    rewrite length_drop. lia.
Qed.

(** The 16-byte form of the address that [To4] gives the 4-byte form of. *)
Lemma To4_To16 (ip p4 : IP) :
  To4 ip = Some p4 -> To16 ip = Some (v4InV6Prefix ++ p4).
Proof.
  unfold To4, To16. destruct (length ip =? 4) eqn:E; [by intros [= <-] |].
  destruct (length ip =? 16) eqn:E16; [| done]. rewrite andb_true_l.
  destruct (bool_decide _) eqn:Ep; [| done]. intros [= <-].
  apply bool_decide_eq_true in Ep. by rewrite <- Ep, take_drop.
Qed.

(** The round trip: the reverse-DNS name of a valid address parses back to
    the 16-byte form of the address. *)
Lemma reverse_round_trip (ip : IP) :
  validIP ip -> reverseDNSToIP (IPToReverseDNS ip) = To16 ip.
Proof.
  intros Hip. unfold IPToReverseDNS.
  destruct (To4 ip) as [p4|] eqn:E4.
  - rewrite (To4_To16 _ _ E4).
    apply To4_length in E4.
    destruct p4 as [|a [|b [|c [|d [|? ?]]]]]; try done.
    apply reverseDNSToIP_v4.
  - assert (Hlen : length ip = 16).
    { destruct Hip as [H | H]; [| done].
      unfold To4 in E4. by rewrite H in E4. }
    assert (H16 : To16 ip = Some ip) by (unfold To16; by rewrite Hlen).
    rewrite H16. cbv beta iota zeta.
    rewrite (nibbles_of_ip6 ip Hlen).
    by apply reverseDNSToIP_v6.
Qed.

Lemma Equal_To16 (ip ip16 : IP) :
  validIP ip -> To16 ip = Some ip16 -> Equal ip16 ip = true.
Proof.
  intros [H | H] E.
  - destruct ip as [|a [|b [|c [|d [|? ?]]]]]; try done.
    injection E as <-. unfold Equal.
    cbn [length Nat.eqb andb firstn skipn].
    by rewrite !bool_decide_eq_true_2.
  - unfold To16 in E. rewrite H in E. injection E as <-.
    unfold Equal. by rewrite Nat.eqb_refl, bool_decide_eq_true_2.
Qed.

(** An address and its 16-byte form have the same text, the key of the PTR
    table. *)
Lemma String_To16 (ip ip16 : IP) :
  validIP ip -> To16 ip = Some ip16 -> String_ ip16 = String_ ip.
Proof.
  intros [H | H] E.
  - destruct ip as [|a [|b [|c [|d [|? ?]]]]]; try done.
    injection E as <-. unfold String_, To4.
    cbn [length Nat.eqb andb negb firstn skipn].
    by rewrite bool_decide_eq_true_2.
  - unfold To16 in E. rewrite H in E. by injection E as <-.
Qed.

End ReverseRoundTrip.

(** ** The reverse-DNS round trip and the names that are refused (C6) *)

Section ReverseTheorem.
Import Strings Dns Net.

(** C6, as amended.  For every valid address, [reverseDNSToIP] of
    [IPToReverseDNS] of the address is the 16-byte form of the address, which
    is equal to it under [Equal].  [reverseDNSToIP] returns nil for a name
    whose normalized form has neither suffix, for an in-addr.arpa name whose
    prefix does not split into exactly 4 labels, and for an ip6.arpa name
    whose prefix does not split into exactly 32 labels; the labels are not
    required to be single hexadecimal digits. *)
Theorem C6_reverse_round_trip_and_refusals :
  (forall ip : IP, validIP ip ->
     exists ip', reverseDNSToIP (IPToReverseDNS ip) = Some ip'
                 /\ To16 ip = Some ip'
                 /\ Equal ip' ip = true)
  /\ (forall d : string,
        let name := ToLower (Fqdn d) in
        (HasSuffix name ".in-addr.arpa." = false ->
         HasSuffix name ".ip6.arpa." = false ->
         reverseDNSToIP d = None)
        /\ (forall p, name = p +:+ ".in-addr.arpa." ->
              length (Split p "."%char) <> 4 -> reverseDNSToIP d = None)
        /\ (forall p, name = p +:+ ".ip6.arpa." ->
              length (Split p "."%char) <> 32 -> reverseDNSToIP d = None))
  /\ reverseDNSToIP "1.1.168.in-addr.arpa." = None.
Proof.
  split; [| split; [| by vm_compute]].
  - intros ip Hip.
    assert (H16 : is_Some (To16 ip)).
    { destruct (To16 ip) eqn:E; [by eexists |]. by apply validIP_To16 in E. }
    destruct H16 as [ip' H16]. exists ip'.
    split; [by rewrite reverse_round_trip | split; [done |]].
    by apply (Equal_To16 ip).
  - intros d name. unfold reverseDNSToIP. fold name.
    split; [| split].
    + by intros -> ->.
    + intros p -> Hn. rewrite HasSuffix_app, TrimSuffix_app.
      by rewrite (proj2 (Nat.eqb_neq _ _) Hn).
    + intros p -> Hn.
      rewrite not_in_addr_suffix, HasSuffix_app, TrimSuffix_app.
      by rewrite (proj2 (Nat.eqb_neq _ _) Hn).
Qed.

Lemma C6_reverse_round_trip_and_refusals_witness :
  exists ip',
    reverseDNSToIP (IPToReverseDNS [xc0; xa8; x01; x01]) = Some ip'
    /\ Equal ip' [xc0; xa8; x01; x01] = true.
Proof.
  destruct (proj1 C6_reverse_round_trip_and_refusals [xc0; xa8; x01; x01])
    as (ip' & H1 & _ & H2).
  - left. reflexivity.
  - exists ip'. split; [exact H1 | exact H2].
Defined.

(** The claim as stated fails for the labels of an ip6.arpa name: this name
    has 32 labels, two of which are not a single hexadecimal digit, and it is
    parsed to the address [::1]. *)
Lemma C6_counterexample :
  let name :=
    "01..0.0.0.0.0.0.0.0.0.0.0.0.0.0.0.0.0.0.0.0.0.0.0.0.0.0.0.0.0.0.ip6.arpa."
  in
  let labels := Split (TrimSuffix name ".ip6.arpa.") "."%char in
  HasSuffix name ".ip6.arpa." = true
  /\ length labels = 32
  /\ forallb is_nibble_label labels = false
  /\ reverseDNSToIP name
     = Some [x00; x00; x00; x00; x00; x00; x00; x00;
             x00; x00; x00; x00; x00; x00; x00; x01].
Proof. by vm_compute. Qed.

End ReverseTheorem.

(** ** Names in canonical form *)

Section CanonicalNames.
Import Strings Dns Net.

Lemma at_ToLower (s : string) (i : nat) :
  at_ (ToLower s) i = lower_byte <$> at_ s i.
Proof.
  revert i; induction s as [|c s IH]; intros i; [done |].
  destruct i as [|i]; [done |]. apply IH.
Qed.

Lemma lower_byte_is_dot (c : ascii) :
  bool_decide (lower_byte c = "."%char) = bool_decide (c = "."%char).
Proof. by destruct c as [[] [] [] [] [] [] [] []]. Qed.

Lemma lower_byte_is_backslash (c : ascii) :
  bool_decide (lower_byte c = "\"%char) = bool_decide (c = "\"%char).
Proof. by destruct c as [[] [] [] [] [] [] [] []]. Qed.

Lemma at_ToLower_is (s : string) (i : nat) (c : ascii) :
  (forall x, bool_decide (lower_byte x = c) = bool_decide (x = c)) ->
  bool_decide (at_ (ToLower s) i = Some c) = bool_decide (at_ s i = Some c).
Proof.
  intros Hc. rewrite at_ToLower. destruct (at_ s i) as [x|]; simpl; [| done].
  specialize (Hc x). destruct (decide (x = c)) as [->|Hne].
  - rewrite (bool_decide_eq_true_2 (c = c)) in Hc by done.
    apply bool_decide_eq_true_1 in Hc. rewrite Hc.
    by rewrite !bool_decide_eq_true_2.
  - rewrite (bool_decide_eq_false_2 (x = c)) in Hc by done.
    apply bool_decide_eq_false_1 in Hc.
    by rewrite !bool_decide_eq_false_2 by congruence.
Qed.

Lemma substring_ToLower (s : string) (n m : nat) :
  String.substring n m (ToLower s) = ToLower (String.substring n m s).
Proof.
  revert n m; induction s as [|c s IH]; intros n m.
  - by destruct n, m.
  - destruct n as [|n]; simpl.
    + destruct m as [|m]; [done |]. simpl. by rewrite IH.
    + apply IH.
Qed.

Lemma ToLower_is_empty (s : string) :
  bool_decide (ToLower s = EmptyString) = bool_decide (s = EmptyString).
Proof. by destruct s. Qed.

Lemma trailing_backslashes_ToLower (s : string) :
  trailing_backslashes (ToLower s) = trailing_backslashes s.
Proof.
  induction s as [|c s IH]; [done |]. simpl.
  by rewrite IH, ToLower_length, lower_byte_is_backslash.
Qed.

(** Lower-casing does not change whether a name is fully qualified. *)
Lemma IsFqdn_ToLower (s : string) : IsFqdn (ToLower s) = IsFqdn s.
Proof.
  unfold IsFqdn, slice.
  rewrite ToLower_is_empty, ToLower_length, substring_ToLower.
  rewrite (at_ToLower_is s _ "."%char) by apply lower_byte_is_dot.
  rewrite ToLower_is_empty, ToLower_length, trailing_backslashes_ToLower.
  by rewrite (at_ToLower_is _ _ "\"%char) by apply lower_byte_is_backslash.
Qed.

(** A string whose last byte is [c]. *)
Lemma last_byte_split (s : string) (c : ascii) :
  at_ s (String.length s - 1) = Some c ->
  exists z, s = z +:+ String c EmptyString.
Proof.
  induction s as [|x s IH]; [done |]. simpl.
  destruct s as [|y s].
  - simpl. intros [= ->]. by exists EmptyString.
  - simpl in *. rewrite Nat.sub_0_r in *. intros H.
    destruct (IH H) as [z Hz]. exists (String x z).
    by rewrite sapp_cons, <- Hz.
Qed.

Lemma IsFqdn_ends_in_dot (s : string) :
  IsFqdn s = true -> exists t, s = t +:+ ".".
Proof.
  unfold IsFqdn. destruct (_ || _) eqn:E; [done |]. intros _.
  apply orb_false_iff in E as [_ E]. apply negb_false_iff in E.
  apply bool_decide_eq_true in E. by apply last_byte_split.
Qed.

(** [Fqdn] of a name that ends in a dot is fully qualified. *)
Lemma IsFqdn_Fqdn_dot (z : string) : IsFqdn (Fqdn (z +:+ ".")) = true.
Proof.
  unfold Fqdn. destruct (IsFqdn (z +:+ ".")) eqn:E; [done |].
  rewrite sapp_assoc. by apply IsFqdn_dot.
Qed.

Lemma canonical_of_IsFqdn (s : string) :
  IsFqdn s = true -> canonical (ToLower s).
Proof.
  intros H. unfold canonical, Fqdn.
  by rewrite IsFqdn_ToLower, H, ToLower_idem.
Qed.

(** The names the mutators store are canonical. *)
Lemma normalize_canonical (d : string) : canonical (normalize d).
Proof.
  unfold normalize. apply canonical_of_IsFqdn.
  destruct (_ || _) eqn:E; [apply IsFqdn_Fqdn_dot |].
  apply orb_false_iff in E as [_ E]. apply negb_false_iff in E.
  apply bool_decide_eq_true, last_byte_split in E as [z ->].
  apply IsFqdn_Fqdn_dot.
Qed.

Lemma canonical_ends_in_dot (n : string) :
  canonical n -> exists t, n = t +:+ ".".
Proof.
  unfold canonical, Fqdn. intros H.
  destruct (IsFqdn n) eqn:E.
  - by apply IsFqdn_ends_in_dot.
  - rewrite ToLower_app in H. by exists (ToLower n).
Qed.

(** The path of a canonical name: the labels of the name without its last
    dot, last label first. *)
Lemma domainToPath_canonical (n t : string) :
  canonical n -> n = t +:+ "." ->
  domainToPath n
  = if bool_decide (t = EmptyString) then [] else rev (Split t "."%char).
Proof.
  intros Hc ->. unfold domainToPath. rewrite Hc. by rewrite TrimSuffix_app.
Qed.

(** Two canonical names with the same path are the same name. *)
Lemma domainToPath_inj (n1 n2 : string) :
  canonical n1 -> canonical n2 ->
  domainToPath n1 = domainToPath n2 -> n1 = n2.
Proof.
  intros H1 H2.
  destruct (canonical_ends_in_dot n1 H1) as [t1 E1].
  destruct (canonical_ends_in_dot n2 H2) as [t2 E2].
  rewrite (domainToPath_canonical n1 t1 H1 E1).
  rewrite (domainToPath_canonical n2 t2 H2 E2).
  subst n1 n2.
  pose proof (Split_nonempty t1 "."%char) as N1.
  pose proof (Split_nonempty t2 "."%char) as N2.
  destruct (bool_decide (t1 = EmptyString)) eqn:B1;
    destruct (bool_decide (t2 = EmptyString)) eqn:B2.
  - apply bool_decide_eq_true in B1, B2. by subst.
  - intros H. symmetry in H. apply (f_equal (@rev string)) in H.
    rewrite rev_involutive in H. done.
  - intros H. apply (f_equal (@rev string)) in H.
    rewrite rev_involutive in H. done.
  - intros H. apply (f_equal (@rev string)) in H.
    rewrite !rev_involutive in H.
    apply (f_equal (fun ws => Join ws ".")) in H.
    by rewrite !Join_Split in H; subst.
Qed.

End CanonicalNames.

(** ** The PTR entry of an address under adds and removals *)

Section LastWriterPTR.
Import Strings Dns Net.

(** A PTR query for the reverse-DNS name of a valid address reads the entry
    under the text of the address. *)
Lemma GetPTRRecord_reverse (s : DNSRecordStore) (ip : IP) :
  validIP ip ->
  GetPTRRecord s (IPToReverseDNS ip)
  = match ptrRecords s !! String_ ip with
    | Some ptrDomain => (ptrDomain, true)
    | None => (EmptyString, false)
    end.
Proof.
  intros Hip. unfold GetPTRRecord. rewrite reverse_round_trip by done.
  destruct (To16 ip) as [ip16|] eqn:E; [| by apply validIP_To16 in E].
  by rewrite (String_To16 ip ip16).
Qed.

(** [AddRecord] of an exact name with a valid address. *)
Lemma AddRecord_exact (s : DNSRecordStore) (d : string) (ip : IP) :
  validIP ip -> ContainsAny d "*?" = false ->
  (AddRecord s d ip).1
  = mkStore
      (update_at (root s) (domainToPath (normalize d))
         (fun node =>
            mkNode (children node)
              (Some (append_ip (bool_decide (To4 ip <> None)) ip
                       (default (mkRecordSet [] []) (data node))))))
      (wildcards s) (<[String_ ip := normalize d]> (ptrRecords s)).
Proof.
  intros Hip Hd. unfold AddRecord.
  by rewrite (AddRecord_valid_guard ip Hip), ContainsAny_normalize, Hd.
Qed.

(** [RemoveRecord] of one address of an exact name: the PTR entry of the
    address goes when the name has a record set and owns the entry; the
    record sets of the other names stay. *)
Lemma RemoveRecord_exact (s : DNSRecordStore) (d : string) (ip : IP) :
  ContainsAny d "*?" = false ->
  let s' := RemoveRecord s d (Some ip) in
  ptrRecords s'
  = match data_at (root s) (domainToPath (normalize d)) with
    | Some _ => delete_ptr_owned (normalize d) (ptrRecords s) ip
    | None => ptrRecords s
    end
  /\ forall q, q <> domainToPath (normalize d) ->
       data_at (root s') q = data_at (root s) q.
Proof.
  intros Hd. unfold RemoveRecord, data_at.
  rewrite ContainsAny_normalize, Hd.
  destruct (walk _ _) as [node|] eqn:Ew; [| done].
  destruct (data node) as [rs|] eqn:Ed; [| done].
  simpl. split; [done |]. intros q Hq.
  by apply data_at_update_at_other.
Qed.

(** X30.  The last writer owns the PTR entry.  For ASCII names [d1] and
    [d2] without wildcards whose normalized forms differ and a valid address,
    on every store: after [AddRecord] of [d1] and then of [d2] with that
    address, the PTR query for the address returns the normalized [d2]; it
    still does after [RemoveRecord] of the address from [d1]; and after
    [RemoveRecord] of the address from [d2] it finds nothing. *)
Theorem X30_last_writer_PTR
    (s : DNSRecordStore) (d1 d2 : string) (ip : IP) :
  ascii_name d1 ->
  ascii_name d2 ->
  validIP ip ->
  ContainsAny d1 "*?" = false ->
  ContainsAny d2 "*?" = false ->
  normalize d1 <> normalize d2 ->
  let r := IPToReverseDNS ip in
  let s2 := (AddRecord (AddRecord s d1 ip).1 d2 ip).1 in
  let s3 := RemoveRecord s2 d1 (Some ip) in
  let s4 := RemoveRecord s3 d2 (Some ip) in
  GetPTRRecord s2 r = (normalize d2, true)
  /\ GetPTRRecord s3 r = (normalize d2, true)
  /\ GetPTRRecord s4 r = (EmptyString, false).
Proof.
  intros _ _ Hip H1 H2 Hne r s2 s3 s4. unfold r.
  rewrite !GetPTRRecord_reverse by done.
  assert (Hpath : domainToPath (normalize d2) <> domainToPath (normalize d1)).
  { intros H. apply Hne. symmetry.
    apply domainToPath_inj; [apply normalize_canonical.. | done]. }
  assert (Hs2 : ptrRecords s2 !! String_ ip = Some (normalize d2)
                /\ is_Some (data_at (root s2) (domainToPath (normalize d2)))).
  { unfold s2. rewrite (AddRecord_exact _ d2) by done. simpl.
    rewrite lookup_insert_eq, data_at_update_at_same. simpl.
    split; [done | by eexists]. }
  destruct Hs2 as [Hp2 Hd2].
  destruct (RemoveRecord_exact s2 d1 ip H1) as [Hp3 Hd3]. fold s3 in Hp3, Hd3.
  assert (Hp3' : ptrRecords s3 !! String_ ip = Some (normalize d2)).
  { rewrite Hp3.
    destruct (data_at (root s2) (domainToPath (normalize d1))); [| done].
    unfold delete_ptr_owned. rewrite Hp2.
    by rewrite bool_decide_eq_false_2 by congruence. }
  destruct (RemoveRecord_exact s3 d2 ip H2) as [Hp4 _]. fold s4 in Hp4.
  rewrite Hp2, Hp3', Hp4. split; [done |]. split; [done |].
  rewrite (Hd3 _ Hpath). destruct Hd2 as [rs ->].
  unfold delete_ptr_owned. rewrite Hp3'.
  rewrite bool_decide_eq_true_2 by done. by rewrite lookup_delete_eq.
Qed.

Lemma X30_last_writer_PTR_witness :
  let ip := [xc0; xa8; x01; x64] in
  let r := "100.1.168.192.in-addr.arpa." in
  let s2 := (AddRecord (AddRecord NewDNSRecordStore "host.example.com" ip).1
               "host2.example.com" ip).1 in
  let s3 := RemoveRecord s2 "host.example.com" (Some ip) in
  let s4 := RemoveRecord s3 "host2.example.com" (Some ip) in
  GetPTRRecord s2 r = ("host2.example.com.", true)
  /\ GetPTRRecord s3 r = ("host2.example.com.", true)
  /\ GetPTRRecord s4 r = (EmptyString, false).
Proof.
  apply (X30_last_writer_PTR NewDNSRecordStore "host.example.com"
           "host2.example.com" [xc0; xa8; x01; x64]).
  - reflexivity.
  - reflexivity.
  - left. reflexivity.
  - reflexivity.
  - reflexivity.
  - vm_compute. discriminate.
Defined.

End LastWriterPTR.

(** ** The text of an address *)

Section AddressText.
Import Strings Dns Net.

Lemma nibble_cases (n : N) :
  (n < 16)%N ->
  n ∈ [0; 1; 2; 3; 4; 5; 6; 7; 8; 9; 10; 11; 12; 13; 14; 15]%N.
Proof.
  intros H. rewrite <- (N2Nat.id n).
  assert (Hk : N.to_nat n < 16) by lia.
  remember (N.to_nat n) as k eqn:Ek. clear Ek H.
  do 16 (destruct k as [|k]; [by repeat constructor |]).
  lia.
Qed.

(** A hexadecimal digit is none of ['.'], ['?'] and ['<']. *)
Lemma hexdigit_plain (n : N) :
  (n < 16)%N ->
  hexdigit n <> "."%char /\ hexdigit n <> "?"%char /\ hexdigit n <> "<"%char.
Proof.
  intros H%nibble_cases.
  repeat (apply elem_of_cons in H as [-> | H]; [done |]).
  by apply elem_of_nil in H.
Qed.

Lemma land_15_lt (x : N) : (N.land x 15 < 16)%N.
Proof.
  change 15%N with (N.ones 4). rewrite N.land_ones.
  apply N.mod_lt. done.
Qed.

Lemma appendHex_plain (x : N) :
  group_ok x ->
  IndexByte (appendHex x) "."%char = false
  /\ exists c r, appendHex x = String c r
                 /\ c <> "?"%char /\ c <> "<"%char.
Proof.
  intros Hx. unfold appendHex.
  destruct (hexdigit_plain _ Hx) as (A1 & A2 & A3).
  destruct (hexdigit_plain _ (land_15_lt (N.shiftr x 8))) as (B1 & B2 & B3).
  destruct (hexdigit_plain _ (land_15_lt (N.shiftr x 4))) as (C1 & C2 & C3).
  destruct (hexdigit_plain _ (land_15_lt x)) as (D1 & D2 & D3).
  destruct (4096 <=? x)%N, (256 <=? x)%N, (16 <=? x)%N;
    rewrite ?sapp_cons, ?sapp_nil_l; cbn [IndexByte];
    rewrite ?(bool_decide_eq_false_2 (hexdigit _ = "."%char)) by done;
    (split; [done |]); eexists _, _; (split; [reflexivity | done]).
Qed.

Lemma groups_ok (ip : IP) : Forall group_ok (groups ip).
Proof.
  induction ip as [ip IH] using (induction_ltof1 _ (@length byte)).
  unfold ltof in IH.
  destruct ip as [|hi [|lo ip]]; [constructor.. |].
  cbn [groups]. constructor; [| apply IH; simpl; lia].
  unfold group_ok.
  rewrite N.shiftr_lor, N.shiftr_shiftl_r by done.
  replace (N.shiftr (Byte.to_N lo) 12) with 0%N by (by destruct lo).
  rewrite N.lor_0_r. by destruct hi.
Qed.

Lemma group_ok_default (g : list N) (i : nat) :
  Forall group_ok g -> group_ok (default 0%N (g !! i)).
Proof.
  intros Hg. destruct (g !! i) as [x|] eqn:E; simpl; [| done].
  by eapply Forall_lookup_1.
Qed.

Lemma string6_from_no_dot (n : nat) (g : list N) (z : nat * nat) (i : nat) :
  Forall group_ok g ->
  IndexByte (string6_from n g z i) "."%char = false.
Proof.
  intros Hg. revert i; induction n as [|n IH]; intros i; [done |].
  cbn [string6_from]. destruct (8 <=? i); [done |].
  destruct (i =? z.1).
  - rewrite IndexByte_app. cbn [IndexByte orb].
    rewrite !(bool_decide_eq_false_2 (":"%char = "."%char)) by done.
    destruct (8 <=? z.2); [done |].
    rewrite IndexByte_app, IH.
    by rewrite (proj1 (appendHex_plain _ (group_ok_default g _ Hg))).
  - rewrite !IndexByte_app, IH.
    rewrite (proj1 (appendHex_plain _ (group_ok_default g _ Hg))).
    by destruct (0 <? i).
Qed.

Lemma string6_first (ip : IP) :
  exists c r, string6 ip = String c r /\ c <> "?"%char /\ c <> "<"%char.
Proof.
  unfold string6. cbn [string6_from]. cbn [Nat.leb Nat.ltb].
  destruct (0 =? _).
  - by eexists _, _.
  - rewrite sapp_nil_l.
    destruct (appendHex_plain _ (group_ok_default (groups ip) 0 (groups_ok ip)))
      as (_ & c & r & -> & ?).
    rewrite sapp_cons. by eexists _, _.
Qed.

Lemma hexString_no_dot (b : list byte) :
  IndexByte (hexString b) "."%char = false.
Proof.
  induction b as [|x b IH]; [done |]. cbn [hexString IndexByte].
  rewrite IH. by destruct x.
Qed.

Lemma itoa_first (b : byte) :
  exists c r, itoa b = String c r /\ c <> "?"%char /\ c <> "<"%char.
Proof. destruct b; by eexists _, _. Qed.

Lemma string4_text (a b c d : byte) :
  string4 [a; b; c; d]
  = itoa a +:+ String "."%char
      (itoa b +:+ String "."%char (itoa c +:+ String "."%char (itoa d))).
Proof.
  unfold string4. cbn [fmap list_fmap Join].
  by repeat first [rewrite sapp_assoc | rewrite sapp_cons
                  | rewrite sapp_nil_l].
Qed.

(** The text of an address holds a dot exactly when the address has a 4-byte
    form. *)
Lemma String_has_dot (ip : IP) :
  IndexByte (String_ ip) "."%char = bool_decide (To4 ip <> None).
Proof.
  unfold String_.
  destruct (length ip =? 0) eqn:E0.
  { apply Nat.eqb_eq in E0. by destruct ip. }
  destruct (negb (length ip =? 4) && negb (length ip =? 16)) eqn:Ev.
  { rewrite IndexByte_app, hexString_no_dot. unfold To4.
    apply andb_true_iff in Ev as [E4%negb_true_iff E16%negb_true_iff].
    by rewrite E4, E16. }
  destruct (To4 ip) as [p4|] eqn:E4.
  - pose proof (To4_length _ _ E4).
    destruct p4 as [|a [|b [|c [|d [|? ?]]]]]; try done.
    rewrite string4_text, IndexByte_app. cbn [IndexByte].
    rewrite bool_decide_eq_true_2 by done. by rewrite orb_true_r.
  - unfold string6. by rewrite string6_from_no_dot by apply groups_ok.
Qed.

(** The text of a valid address is not the text of an invalid one. *)
Lemma String_valid_invalid (x y : IP) :
  validIP x -> ~ validIP y -> String_ x <> String_ y.
Proof.
  intros Hx Hy.
  assert (Hfx : exists c r, String_ x = String c r
                            /\ c <> "?"%char /\ c <> "<"%char).
  { unfold String_. destruct Hx as [H | H].
    - destruct x as [|a [|b [|c [|d [|? ?]]]]]; try done.
      change (To4 [a; b; c; d]) with (Some [a; b; c; d]).
      cbn [length Nat.eqb negb andb].
      rewrite string4_text.
      destruct (itoa_first a) as (c0 & r & -> & ?).
      rewrite sapp_cons. by eexists _, _.
    - rewrite H. cbn [Nat.eqb negb andb].
      destruct (To4 x) as [p4|] eqn:E4; [| apply string6_first].
      pose proof (To4_length _ _ E4).
      destruct p4 as [|a [|b [|c [|d [|? ?]]]]]; try done.
      rewrite string4_text.
      destruct (itoa_first a) as (c0 & r & -> & ?).
      rewrite sapp_cons. by eexists _, _. }
  destruct Hfx as (c & r & -> & H1 & H2).
  unfold String_.
  destruct (length y =? 0); [by intros [= ->] |].
  destruct (negb (length y =? 4) && negb (length y =? 16)) eqn:Ev.
  - rewrite sapp_cons. by intros [= ->].
  - apply andb_false_iff in Ev.
    destruct Hy. unfold validIP.
    destruct Ev as [E%negb_false_iff | E%negb_false_iff];
      apply Nat.eqb_eq in E; auto.
Qed.

(** Addresses that are equal have the same text. *)
Lemma Equal_String (x y : IP) : Equal x y = true -> String_ x = String_ y.
Proof.
  unfold Equal.
  destruct (length x =? length y) eqn:E.
  { by intros ->%bool_decide_eq_true. }
  destruct ((length x =? 4) && (length y =? 16)) eqn:E1.
  { apply andb_true_iff in E1 as [Hx%Nat.eqb_eq Hy%Nat.eqb_eq].
    intros [Hp%bool_decide_eq_true ->%bool_decide_eq_true]%andb_true_iff.
    unfold String_, To4. rewrite Hy, length_drop, Hy. simpl.
    by rewrite bool_decide_eq_true_2. }
  destruct ((length x =? 16) && (length y =? 4)) eqn:E2; [| done].
  apply andb_true_iff in E2 as [Hx%Nat.eqb_eq Hy%Nat.eqb_eq].
  intros [Hp%bool_decide_eq_true <-%bool_decide_eq_true]%andb_true_iff.
  unfold String_, To4. rewrite Hx, length_drop, Hx. simpl.
  by rewrite bool_decide_eq_true_2.
Qed.

(** A valid address is equal to no invalid one. *)
Lemma Equal_valid_invalid (x y : IP) :
  validIP x -> ~ validIP y -> Equal x y = false.
Proof.
  intros Hx Hy. unfold Equal, validIP in *.
  destruct (length x =? length y) eqn:E.
  { apply Nat.eqb_eq in E. rewrite <- E in Hy. done. }
  destruct (length y =? 16) eqn:E16;
    [apply Nat.eqb_eq in E16; tauto |].
  destruct (length y =? 4) eqn:E4;
    [apply Nat.eqb_eq in E4; tauto |].
  by rewrite !andb_false_r.
Qed.

End AddressText.

(** ** What the mutators do to the records of the trie store *)

Section Effects.
Import Strings Dns Net.

Lemma data_default_walk (node : domainTrieNode) (path : list string) :
  data (default newNode (walk node path)) = data_at node path.
Proof. unfold data_at. by destruct (walk node path). Qed.

(** [AddRecord], summarized on the record sets, the wildcard entries and the
    PTR table. *)
Lemma AddRecord_effect (t : DNSRecordStore) (d : string) (ip : IP) :
  let t' := (AddRecord t d ip).1 in
  let nd := normalize d in
  let v4 := bool_decide (To4 ip <> None) in
  (~ validIP ip /\ t' = t)
  \/ (validIP ip /\ ContainsAny d "*?" = true
      /\ root t' = root t /\ ptrRecords t' = ptrRecords t
      /\ wildcards t'
         = <[nd := append_ip v4 ip
                     (default (mkRecordSet [] []) (wildcards t !! nd))]>
             (wildcards t))
  \/ (validIP ip /\ ContainsAny d "*?" = false
      /\ wildcards t' = wildcards t
      /\ ptrRecords t' = <[String_ ip := nd]> (ptrRecords t)
      /\ data_at (root t') (domainToPath nd)
         = Some (append_ip v4 ip
                   (default (mkRecordSet [] [])
                      (data_at (root t) (domainToPath nd))))
      /\ forall q, q <> domainToPath nd ->
           data_at (root t') q = data_at (root t) q).
Proof.
  intros t' nd v4.
  destruct (decide (validIP ip)) as [Hip|Hip].
  - right. destruct (ContainsAny d "*?") eqn:Hd; [left | right].
    + unfold t', AddRecord.
      rewrite (AddRecord_valid_guard ip Hip), ContainsAny_normalize, Hd.
      done.
    + unfold t'. rewrite AddRecord_exact by done. simpl.
      rewrite data_at_update_at_same. simpl. rewrite data_default_walk.
      repeat split; try done.
      intros q Hq. by apply data_at_update_at_other.
  - left. split; [done |]. unfold t', AddRecord.
    assert (H4 : To4 ip = None).
    { unfold To4, validIP in *.
      destruct (length ip =? 4) eqn:E4; [apply Nat.eqb_eq in E4; tauto |].
      destruct (length ip =? 16) eqn:E16; [apply Nat.eqb_eq in E16; tauto |].
      done. }
    assert (H16 : To16 ip = None).
    { unfold To16, validIP in *.
      destruct (length ip =? 4) eqn:E4; [apply Nat.eqb_eq in E4; tauto |].
      destruct (length ip =? 16) eqn:E16; [apply Nat.eqb_eq in E16; tauto |].
      done. }
    rewrite H4, H16. done.
Qed.

(** [RemoveRecord] of a wildcard pattern. *)
Lemma RemoveRecord_wildcard_effect (t : DNSRecordStore) (d : string)
    (ip : option IP) :
  ContainsAny d "*?" = true ->
  let t' := RemoveRecord t d ip in
  let nd := normalize d in
  root t' = root t /\ ptrRecords t' = ptrRecords t
  /\ wildcards t'
     = match ip with
       | None => delete nd (wildcards t)
       | Some ip =>
           match wildcards t !! nd with
           | None => wildcards t
           | Some rs =>
               if is_empty_set (without ip rs)
               then delete nd (wildcards t)
               else <[nd := without ip rs]> (wildcards t)
           end
       end.
Proof.
  intros Hd. unfold RemoveRecord. rewrite ContainsAny_normalize, Hd.
  destruct ip as [ip|]; [| done].
  destruct (wildcards t !! normalize d) as [rs|]; [| done].
  unfold is_empty_set, without.
  by destruct (bool_decide (To4 ip <> None)); simpl; destruct (_ && _).
Qed.

(** [RemoveRecord] of an exact name. *)
Lemma RemoveRecord_exact_effect (t : DNSRecordStore) (d : string)
    (ip : option IP) :
  ContainsAny d "*?" = false ->
  let t' := RemoveRecord t d ip in
  let nd := normalize d in
  wildcards t' = wildcards t
  /\ (forall q, q <> domainToPath nd ->
        data_at (root t') q = data_at (root t) q)
  /\ match data_at (root t) (domainToPath nd) with
     | None => t' = t
     | Some rs =>
         match ip with
         | None =>
             data_at (root t') (domainToPath nd) = None
             /\ ptrRecords t'
                = foldl (delete_ptr_owned nd)
                    (foldl (delete_ptr_owned nd) (ptrRecords t) (A rs))
                    (AAAA rs)
         | Some ip =>
             data_at (root t') (domainToPath nd)
             = (if is_empty_set (without ip rs) then None
                else Some (without ip rs))
             /\ ptrRecords t' = delete_ptr_owned nd (ptrRecords t) ip
         end
     end.
Proof.
  intros Hd. unfold RemoveRecord, data_at.
  rewrite ContainsAny_normalize, Hd.
  destruct (walk _ _) as [node|] eqn:Ew; [| done].
  destruct (data node) as [rs|] eqn:Ed; [| done].
  destruct ip as [ip|]; simpl.
  - split; [done |]. split.
    + intros q Hq. by apply data_at_update_at_other.
    + rewrite walk_update_at_same. simpl. unfold is_empty_set, without.
      by destruct (bool_decide (To4 ip <> None)).
  - split; [done |]. split.
    + intros q Hq. by apply data_at_update_at_other.
    + by rewrite walk_update_at_same.
Qed.

End Effects.

(** ** The invariants that link the trie store to the flat maps *)

Section LinkInvariants.
Import Strings Dns Net.

Lemma valid_not_v4_length (ip : IP) :
  validIP ip -> To4 ip = None -> length ip = 16.
Proof.
  intros [H | H] E; [| done]. unfold To4 in E. by rewrite H in E.
Qed.

Lemma typed_empty : typed_set (mkRecordSet [] []).
Proof. split; constructor. Qed.

Lemma typed_append_ip (ip : IP) (rs : recordSet) :
  validIP ip -> typed_set rs ->
  typed_set (append_ip (bool_decide (To4 ip <> None)) ip rs).
Proof.
  intros Hip [HA H6]. unfold append_ip, typed_set.
  destruct (To4 ip) as [p4|] eqn:E4; simpl.
  - split; [| done]. apply Forall_app. split; [done |].
    apply Forall_singleton. by rewrite E4.
  - split; [done |]. apply Forall_app. split; [done |].
    apply Forall_singleton. split; [by apply valid_not_v4_length | done].
Qed.

Lemma Forall_removeIP (P : IP -> Prop) (l : list IP) (ip : IP) :
  Forall P l -> Forall P (removeIP l ip).
Proof.
  unfold removeIP. rewrite !Forall_forall.
  intros H x [_ Hx]%list_elem_of_filter. by apply H.
Qed.

Lemma typed_without (ip : IP) (rs : recordSet) :
  typed_set rs -> typed_set (without ip rs).
Proof.
  intros [HA H6]. unfold without, typed_set.
  destruct (bool_decide _); simpl.
  - split; [by apply Forall_removeIP | done].
  - split; [done | by apply Forall_removeIP].
Qed.

Lemma typed_default (o : option recordSet) :
  (forall rs, o = Some rs -> typed_set rs) ->
  typed_set (default (mkRecordSet [] []) o).
Proof. destruct o; simpl; [auto | intros _; apply typed_empty]. Qed.

Lemma call_inv_typed (t : DNSRecordStore) (m : mutator) :
  inv_typed t -> inv_typed (call t m).
Proof.
  intros [Ht Hw]. destruct m as [d ip|ip d|d ip|ip|]; simpl; try done.
  - destruct (AddRecord_effect t d ip)
      as [[_ ->] | [(Hip & Hd & Hr & Hp & Hwild)
                   | (Hip & Hd & Hwild & Hp & Hsame & Hother)]]; [done | |].
    + split; [by rewrite Hr |]. rewrite Hwild. intros p rs.
      intros [[_ <-] | [_ H]]%lookup_insert_Some; [| by eapply Hw].
      apply typed_append_ip; [done |]. apply typed_default. apply Hw.
    + split; [| by rewrite Hwild]. intros q rs.
      destruct (decide (q = domainToPath (normalize d))) as [->|Hq].
      * rewrite Hsame. intros [= <-].
        apply typed_append_ip; [done |]. apply typed_default. apply Ht.
      * rewrite Hother by done. apply Ht.
  - destruct (ContainsAny d "*?") eqn:Hd.
    + destruct (RemoveRecord_wildcard_effect t d ip Hd) as (Hr & _ & Hwild).
      split; [by rewrite Hr |]. rewrite Hwild. intros p rs.
      destruct ip as [ip|].
      * destruct (wildcards t !! normalize d) as [rs0|] eqn:E; [| apply Hw].
        destruct (is_empty_set _).
        -- intros [_ H]%lookup_delete_Some. by eapply Hw.
        -- intros [[_ <-] | [_ H]]%lookup_insert_Some; [| by eapply Hw].
           apply typed_without. by eapply Hw.
      * intros [_ H]%lookup_delete_Some. by eapply Hw.
    + destruct (RemoveRecord_exact_effect t d ip Hd)
        as (Hwild & Hother & Hsame).
      split; [| by rewrite Hwild]. intros q rs.
      destruct (decide (q = domainToPath (normalize d))) as [->|Hq];
        [| rewrite Hother by done; apply Ht].
      destruct (data_at (root t) (domainToPath (normalize d)))
        as [rs0|] eqn:E.
      * destruct ip as [ip|]; destruct Hsame as [-> _]; [| done].
        destruct (is_empty_set _); [done |]. intros [= <-].
        apply typed_without. by eapply Ht.
      * rewrite Hsame. rewrite E. done.
  - split; [by intros [|??] ? | done].
Qed.

(** The loop that deletes the PTR entries a domain owns. *)
Lemma delete_ptr_owned_lookup (nd : string) (ptr : gmap string string)
    (ip : IP) (k : string) :
  delete_ptr_owned nd ptr ip !! k
  = if bool_decide (k = String_ ip /\ ptr !! k = Some nd) then None
    else ptr !! k.
Proof.
  unfold delete_ptr_owned.
  destruct (ptr !! String_ ip) as [o|] eqn:E.
  - destruct (bool_decide (o = nd)) eqn:Eo.
    + apply bool_decide_eq_true in Eo as ->.
      destruct (decide (k = String_ ip)) as [->|Hk].
      * rewrite lookup_delete_eq. by rewrite bool_decide_eq_true_2.
      * rewrite lookup_delete_ne by done.
        by rewrite bool_decide_eq_false_2 by tauto.
    + apply bool_decide_eq_false in Eo.
      rewrite bool_decide_eq_false_2; [done |].
      intros [-> H]. congruence.
  - rewrite bool_decide_eq_false_2; [done |].
    intros [-> H]. congruence.
Qed.

Lemma foldl_delete_ptr_owned_sub (nd : string) (ptr : gmap string string)
    (l : list IP) (k n : string) :
  foldl (delete_ptr_owned nd) ptr l !! k = Some n -> ptr !! k = Some n.
Proof.
  revert ptr; induction l as [|ip l IH]; intros ptr; simpl; [done |].
  intros H%IH. rewrite delete_ptr_owned_lookup in H.
  by destruct (bool_decide _).
Qed.

Lemma foldl_delete_ptr_owned_gone (nd : string) (ptr : gmap string string)
    (l : list IP) (ip : IP) :
  ip ∈ l -> foldl (delete_ptr_owned nd) ptr l !! String_ ip <> Some nd.
Proof.
  revert ptr; induction l as [|x l IH]; intros ptr Hin; simpl.
  - by apply elem_of_nil in Hin.
  - apply elem_of_cons in Hin as [<- | Hin]; [| by apply IH].
    intros H%foldl_delete_ptr_owned_sub.
    rewrite delete_ptr_owned_lookup in H.
    destruct (bool_decide _) eqn:E; [done |].
    apply bool_decide_eq_false in E. by destruct E.
Qed.

Lemma elem_of_without (x ip : IP) (rs : recordSet) :
  Equal x ip = false ->
  (x ∈ A rs \/ x ∈ AAAA rs) ->
  x ∈ A (without ip rs) \/ x ∈ AAAA (without ip rs).
Proof.
  intros He. unfold without, removeIP.
  destruct (bool_decide _); simpl; rewrite list_elem_of_filter; tauto.
Qed.

Lemma nonempty_without (x : IP) (rs : recordSet) :
  (x ∈ A rs \/ x ∈ AAAA rs) -> is_empty_set rs = false.
Proof.
  unfold is_empty_set.
  intros [H | H]; [destruct (A rs) | destruct (AAAA rs)];
    try (by apply elem_of_nil in H); simpl; [done |].
  apply andb_false_r.
Qed.

Lemma call_inv_ptr (t : DNSRecordStore) (m : mutator) :
  is_AddPTRRecord m = false -> inv_ptr t -> inv_ptr (call t m).
Proof.
  intros Hm Hinv. destruct m as [d ip|ip d|d ip|ip|]; simpl; try done.
  - destruct (AddRecord_effect t d ip)
      as [[_ ->] | [(Hip & Hd & Hr & Hp & Hwild)
                   | (Hip & Hd & Hwild & Hp & Hsame & Hother)]]; [done | |].
    + unfold inv_ptr. by rewrite Hr, Hp.
    + unfold inv_ptr. rewrite Hp. intros k n.
      intros [[<- <-] | [Hk H]]%lookup_insert_Some.
      * split; [apply normalize_canonical |].
        eexists ip, _. split; [done |]. split; [exact Hsame |].
        unfold append_ip. destruct (bool_decide _); simpl;
          [left | right]; apply elem_of_app; right; by left.
      * destruct (Hinv k n H) as (Hc & ip0 & rs0 & Hs & Hdat & Hin).
        split; [done |].
        destruct (decide (n = normalize d)) as [->|Hn].
        -- eexists ip0, _. split; [done |]. split; [exact Hsame |].
           rewrite Hdat. simpl. unfold append_ip.
           destruct (bool_decide _); simpl; rewrite elem_of_app; tauto.
        -- exists ip0, rs0. split; [done |]. split; [| done].
           rewrite Hother; [done |]. intros Hpath. apply Hn.
           by apply domainToPath_inj; [| apply normalize_canonical |].
  - destruct (ContainsAny d "*?") eqn:Hd.
    + destruct (RemoveRecord_wildcard_effect t d ip Hd) as (Hr & Hp & _).
      unfold inv_ptr. by rewrite Hr, Hp.
    + destruct (RemoveRecord_exact_effect t d ip Hd)
        as (Hwild & Hother & Hsame).
      destruct (data_at (root t) (domainToPath (normalize d)))
        as [rs|] eqn:E; [| by rewrite Hsame].
      assert (Hkeep : forall k n,
                 ptrRecords t !! k = Some n -> n <> normalize d ->
                 canonical n
                 /\ exists ip0 rs0,
                      String_ ip0 = k
                      /\ data_at (root (RemoveRecord t d ip))
                           (domainToPath n) = Some rs0
                      /\ (ip0 ∈ A rs0 \/ ip0 ∈ AAAA rs0)).
      { intros k n H Hn.
        destruct (Hinv k n H) as (Hc & ip0 & rs0 & Hs & Hdat & Hin).
        split; [done |]. exists ip0, rs0. split; [done |]. split; [| done].
        rewrite Hother; [done |]. intros Hpath. apply Hn.
        by apply domainToPath_inj; [| apply normalize_canonical |]. }
      destruct ip as [ip|]; destruct Hsame as [Hdat' Hp'].
      * intros k n. rewrite Hp', delete_ptr_owned_lookup.
        destruct (bool_decide (_ /\ _)) eqn:Eb; [done |]. intros H.
        apply bool_decide_eq_false in Eb.
        destruct (decide (n = normalize d)) as [->|Hn]; [| by apply Hkeep].
        destruct (Hinv k _ H) as (Hc & ip0 & rs0 & Hs & Hdat & Hin).
        split; [done |]. rewrite E in Hdat. injection Hdat as <-.
        assert (Heq : Equal ip0 ip = false).
        { destruct (Equal ip0 ip) eqn:Heq; [| done].
          apply Equal_String in Heq. destruct Eb. split; congruence. }
        pose proof (elem_of_without ip0 ip rs Heq Hin) as Hin'.
        exists ip0, (without ip rs). split; [done |]. split; [| done].
        by rewrite Hdat', (nonempty_without ip0).
      * intros k n. rewrite Hp'. intros H'.
        pose proof (foldl_delete_ptr_owned_sub _ _ _ _ _ H') as H1.
        pose proof (foldl_delete_ptr_owned_sub _ _ _ _ _ H1) as H.
        destruct (decide (n = normalize d)) as [->|Hn]; [| by apply Hkeep].
        destruct (Hinv k _ H) as (Hc & ip0 & rs0 & Hs & Hdat & Hin).
        rewrite E in Hdat. injection Hdat as <-. subst k.
        exfalso. destruct Hin as [Hin | Hin].
        -- by apply (foldl_delete_ptr_owned_gone _ _ _ _ Hin) in H1.
        -- by apply (foldl_delete_ptr_owned_gone _ _ _ _ Hin) in H'.
  - intros k n. unfold RemovePTRRecord. simpl.
    intros [_ H]%lookup_delete_Some. by apply Hinv.
Qed.

End LinkInvariants.


(** ** The simulation of the trie store by the flat maps *)

Section Simulation.
Import Strings Dns Net.

Lemma default_ne (l : list IP) : default [] (ne l) = l.
Proof. by destruct l. Qed.

Lemma ne_app (l : list IP) (ip : IP) : ne (l ++ [ip]) = Some (l ++ [ip]).
Proof. by destruct l. Qed.

Lemma ne_length (l : list IP) :
  ne l = if length l =? 0 then None else Some l.
Proof. by destruct l. Qed.

Lemma append_at_lookup (m : gmap string (list IP)) (k j : string) (ip : IP) :
  Flat.append_at m k ip !! j
  = if decide (k = j) then Some (default [] (m !! k) ++ [ip]) else m !! j.
Proof. unfold Flat.append_at. apply lookup_insert. Qed.

Lemma remove_at_lookup (m : gmap string (list IP)) (k j : string) (ip : IP) :
  Flat.remove_at m k ip !! j
  = if decide (k = j)
    then match m !! k with
         | Some l => ne (removeIP l ip)
         | None => None
         end
    else m !! j.
Proof.
  unfold Flat.remove_at. destruct (m !! k) as [l|] eqn:E.
  - rewrite ne_length. destruct (length (removeIP l ip) =? 0).
    + rewrite lookup_delete. by destruct (decide (k = j)).
    + rewrite lookup_insert. by destruct (decide (k = j)).
  - destruct (decide (k = j)) as [<-|]; done.
Qed.

Lemma family_at_other (t t' : DNSRecordStore) (n nd : string)
    (sel : recordSet -> list IP) :
  canonical n -> canonical nd -> n <> nd ->
  (forall q, q <> domainToPath nd -> data_at (root t') q = data_at (root t) q) ->
  family_at t' n sel = family_at t n sel.
Proof.
  intros Hn Hnd Hne Hother. unfold family_at. rewrite Hother; [done |].
  intros Hp. apply Hne. by apply domainToPath_inj.
Qed.

Lemma family_at_same_root (t t' : DNSRecordStore) (n : string)
    (sel : recordSet -> list IP) :
  root t' = root t -> family_at t' n sel = family_at t n sel.
Proof. unfold family_at. by intros ->. Qed.

(** The flat-map store after [AddRecord] of an invalid address. *)
Lemma Flat_AddRecord_invalid (f : Flat.DNSRecordStore) (d : string) (ip : IP) :
  ~ validIP ip -> (Flat.AddRecord f d ip).1 = f.
Proof.
  intros Hip. unfold Flat.AddRecord.
  assert (H4 : To4 ip = None).
  { unfold To4, validIP in *.
    destruct (length ip =? 4) eqn:E4; [apply Nat.eqb_eq in E4; tauto |].
    destruct (length ip =? 16) eqn:E16; [apply Nat.eqb_eq in E16; tauto |].
    done. }
  assert (H16 : To16 ip = None).
  { unfold To16, validIP in *.
    destruct (length ip =? 4) eqn:E4; [apply Nat.eqb_eq in E4; tauto |].
    destruct (length ip =? 16) eqn:E16; [apply Nat.eqb_eq in E16; tauto |].
    done. }
  by rewrite H4, H16.
Qed.

Lemma AddRecord_sim (t : DNSRecordStore) (f : Flat.DNSRecordStore)
    (d : string) (ip : IP) :
  sim t f -> sim (AddRecord t d ip).1 (Flat.AddRecord f d ip).1.
Proof.
  intros (R1 & R2 & R3 & R4 & R5).
  pose proof (normalize_canonical d) as Hnd.
  destruct (AddRecord_effect t d ip)
    as [[Hip ->] | [(Hip & Hd & Hr & Hp & Hwild)
                   | (Hip & Hd & Hwild & Hp & Hsame & Hother)]].
  - by rewrite Flat_AddRecord_invalid.
  - assert (H16 : To16 ip <> None) by (by apply validIP_To16).
    unfold sim, Flat.AddRecord.
    rewrite ContainsAny_normalize, Hd, Hp, Hwild.
    destruct (To4 ip) as [p4|] eqn:E4; simpl.
    +       split; [done |].
      split; [intros n Hn; rewrite (family_at_same_root t) by done;
              by apply R2 |].
      split; [intros n Hn; rewrite (family_at_same_root t) by done;
              by apply R3 |].
      split; intros p.
      * rewrite append_at_lookup, lookup_insert.
        destruct (decide (normalize d = p)) as [<-|]; [| apply R4].
        rewrite R4. simpl. rewrite ne_app.
        destruct (wildcards t !! normalize d) as [rs|]; simpl;
          by rewrite ?default_ne.
      * rewrite lookup_insert.
        destruct (decide (normalize d = p)) as [<-|]; [| apply R5].
        rewrite R5. by destruct (wildcards t !! normalize d).
    + rewrite (bool_decide_eq_true_2 (To16 ip <> None)) by done. simpl.
      split; [done |].
      split; [intros n Hn; rewrite (family_at_same_root t) by done;
              by apply R2 |].
      split; [intros n Hn; rewrite (family_at_same_root t) by done;
              by apply R3 |].
      split; intros p.
      * rewrite lookup_insert.
        destruct (decide (normalize d = p)) as [<-|]; [| apply R4].
        rewrite R4. by destruct (wildcards t !! normalize d).
      * rewrite append_at_lookup, lookup_insert.
        destruct (decide (normalize d = p)) as [<-|]; [| apply R5].
        rewrite R5. simpl. rewrite ne_app.
        destruct (wildcards t !! normalize d) as [rs|]; simpl;
          by rewrite ?default_ne.
  - assert (H16 : To16 ip <> None) by (by apply validIP_To16).
    unfold sim, Flat.AddRecord.
    rewrite ContainsAny_normalize, Hd, Hp, Hwild.
    assert (Hfam : forall n sel, canonical n -> n <> normalize d ->
               family_at (AddRecord t d ip).1 n sel = family_at t n sel).
    { intros n sel Hn Hne. by apply (family_at_other _ _ _ (normalize d)). }
    destruct (To4 ip) as [p4|] eqn:E4; simpl.
    +       split; [by rewrite R1 |]. split; [| split; [| done]]; intros n Hn.
      * rewrite append_at_lookup.
        destruct (decide (normalize d = n)) as [<-|];
          [| rewrite Hfam by done; by apply R2].
        unfold family_at at 1. rewrite Hsame, R2 by done. simpl.
        rewrite ne_app. unfold family_at.
        destruct (data_at (root t) (domainToPath (normalize d))) as [rs|];
          by rewrite ?default_ne.
      * destruct (decide (normalize d = n)) as [<-|];
          [| rewrite Hfam by done; by apply R3].
        unfold family_at at 1. rewrite Hsame, R3 by done. simpl.
        unfold family_at.
        by destruct (data_at (root t) (domainToPath (normalize d))).
    + rewrite (bool_decide_eq_true_2 (To16 ip <> None)) by done. simpl.
      split; [by rewrite R1 |]. split; [| split; [| done]]; intros n Hn.
      * destruct (decide (normalize d = n)) as [<-|];
          [| rewrite Hfam by done; by apply R2].
        unfold family_at at 1. rewrite Hsame, R2 by done. simpl.
        unfold family_at.
        by destruct (data_at (root t) (domainToPath (normalize d))).
      * rewrite append_at_lookup.
        destruct (decide (normalize d = n)) as [<-|];
          [| rewrite Hfam by done; by apply R3].
        unfold family_at at 1. rewrite Hsame, R3 by done. simpl.
        rewrite ne_app. unfold family_at.
        destruct (data_at (root t) (domainToPath (normalize d))) as [rs|];
          by rewrite ?default_ne.
Qed.

Lemma without_fields (ip : IP) (rs : recordSet) :
  (To4 ip <> None ->
   A (without ip rs) = removeIP (A rs) ip /\ AAAA (without ip rs) = AAAA rs)
  /\ (To4 ip = None ->
      A (without ip rs) = A rs
      /\ AAAA (without ip rs) = removeIP (AAAA rs) ip).
Proof.
  unfold without. split; intros H.
  - by rewrite bool_decide_eq_true_2.
  - rewrite bool_decide_eq_false_2; [done |]. by intros [].
Qed.

Lemma is_empty_set_ne (rs : recordSet) :
  is_empty_set rs = true <-> ne (A rs) = None /\ ne (AAAA rs) = None.
Proof.
  unfold is_empty_set.
  destruct (A rs), (AAAA rs); simpl; split; try done; by intros [? ?].
Qed.

Lemma nonempty_set_not_empty (rs : recordSet) :
  nonempty_set rs -> is_empty_set rs = false.
Proof.
  unfold nonempty_set, is_empty_set.
  destruct (A rs), (AAAA rs); simpl; try done. by intros [? | ?].
Qed.

Lemma removeIP_all (l : list IP) (ip : IP) :
  Forall (fun x => Equal x ip = false) l -> removeIP l ip = l.
Proof.
  unfold removeIP. induction 1 as [|x l Hx _ IH]; [done |].
  rewrite filter_cons_True by done. by rewrite IH.
Qed.

Lemma record_eta (rs : recordSet) : mkRecordSet (A rs) (AAAA rs) = rs.
Proof. by destruct rs. Qed.

Lemma invalid_To (ip : IP) :
  To4 ip = None -> To16 ip = None -> ~ validIP ip.
Proof. intros _ H Hv. by apply validIP_To16 in Hv. Qed.

Lemma To4_valid (ip : IP) : To4 ip <> None -> validIP ip.
Proof.
  unfold To4, validIP.
  destruct (length ip =? 4) eqn:E4; [apply Nat.eqb_eq in E4; auto |].
  destruct (length ip =? 16) eqn:E16; [apply Nat.eqb_eq in E16; auto |].
  done.
Qed.

Lemma typed_valid (rs : recordSet) (x : IP) :
  typed_set rs -> x ∈ A rs \/ x ∈ AAAA rs -> validIP x.
Proof.
  intros [HA H6] [H | H].
  - apply To4_valid. by eapply (proj1 (Forall_forall _ _) HA).
  - right. by eapply (proj1 (Forall_forall _ _) H6).
Qed.

(** An invalid address is equal to none of the addresses of a record set. *)
Lemma without_invalid (ip : IP) (rs : recordSet) :
  typed_set rs -> To4 ip = None -> To16 ip = None -> without ip rs = rs.
Proof.
  intros Ht H4 H16. unfold without.
  rewrite bool_decide_eq_false_2 by (by intros []).
  rewrite <- (record_eta rs) at 3. f_equal.
  apply removeIP_all, Forall_forall. intros x Hx.
  apply Equal_valid_invalid; [| by apply invalid_To].
  apply (typed_valid rs); auto.
Qed.

Lemma delete_ptr_owned_id (nd : string) (ptr : gmap string string) (ip : IP) :
  ptr !! String_ ip <> Some nd -> delete_ptr_owned nd ptr ip = ptr.
Proof.
  unfold delete_ptr_owned. intros H.
  destruct (ptr !! String_ ip) as [o|]; [| done].
  rewrite bool_decide_eq_false_2; [done |]. congruence.
Qed.

(** The PTR entry of an address is not owned by a name that holds no
    address of its family, nor is that of an invalid address. *)
Lemma ptr_not_owned (t : DNSRecordStore) (nd : string) (rs : recordSet)
    (ip : IP) :
  inv_ptr t -> inv_typed t ->
  data_at (root t) (domainToPath nd) = Some rs ->
  (To4 ip <> None /\ A rs = [])
  \/ (To4 ip = None /\ AAAA rs = [])
  \/ ~ validIP ip ->
  ptrRecords t !! String_ ip <> Some nd.
Proof.
  intros Hptr [Htyped _] Hdat Hcase Hown.
  destruct (Hptr _ _ Hown) as (_ & ip0 & rs0 & Hs & Hdat0 & Hin).
  rewrite Hdat in Hdat0. injection Hdat0 as <-.
  pose proof (Htyped _ _ Hdat) as Ht.
  pose proof (String_has_dot ip) as Hdot.
  pose proof (String_has_dot ip0) as Hdot0. rewrite Hs in Hdot0.
  destruct Hcase as [[H4 Hnil] | [[H4 Hnil] | Hinv]].
  - rewrite Hnil in Hin. destruct Hin as [Hin | Hin];
      [by apply elem_of_nil in Hin |].
    destruct Ht as [_ H6].
    destruct (proj1 (Forall_forall _ _) H6 _ Hin) as [_ H04].
    rewrite H04 in Hdot0. rewrite bool_decide_eq_true_2 in Hdot by done.
    rewrite (bool_decide_eq_false_2 (None <> None)) in Hdot0
      by (by intros []).
    congruence.
  - rewrite Hnil in Hin. destruct Hin as [Hin | Hin];
      [| by apply elem_of_nil in Hin].
    destruct Ht as [HA _].
    pose proof (proj1 (Forall_forall _ _) HA _ Hin) as H04.
    rewrite H4 in Hdot. rewrite bool_decide_eq_true_2 in Hdot0 by done.
    rewrite (bool_decide_eq_false_2 (None <> None)) in Hdot
      by (by intros []).
    congruence.
  - by apply (String_valid_invalid ip0 ip); [apply (typed_valid rs) | |].
Qed.

Lemma Flat_RemoveRecord_invalid (f : Flat.DNSRecordStore) (d : string)
    (ip : IP) :
  To4 ip = None -> To16 ip = None -> Flat.RemoveRecord f d (Some ip) = f.
Proof. intros H4 H16. unfold Flat.RemoveRecord. by rewrite H4, H16. Qed.

Lemma RemoveRecord_wildcard_sim (t : DNSRecordStore) (f : Flat.DNSRecordStore)
    (d : string) (ip : option IP) :
  ContainsAny d "*?" = true ->
  linked t f -> sim (RemoveRecord t d ip) (Flat.RemoveRecord f d ip).
Proof.
  intros Hd ((R1 & R2 & R3 & R4 & R5) & Htyped & Hptr & Hsets & Hwilds).
  destruct (RemoveRecord_wildcard_effect t d ip Hd) as (Hr & Hp & Hwild).
  set (nd := normalize d) in *.
  assert (Hbase : forall f',
             Flat.ptrRecords f' = Flat.ptrRecords f ->
             Flat.aRecords f' = Flat.aRecords f ->
             Flat.aaaaRecords f' = Flat.aaaaRecords f ->
             (forall p, Flat.aWildcards f' !! p
                        = family_of A (wildcards (RemoveRecord t d ip) !! p)) ->
             (forall p, Flat.aaaaWildcards f' !! p
                        = family_of AAAA
                            (wildcards (RemoveRecord t d ip) !! p)) ->
             sim (RemoveRecord t d ip) f').
  { intros f' E1 E2 E3 E4 E5. unfold sim. rewrite Hp, E1, E2, E3.
    split; [done |].
    split; [intros n Hn; rewrite (family_at_same_root t) by done;
            by apply R2 |].
    split; [intros n Hn; rewrite (family_at_same_root t) by done;
            by apply R3 |].
    done. }
  destruct ip as [ip|].
  2:{ apply Hbase; unfold Flat.RemoveRecord;
        rewrite ContainsAny_normalize, Hd; simpl; try done; fold nd;
        intros p; rewrite Hwild, !lookup_delete;
        destruct (decide (nd = p)); [done | apply R4 | done | apply R5]. }
  destruct (wildcards t !! nd) as [rs|] eqn:E.
  2:{ assert (Hf : Flat.RemoveRecord f d (Some ip) = f).
      { unfold Flat.RemoveRecord. rewrite ContainsAny_normalize, Hd.
        fold nd. unfold Flat.remove_at.
        rewrite (R4 nd), (R5 nd), E. simpl.
        destruct f. by repeat case_match. }
      rewrite Hf. apply Hbase; try done; intros p; rewrite Hwild;
        [apply R4 | apply R5]. }
  pose proof (proj2 Htyped _ _ E) as Ht.
  pose proof (Hwilds _ _ E) as Hne.
  destruct (To4 ip) as [p4|] eqn:E4.
  - destruct (proj1 (without_fields ip rs)) as [WA W6]; [by rewrite E4 |].
    apply Hbase; unfold Flat.RemoveRecord;
      rewrite ContainsAny_normalize, Hd, E4; simpl; try done;
      intros p; rewrite Hwild; fold nd.
    + rewrite remove_at_lookup.
      destruct (is_empty_set (without ip rs)) eqn:Ee.
      * apply is_empty_set_ne in Ee as [Ea E6]. rewrite WA in Ea.
        rewrite lookup_delete.
        destruct (decide (nd = p)) as [<-|]; [| apply R4].
        rewrite R4, E. simpl. by destruct (A rs).
      * rewrite lookup_insert.
        destruct (decide (nd = p)) as [<-|]; [| apply R4].
        rewrite R4, E. simpl. rewrite WA.
        destruct (A rs); [| done]. done.
    + destruct (is_empty_set (without ip rs)) eqn:Ee.
      * apply is_empty_set_ne in Ee as [Ea E6]. rewrite W6 in E6.
        rewrite lookup_delete.
        destruct (decide (nd = p)) as [<-|]; [| apply R5].
        by rewrite R5, E.
      * rewrite lookup_insert.
        destruct (decide (nd = p)) as [<-|]; [| apply R5].
        rewrite R5, E. simpl. by rewrite W6.
  - destruct (proj2 (without_fields ip rs) E4) as [WA W6].
    destruct (To16 ip) as [p16|] eqn:E16.
    + apply Hbase; unfold Flat.RemoveRecord;
        rewrite ContainsAny_normalize, Hd, E4, E16; simpl; try done;
        intros p; rewrite Hwild; fold nd.
      * destruct (is_empty_set (without ip rs)) eqn:Ee.
        -- apply is_empty_set_ne in Ee as [Ea E6]. rewrite WA in Ea.
           rewrite lookup_delete.
           destruct (decide (nd = p)) as [<-|]; [| apply R4].
           by rewrite R4, E.
        -- rewrite lookup_insert.
           destruct (decide (nd = p)) as [<-|]; [| apply R4].
           rewrite R4, E. simpl. by rewrite WA.
      * rewrite remove_at_lookup.
        destruct (is_empty_set (without ip rs)) eqn:Ee.
        -- apply is_empty_set_ne in Ee as [Ea E6]. rewrite W6 in E6.
           rewrite lookup_delete.
           destruct (decide (nd = p)) as [<-|]; [| apply R5].
           rewrite R5, E. simpl. by destruct (AAAA rs).
        -- rewrite lookup_insert.
           destruct (decide (nd = p)) as [<-|]; [| apply R5].
           rewrite R5, E. simpl. rewrite W6.
           destruct (AAAA rs); [| done]. done.
    + rewrite Flat_RemoveRecord_invalid by done.
      apply Hbase; try done; intros p; rewrite Hwild;
        rewrite (without_invalid ip rs) by done;
        rewrite (nonempty_set_not_empty rs) by done;
        rewrite insert_id by done; [apply R4 | apply R5].
Qed.

End Simulation.

(** ** [RemoveRecord] on the two stores *)

Section RemoveSimulation.
Import Strings Dns Net.

(** A store with the record sets, wildcard entries and PTR table of a
    simulated store is simulated as well. *)
Lemma sim_same (t t' : DNSRecordStore) (f : Flat.DNSRecordStore) :
  ptrRecords t' = ptrRecords t -> wildcards t' = wildcards t ->
  (forall q, data_at (root t') q = data_at (root t) q) ->
  sim t f -> sim t' f.
Proof.
  intros Hp Hw Hd (R1 & R2 & R3 & R4 & R5). unfold sim, family_at.
  rewrite Hp, Hw. repeat split; try done.
  - intros n Hn. rewrite Hd. by apply R2.
  - intros n Hn. rewrite Hd. by apply R3.
Qed.

Lemma family_pruned (rs : recordSet) (sel : recordSet -> list IP) :
  sel = A \/ sel = AAAA ->
  match (if is_empty_set rs then None else Some rs) with
  | Some rs => ne (sel rs)
  | None => None
  end = ne (sel rs).
Proof.
  intros Hsel. destruct (is_empty_set rs) eqn:E; [| done].
  apply is_empty_set_ne in E as [Ea E6]. by destruct Hsel as [-> | ->].
Qed.

Lemma delete_ptrs_of_ne (m : gmap string (list IP)) (k : string)
    (ptr : gmap string string) (l : list IP) :
  m !! k = ne l ->
  Flat.delete_ptrs_of m k ptr = foldl (delete_ptr_owned k) ptr l.
Proof.
  unfold Flat.delete_ptrs_of. intros ->. by destruct l.
Qed.

Lemma Flat_eta (f : Flat.DNSRecordStore) :
  Flat.mkStore (Flat.aRecords f) (Flat.aaaaRecords f) (Flat.aWildcards f)
               (Flat.aaaaWildcards f) (Flat.ptrRecords f) = f.
Proof. by destruct f. Qed.

Lemma removeIP_nil (ip : IP) : removeIP [] ip = [].
Proof. done. Qed.

Lemma RemoveRecord_exact_sim (t : DNSRecordStore) (f : Flat.DNSRecordStore)
    (d : string) (ip : option IP) :
  ContainsAny d "*?" = false ->
  linked t f -> sim (RemoveRecord t d ip) (Flat.RemoveRecord f d ip).
Proof.
  intros Hd (Hsim & Htyped & Hptr & Hsets & Hwilds).
  pose proof Hsim as (R1 & R2 & R3 & R4 & R5).
  destruct (RemoveRecord_exact_effect t d ip Hd) as (Hwild & Hother & Hcase).
  pose proof (normalize_canonical d) as Hnd.
  set (nd := normalize d) in *.
  pose proof (R2 nd Hnd) as RA. pose proof (R3 nd Hnd) as R6.
  unfold family_at in RA, R6.
  destruct (data_at (root t) (domainToPath nd)) as [rs|] eqn:Edat.
  2:{ rewrite Hcase.
      assert (Hf : Flat.RemoveRecord f d ip = f).
      { unfold Flat.RemoveRecord. rewrite ContainsAny_normalize, Hd.
        fold nd. unfold Flat.delete_ptrs_of. rewrite RA, R6.
        rewrite !delete_id by done.
        destruct ip as [ip|]; [| apply Flat_eta].
        by repeat case_match. }
      by rewrite Hf. }
  pose proof (proj1 Htyped _ _ Edat) as Ht.
  pose proof (Hsets _ _ Edat) as Hne.
  assert (Hstep : forall f',
             Flat.ptrRecords f' = ptrRecords (RemoveRecord t d ip) ->
             Flat.aWildcards f' = Flat.aWildcards f ->
             Flat.aaaaWildcards f' = Flat.aaaaWildcards f ->
             (forall n, Flat.aRecords f' !! n
                        = if decide (nd = n)
                          then family_at (RemoveRecord t d ip) nd A
                          else Flat.aRecords f !! n) ->
             (forall n, Flat.aaaaRecords f' !! n
                        = if decide (nd = n)
                          then family_at (RemoveRecord t d ip) nd AAAA
                          else Flat.aaaaRecords f !! n) ->
             sim (RemoveRecord t d ip) f').
  { intros f' E1 E2 E3 E4 E5. unfold sim. rewrite E1, E2, E3, Hwild.
    split; [done |].
    split; [| split; [| done]].
    - intros n Hn. rewrite E4. destruct (decide (nd = n)) as [<-|Hnn]; [done |].
      rewrite (family_at_other t (RemoveRecord t d ip) n nd) by done.
      by apply R2.
    - intros n Hn. rewrite E5. destruct (decide (nd = n)) as [<-|Hnn]; [done |].
      rewrite (family_at_other t (RemoveRecord t d ip) n nd) by done.
      by apply R3. }
  assert (Hkeep : forall ip0,
             ip = Some ip0 -> without ip0 rs = rs ->
             ptrRecords t !! String_ ip0 <> Some nd ->
             Flat.RemoveRecord f d ip = f ->
             sim (RemoveRecord t d ip) (Flat.RemoveRecord f d ip)).
  { intros ip0 -> Hw Hown ->. destruct Hcase as [Hdat Hp].
    rewrite Hw, (nonempty_set_not_empty rs) in Hdat by done.
    apply (sim_same t); try done.
    - rewrite Hp. by apply delete_ptr_owned_id.
    - intros q. destruct (decide (q = domainToPath nd)) as [->|Hq].
      + by rewrite Hdat.
      + by apply Hother. }
  destruct ip as [ip|].
  2:{ destruct Hcase as [Hdat Hp].
      apply Hstep; unfold Flat.RemoveRecord;
        rewrite ContainsAny_normalize, Hd; simpl; fold nd; try done.
      - rewrite Hp, R1.
        by rewrite (delete_ptrs_of_ne _ _ _ (AAAA rs) R6),
                   (delete_ptrs_of_ne _ _ _ (A rs) RA).
      - intros n. rewrite lookup_delete. unfold family_at. by rewrite Hdat.
      - intros n. rewrite lookup_delete. unfold family_at. by rewrite Hdat. }
  destruct (To4 ip) as [p4|] eqn:E4.
  - destruct (proj1 (without_fields ip rs)) as [WA W6]; [by rewrite E4 |].
    destruct (A rs) as [|a0 la] eqn:EA.
    + apply (Hkeep ip); [done | | |].
      * rewrite <- (record_eta rs) at 2. rewrite <- (record_eta (without _ _)).
        by rewrite WA, W6, EA.
      * apply (ptr_not_owned t nd rs); try done. left. by rewrite E4.
      * unfold Flat.RemoveRecord. rewrite ContainsAny_normalize, Hd, E4.
        simpl. fold nd. by rewrite RA.
    + destruct Hcase as [Hdat Hp].
      apply Hstep; unfold Flat.RemoveRecord;
        rewrite ContainsAny_normalize, Hd, E4; simpl; fold nd;
        rewrite RA; simpl; try done.
      * by rewrite Hp, R1.
      * intros n. rewrite remove_at_lookup. unfold family_at.
        rewrite Hdat, family_pruned, WA, RA by auto. done.
      * intros n. unfold family_at.
        rewrite Hdat, family_pruned, W6 by auto.
        destruct (decide (nd = n)) as [<-|]; [apply R6 | done].
  - destruct (proj2 (without_fields ip rs) E4) as [WA W6].
    destruct (To16 ip) as [p16|] eqn:E16.
    + destruct (AAAA rs) as [|a0 la] eqn:EA.
      * apply (Hkeep ip); [done | | |].
        -- rewrite <- (record_eta rs) at 2.
           rewrite <- (record_eta (without _ _)).
           by rewrite WA, W6, EA.
        -- apply (ptr_not_owned t nd rs); try done. right; left. done.
        -- unfold Flat.RemoveRecord.
           rewrite ContainsAny_normalize, Hd, E4, E16.
           simpl. fold nd. by rewrite R6.
      * destruct Hcase as [Hdat Hp].
        apply Hstep; unfold Flat.RemoveRecord;
          rewrite ContainsAny_normalize, Hd, E4, E16; simpl; fold nd;
          rewrite R6; simpl; try done.
        -- by rewrite Hp, R1.
        -- intros n. unfold family_at.
           rewrite Hdat, family_pruned, WA by auto.
           destruct (decide (nd = n)) as [<-|]; [apply RA | done].
        -- intros n. rewrite remove_at_lookup. unfold family_at.
           rewrite Hdat, family_pruned, W6, R6 by auto. done.
    + apply (Hkeep ip); [done | | |].
      * by apply without_invalid.
      * apply (ptr_not_owned t nd rs); try done. right; right.
        by apply invalid_To.
      * by apply Flat_RemoveRecord_invalid.
Qed.

Lemma RemoveRecord_sim (t : DNSRecordStore) (f : Flat.DNSRecordStore)
    (d : string) (ip : option IP) :
  linked t f -> sim (RemoveRecord t d ip) (Flat.RemoveRecord f d ip).
Proof.
  destruct (ContainsAny d "*?") eqn:Hd.
  - by apply RemoveRecord_wildcard_sim.
  - by apply RemoveRecord_exact_sim.
Qed.

End RemoveSimulation.

(** ** Sequences of calls on the two stores *)

Section LinkedRuns.
Import Strings Dns Net.

Lemma linked_new : linked NewDNSRecordStore Flat.NewDNSRecordStore.
Proof.
  assert (Hdat : forall q, data_at (root NewDNSRecordStore) q = None).
  { intros [|l q]; [done |]. unfold data_at. simpl.
    by rewrite lookup_empty. }
  destruct inv_new as (_ & Hsets & Hwilds).
  split; [| split; [| split; [| done]]].
  - unfold sim, family_at. simpl. split; [done |].
    repeat split; intros; by rewrite ?Hdat, lookup_empty.
  - split.
    + intros path rs H. by rewrite Hdat in H.
    + intros p rs H. simpl in H. by rewrite lookup_empty in H.
  - intros k n H. simpl in H. by rewrite lookup_empty in H.
Qed.

Lemma call_linked (t : DNSRecordStore) (f : Flat.DNSRecordStore)
    (m : mutator) :
  is_AddPTRRecord m = false ->
  linked t f -> linked (call t m) (flat_call f m).
Proof.
  intros Hm Hl. pose proof Hl as (Hsim & Htyped & Hptr & Hsets & Hwilds).
  destruct (call_inv_sets t m Hsets Hwilds) as [Hsets' Hwilds'].
  split; [| split; [by apply call_inv_typed
                   | split; [by apply call_inv_ptr | done]]].
  destruct m as [d ip|ip d|d ip|ip|]; simpl; try done.
  - by apply AddRecord_sim.
  - by apply RemoveRecord_sim.
  - destruct Hsim as (R1 & R2 & R3 & R4 & R5).
    unfold sim, family_at. simpl. by rewrite R1.
  - apply linked_new.
Qed.

Lemma foldl_linked (ms : list mutator) (t : DNSRecordStore)
    (f : Flat.DNSRecordStore) :
  no_AddPTRRecord ms ->
  linked t f -> linked (foldl call t ms) (foldl flat_call f ms).
Proof.
  intros Hms. revert t f.
  induction Hms as [|m ms Hm _ IH]; intros t f Hl; simpl; [done |].
  by apply IH, call_linked.
Qed.

Lemma run_linked (ms : list mutator) :
  no_AddPTRRecord ms -> linked (run ms) (flat_run ms).
Proof. intros Hms. by apply foldl_linked, linked_new. Qed.

(** *** The observers on simulated stores *)

Lemma GetPTRRecord_sim (t : DNSRecordStore) (f : Flat.DNSRecordStore)
    (r : string) :
  sim t f ->
  GetPTRRecord t r = Flat.GetPTRRecord f r
  /\ HasPTRRecord t r = Flat.HasPTRRecord f r.
Proof.
  intros (R1 & _).
  unfold GetPTRRecord, Flat.GetPTRRecord, HasPTRRecord, Flat.HasPTRRecord.
  by rewrite R1.
Qed.

Lemma family_at_exact_records (t : DNSRecordStore) (name : string)
    (q : RecordType) :
  family_at t name (select q) = ne (exact_records t name q).
Proof.
  unfold family_at, exact_records, exact_set, data_at.
  destruct (walk _ _) as [node|]; [| done].
  by destruct (data node).
Qed.

Lemma select_A : select RecordTypeA = A.
Proof. done. Qed.

Lemma select_AAAA : select RecordTypeAAAA = AAAA.
Proof. done. Qed.

Lemma elem_of_flat_view (sel : recordSet -> list IP)
    (order : list (string * recordSet)) (p : string) (l : list IP) :
  (p, l) ∈ flat_view sel order
  <-> exists rs, (p, rs) ∈ order /\ ne (sel rs) = Some l.
Proof.
  unfold flat_view. rewrite list_elem_of_omap. split.
  - intros ([p' rs] & Hin & H). simpl in H.
    destruct (ne (sel rs)) as [l'|] eqn:E; [| done].
    simpl in H. injection H as -> ->. by exists rs.
  - intros (rs & Hin & H). exists (p, rs). split; [done |].
    simpl. by rewrite H.
Qed.

Lemma NoDup_flat_view (sel : recordSet -> list IP)
    (order : list (string * recordSet)) :
  NoDup order.*1 -> NoDup (flat_view sel order).
Proof.
  induction order as [|[p rs] order IH]; simpl; [constructor |].
  intros [Hp Hnd]%NoDup_cons. unfold flat_view. simpl.
  destruct (ne (sel rs)) as [l|] eqn:E; simpl; [| by apply IH].
  apply NoDup_cons. split; [| by apply IH].
  intros (rs' & Hin & _)%elem_of_flat_view. apply Hp.
  apply list_elem_of_fmap. by exists (p, rs').
Qed.

(** The flat map of a family is visited in an order of the entries of the
    trie store's wildcard map that hold an address of the family. *)
Lemma flat_view_range_order (sel : recordSet -> list IP)
    (W : gmap string recordSet) (M : gmap string (list IP))
    (ot : list (string * recordSet)) (ofl : list (string * list IP)) :
  (forall p, M !! p = family_of sel (W !! p)) ->
  range_order W ot -> range_order M ofl ->
  ofl ≡ₚ flat_view sel ot.
Proof.
  unfold range_order. intros HM Hot ->. unfold flat_view. rewrite Hot.
  apply NoDup_Permutation.
  - apply NoDup_map_to_list.
  - apply NoDup_flat_view, NoDup_fst_map_to_list.
  - intros [p l]. rewrite elem_of_map_to_list, HM.
    change (omap _ (map_to_list W)) with (flat_view sel (map_to_list W)).
    rewrite elem_of_flat_view. split.
    + destruct (W !! p) as [rs|] eqn:E; [| done]. simpl. intros H.
      exists rs. by rewrite elem_of_map_to_list.
    + intros (rs & Hin%elem_of_map_to_list & H). by rewrite Hin.
Qed.

#[local] Instance flat_matching_dec name e : Decision (flat_matching name e).
Proof. unfold flat_matching. apply _. Defined.

Lemma Flat_GetRecords_loop (order : list (string * list IP)) (name : string)
    (acc : list IP) :
  foldl (fun records '(pattern, ips) =>
           if matchWildcard pattern name then records ++ ips else records)
        acc order
  = acc ++ concat (filter (flat_matching name) order).*2.
Proof.
  revert acc; induction order as [|[p l] order IH]; intros acc; simpl.
  - by rewrite app_nil_r.
  - rewrite IH, filter_cons.
    destruct (decide (flat_matching name (p, l))) as [Hm|Hm];
      unfold flat_matching in Hm; simpl in Hm.
    + rewrite Hm. simpl. by rewrite <- app_assoc.
    + apply not_true_is_false in Hm. by rewrite Hm.
Qed.

Lemma flat_view_cons (sel : recordSet -> list IP) (p : string)
    (rs : recordSet) (order : list (string * recordSet)) :
  flat_view sel ((p, rs) :: order)
  = match sel rs with
    | [] => flat_view sel order
    | _ => (p, sel rs) :: flat_view sel order
    end.
Proof. unfold flat_view. simpl. by destruct (sel rs). Qed.

Lemma concat_flat_view (q : RecordType) (name : string)
    (order : list (string * recordSet)) :
  concat (filter (flat_matching name) (flat_view (select q) order)).*2
  = concat (select q <$> (filter (matching name) order).*2).
Proof.
  induction order as [|[p rs] order IH]; [done |].
  rewrite flat_view_cons, (filter_cons (matching name)).
  destruct (select q rs) as [|x l] eqn:E.
  - rewrite IH. destruct (decide (matching name (p, rs))); [| done].
    simpl. by rewrite E.
  - rewrite filter_cons.
    destruct (decide (matching name (p, rs))) as [Hm|Hm].
    + rewrite decide_True by done. simpl. rewrite E. simpl.
      do 2 f_equal. apply IH.
    + by rewrite decide_False.
Qed.

Lemma existsb_Permutation {X} (g : X -> bool) (l l' : list X) :
  l ≡ₚ l' -> existsb g l = existsb g l'.
Proof.
  induction 1 as [|x l l' _ IH|x y l|l l' l'' _ IH1 _ IH2]; simpl.
  - done.
  - by rewrite IH.
  - by destruct (g x), (g y).
  - by rewrite IH1.
Qed.

Lemma existsb_flat_view (q : RecordType) (name : string)
    (order : list (string * recordSet)) :
  q = RecordTypeA \/ q = RecordTypeAAAA ->
  existsb (fun '(pattern, _) => matchWildcard pattern name)
          (flat_view (select q) order)
  = has_wildcard order name q.
Proof.
  intros [-> | ->].
  - rewrite select_A. induction order as [|[p rs] order IH]; [done |].
    rewrite flat_view_cons. simpl.
    destruct (A rs) as [|x l]; simpl; rewrite IH;
      by destruct (matchWildcard p name).
  - rewrite select_AAAA. induction order as [|[p rs] order IH]; [done |].
    rewrite flat_view_cons. simpl.
    destruct (AAAA rs) as [|x l]; simpl; rewrite IH;
      by destruct (matchWildcard p name).
Qed.

Lemma same_up_to_order_slice (l1 l2 : list IP) :
  l1 ≡ₚ l2 ->
  same_up_to_order (slice_result l1)
                   (if 0 <? length l2 then Some l2 else None).
Proof.
  intros H. unfold slice_result. rewrite (Permutation_length H).
  destruct l2 as [|x l2]; simpl; [exact I | exact H].
Qed.

Lemma same_up_to_order_refl (r : option (list IP)) : same_up_to_order r r.
Proof. destruct r; simpl; [reflexivity | exact I]. Qed.

(** The observers [GetRecords] and [HasRecord] on stores that hold the same
    records. *)
Lemma GetRecords_sim (t : DNSRecordStore) (f : Flat.DNSRecordStore)
    (ot : list (string * recordSet)) (ofl : list (string * list IP))
    (d : string) (q : RecordType) :
  sim t f ->
  q = RecordTypeA \/ q = RecordTypeAAAA ->
  canonical (ToLower (Fqdn d)) ->
  range_order (wildcards t) ot ->
  range_order (flat_wildcards f q) ofl ->
  HasRecord ot t d q = Flat.HasRecord ofl f d q
  /\ same_up_to_order (GetRecords ot t d q) (Flat.GetRecords ofl f d q)
  /\ (exact_records t (ToLower (Fqdn d)) q <> [] ->
      GetRecords ot t d q = Flat.GetRecords ofl f d q)
  /\ (ofl = flat_view (select q) ot ->
      GetRecords ot t d q = Flat.GetRecords ofl f d q).
Proof.
  intros (R1 & R2 & R3 & R4 & R5) Hq Hcan Hot Hof.
  set (name := ToLower (Fqdn d)) in *.
  set (E := if (q =? RecordTypeA)%N then Flat.aRecords f
            else Flat.aaaaRecords f).
  assert (HE : E !! name = ne (exact_records t name q)).
  { rewrite <- family_at_exact_records. unfold E.
    destruct Hq as [-> | ->]; simpl; [by apply R2 | by apply R3]. }
  assert (HW : forall p, flat_wildcards f q !! p
                         = family_of (select q) (wildcards t !! p)).
  { intros p. unfold flat_wildcards.
    destruct Hq as [-> | ->]; simpl; [apply R4 | apply R5]. }
  pose proof (flat_view_range_order _ _ _ _ _ HW Hot Hof) as Hperm.
  assert (Hget : Flat.GetRecords ofl f d q = Flat.get_case E ofl name).
  { unfold Flat.GetRecords, E. fold name. by destruct Hq as [-> | ->]. }
  assert (Hhas : Flat.HasRecord ofl f d q = Flat.has_case E ofl name).
  { unfold Flat.HasRecord, E. fold name. by destruct Hq as [-> | ->]. }
  assert (HhasT : HasRecord ot t d q
                  = (0 <? length (exact_records t name q))
                    || has_wildcard ot name q).
  { unfold HasRecord, exact_records, exact_set. fold name.
    destruct (walk _ _) as [node|]; [| done].
    destruct (data node) as [rs|]; [| done].
    unfold select. destruct Hq as [-> | ->]; simpl.
    - rewrite orb_false_r. by destruct (0 <? length (A rs)).
    - by destruct (0 <? length (AAAA rs)). }
  rewrite Hget, Hhas, HhasT, GetRecords_unfold. simpl. fold name.
  unfold Flat.get_case, Flat.has_case. rewrite HE, Flat_GetRecords_loop.
  simpl.
  destruct (exact_records t name q) as [|x l] eqn:Eex; simpl.
  - split; [| split; [| split; [done |]]].
    + rewrite (existsb_Permutation _ _ _ Hperm).
      by rewrite existsb_flat_view.
    + apply same_up_to_order_slice.
      rewrite <- concat_flat_view. by rewrite Hperm.
    + intros ->. rewrite concat_flat_view. unfold slice_result.
      by destruct (concat _).
  - repeat split; try done.
Qed.

End LinkedRuns.

(** ** The records do not depend on the PTR table *)

Section RecordsOnly.
Import Strings Dns Net.

Lemma call_same_records (t t' : DNSRecordStore) (m : mutator) :
  same_records t t' -> same_records (call t m) (call t' m).
Proof.
  destruct t as [r w p], t' as [r' w' p']. intros [Hr Hw].
  simpl in Hr, Hw. subst r' w'.
  destruct m as [d ip|ip d|d ip|ip|]; try done.
  - unfold same_records, call, AddRecord. simpl.
    by repeat case_match.
  - unfold same_records, call, RemoveRecord. simpl.
    by repeat case_match.
Qed.

Lemma call_AddPTRRecord_same_records (t t' : DNSRecordStore) (m : mutator) :
  is_AddPTRRecord m = true ->
  same_records t t' -> same_records (call t m) t'.
Proof. by destruct m. Qed.

Lemma foldl_same_records (ms : list mutator) (t t' : DNSRecordStore) :
  same_records t t' ->
  same_records (foldl call t ms) (foldl call t' (drop_AddPTRRecord ms)).
Proof.
  unfold drop_AddPTRRecord.
  revert t t'. induction ms as [|m ms IH]; intros t t' H; [done |].
  rewrite filter_cons. simpl.
  destruct (is_AddPTRRecord m) eqn:Em.
  - rewrite decide_False by done.
    by apply IH, call_AddPTRRecord_same_records.
  - rewrite decide_True by done. simpl.
    by apply IH, call_same_records.
Qed.

Lemma flat_call_same_records (f f' : Flat.DNSRecordStore) (m : mutator) :
  flat_same_records f f' ->
  flat_same_records (flat_call f m) (flat_call f' m).
Proof.
  destruct f as [a b c e p], f' as [a' b' c' e' p'].
  intros (Ha & Hb & Hc & He). simpl in Ha, Hb, Hc, He. subst a' b' c' e'.
  destruct m as [d ip|ip d|d ip|ip|]; try done.
  - unfold flat_same_records, flat_call, Flat.AddRecord. simpl.
    by repeat case_match.
  - unfold flat_same_records, flat_call, Flat.RemoveRecord. simpl.
    by repeat case_match.
Qed.

Lemma flat_call_AddPTRRecord_same_records (f f' : Flat.DNSRecordStore)
    (m : mutator) :
  is_AddPTRRecord m = true ->
  flat_same_records f f' -> flat_same_records (flat_call f m) f'.
Proof. by destruct m. Qed.

Lemma foldl_flat_same_records (ms : list mutator)
    (f f' : Flat.DNSRecordStore) :
  flat_same_records f f' ->
  flat_same_records (foldl flat_call f ms)
                    (foldl flat_call f' (drop_AddPTRRecord ms)).
Proof.
  unfold drop_AddPTRRecord.
  revert f f'. induction ms as [|m ms IH]; intros f f' H; [done |].
  rewrite filter_cons. simpl.
  destruct (is_AddPTRRecord m) eqn:Em.
  - rewrite decide_False by done.
    by apply IH, flat_call_AddPTRRecord_same_records.
  - rewrite decide_True by done. simpl.
    by apply IH, flat_call_same_records.
Qed.

Lemma no_AddPTRRecord_drop (ms : list mutator) :
  no_AddPTRRecord (drop_AddPTRRecord ms).
Proof.
  unfold no_AddPTRRecord, drop_AddPTRRecord. apply Forall_forall.
  by intros m [Hm _]%list_elem_of_filter.
Qed.

Lemma GetRecords_same_records (t t' : DNSRecordStore)
    (order : list (string * recordSet)) (d : string) (q : RecordType) :
  same_records t t' ->
  GetRecords order t d q = GetRecords order t' d q
  /\ HasRecord order t d q = HasRecord order t' d q.
Proof.
  intros [Hr Hw]. unfold GetRecords, HasRecord. by rewrite Hr.
Qed.

Lemma Flat_GetRecords_same_records (f f' : Flat.DNSRecordStore)
    (order : list (string * list IP)) (d : string) (q : RecordType) :
  flat_same_records f f' ->
  Flat.GetRecords order f d q = Flat.GetRecords order f' d q
  /\ Flat.HasRecord order f d q = Flat.HasRecord order f' d q
  /\ flat_wildcards f q = flat_wildcards f' q.
Proof.
  intros (Ha & Hb & Hc & He).
  unfold Flat.GetRecords, Flat.HasRecord, flat_wildcards.
  by rewrite Ha, Hb, Hc, He.
Qed.

(** [GetRecords] and [HasRecord] after a sequence of calls on the two
    stores. *)
Lemma run_GetRecords (ms : list mutator) (d : string) (q : RecordType)
    (ot : list (string * recordSet)) (ofl : list (string * list IP)) :
  q = RecordTypeA \/ q = RecordTypeAAAA ->
  canonical (ToLower (Fqdn d)) ->
  range_order (wildcards (run ms)) ot ->
  range_order (flat_wildcards (flat_run ms) q) ofl ->
  HasRecord ot (run ms) d q = Flat.HasRecord ofl (flat_run ms) d q
  /\ same_up_to_order (GetRecords ot (run ms) d q)
                      (Flat.GetRecords ofl (flat_run ms) d q)
  /\ (exact_records (run ms) (ToLower (Fqdn d)) q <> [] ->
      GetRecords ot (run ms) d q = Flat.GetRecords ofl (flat_run ms) d q)
  /\ (ofl = flat_view (select q) ot ->
      GetRecords ot (run ms) d q = Flat.GetRecords ofl (flat_run ms) d q).
Proof.
  intros Hq Hcan Hot Hofl.
  assert (HT : same_records (run ms) (run (drop_AddPTRRecord ms)))
    by (by apply foldl_same_records).
  assert (HF : flat_same_records (flat_run ms)
                                 (flat_run (drop_AddPTRRecord ms)))
    by (by apply foldl_flat_same_records).
  destruct (run_linked _ (no_AddPTRRecord_drop ms)) as (Hsim & _).
  destruct (GetRecords_same_records _ _ ot d q HT) as [-> ->].
  destruct (Flat_GetRecords_same_records _ _ ofl d q HF) as (-> & -> & HW).
  assert (Hex : exact_records (run ms) (ToLower (Fqdn d)) q
                = exact_records (run (drop_AddPTRRecord ms))
                    (ToLower (Fqdn d)) q).
  { unfold exact_records, exact_set. by rewrite (proj1 HT). }
  rewrite Hex. apply GetRecords_sim; try done.
  - by rewrite <- (proj2 HT).
  - by rewrite <- HW.
Qed.

End RecordsOnly.

(** ** The PTR tables of the two stores *)

Section PtrAgreement.
Import Strings Dns Net.

Lemma exact_records_data (s : DNSRecordStore) (name : string)
    (q : RecordType) :
  exact_records s name q
  = match data_at (root s) (domainToPath name) with
    | Some rs => select q rs
    | None => []
    end.
Proof. done. Qed.

Lemma run_snoc (ms : list mutator) (m : mutator) :
  run (ms ++ [m]) = call (run ms) m.
Proof. unfold run. by rewrite foldl_app. Qed.

Lemma flat_run_snoc (ms : list mutator) (m : mutator) :
  flat_run (ms ++ [m]) = flat_call (flat_run ms) m.
Proof. unfold flat_run. by rewrite foldl_app. Qed.

Lemma parseIPv4Fields_loop_length (s : string) (first prev_dot : bool)
    (val v : N) (digLen : nat) (fields f : list byte) :
  length fields <= 3 ->
  parseIPv4Fields_loop s first prev_dot val digLen fields = Some (v, f) ->
  length f <= 3.
Proof.
  revert first prev_dot val digLen fields.
  induction s as [|c s IH]; intros first prev_dot val digLen fields Hlen;
    simpl.
  - by intros [= _ <-].
  - repeat case_match; try done.
    + by apply IH.
    + apply IH. rewrite length_app. simpl.
      match goal with
      | H : (length fields =? 3) = false |- _ => apply Nat.eqb_neq in H
      end.
      lia.
Qed.

Lemma parseIPv4Fields_length (s : string) (f : list byte) :
  parseIPv4Fields s = Some f -> length f = 4.
Proof.
  unfold parseIPv4Fields.
  destruct (parseIPv4Fields_loop s true false 0 0 []) as [[v fields]|] eqn:E;
    [| done].
  apply parseIPv4Fields_loop_length in E; [| simpl; lia].
  destruct (length fields <? 3) eqn:E3; [done |].
  apply Nat.ltb_ge in E3. intros [= <-]. rewrite length_app. simpl. lia.
Qed.

Lemma parseIPv6_loop_length (n : nat) (s rest : string) (ip ip' : list byte)
    (e e' : option nat) :
  length ip + 2 * n <= 16 ->
  parseIPv6_loop n s ip e = Some (rest, ip', e') ->
  length ip' <= 16.
Proof.
  revert s ip e. induction n as [|n IH]; intros s ip e Hlen; simpl.
  - intros [= _ <- _]. lia.
  - assert (Hlen' : length (ip ++ [u8 (N.shiftr 0 8); u8 0]) + 2 * n <= 16)
      by (rewrite length_app; simpl; lia).
    destruct (parseHex s 0 0) as [[[off acc] r]|]; [| done].
    assert (Hlen2 : forall a b : byte, length (ip ++ [a; b]) + 2 * n <= 16)
      by (intros; rewrite length_app; simpl; lia).
    repeat case_match; try done; subst.
    all: try (intros [= _ <- _]; rewrite length_app; simpl;
              try match goal with
                  | H : parseIPv4Fields _ = Some _ |- _ =>
                      apply parseIPv4Fields_length in H
                  end;
              try match goal with
                  | H : (16 <? _) = false |- _ => apply Nat.ltb_ge in H
                  end; lia).
    all: try (apply IH; apply Hlen2).
Qed.

Lemma parseIPv6_length (s : string) (ip : list byte) :
  parseIPv6 s = Some ip -> length ip = 16.
Proof.
  unfold parseIPv6.
  destruct (IndexByte s "%"%char); [done |].
  destruct (_ && bool_decide (_ = EmptyString)).
  { by intros [= <-]. }
  destruct (parseIPv6_loop 8 _ [] _) as [[[rest ip0] e]|] eqn:E; [| done].
  apply parseIPv6_loop_length in E; [| simpl; lia].
  destruct (negb _); [done |].
  destruct (length ip0 <? 16) eqn:E16.
  - apply Nat.ltb_lt in E16. destruct e as [e|]; [| done].
    intros [= <-].
    rewrite !length_app, length_replicate, length_take, length_drop. lia.
  - apply Nat.ltb_ge in E16. destruct e; [done |]. intros [= <-]. lia.
Qed.

(** [net.ParseIP] returns the 16-byte form of the address. *)
Lemma ParseIP_length (s : string) (ip : IP) :
  ParseIP s = Some ip -> length ip = 16.
Proof.
  unfold ParseIP. destruct (first_sep s) as [c|]; [| done].
  repeat case_match; try done; try apply parseIPv6_length.
  all: destruct (parseIPv4Fields s) as [f|] eqn:E4; [| done].
  all: intros [= <-]; apply parseIPv4Fields_length in E4.
  all: unfold v4InV6Prefix; rewrite ?length_app; simpl; lia.
Qed.

Lemma reverseDNSToIP_length (r : string) (ip : IP) :
  reverseDNSToIP r = Some ip -> length ip = 16.
Proof.
  unfold reverseDNSToIP. repeat case_match; try done; apply ParseIP_length.
Qed.

(** The record lists of the two stores after the same calls. *)
Lemma run_families (ms : list mutator) (n : string) :
  canonical n ->
  Flat.aRecords (flat_run ms) !! n = family_at (run ms) n A
  /\ Flat.aaaaRecords (flat_run ms) !! n = family_at (run ms) n AAAA.
Proof.
  intros Hn.
  assert (HT : same_records (run ms) (run (drop_AddPTRRecord ms)))
    by (by apply foldl_same_records).
  assert (HF : flat_same_records (flat_run ms)
                                 (flat_run (drop_AddPTRRecord ms)))
    by (by apply foldl_flat_same_records).
  destruct (run_linked _ (no_AddPTRRecord_drop ms))
    as ((_ & R2 & R3 & _) & _).
  destruct HT as [Hr _]. destruct HF as (Ha & Hb & _).
  unfold family_at. rewrite Ha, Hb, Hr.
  split; [by apply R2 | by apply R3].
Qed.

Lemma delete_ptr_owned_same (nd : string) (p1 p2 : gmap string string)
    (ip : IP) (k : string) :
  p1 !! k = p2 !! k ->
  delete_ptr_owned nd p1 ip !! k = delete_ptr_owned nd p2 ip !! k.
Proof. intros H. by rewrite !delete_ptr_owned_lookup, H. Qed.

Lemma foldl_delete_ptr_owned_same (nd : string) (p1 p2 : gmap string string)
    (l : list IP) (k : string) :
  p1 !! k = p2 !! k ->
  foldl (delete_ptr_owned nd) p1 l !! k
  = foldl (delete_ptr_owned nd) p2 l !! k.
Proof.
  revert p1 p2. induction l as [|ip l IH]; intros p1 p2 H; simpl; [done |].
  by apply IH, delete_ptr_owned_same.
Qed.

Lemma validIP_length (ip : IP) :
  (length ip =? 4) || (length ip =? 16) = true <-> validIP ip.
Proof.
  unfold validIP. rewrite orb_true_iff, !Nat.eqb_eq. done.
Qed.

(** The PTR table of the flat-map store after [RemoveRecord] of an address
    from a name without wildcards. *)
Lemma Flat_RemoveRecord_ptr (f : Flat.DNSRecordStore) (d : string)
    (ip : IP) :
  ContainsAny d "*?" = false ->
  Flat.ptrRecords (Flat.RemoveRecord f d (Some ip))
  = match (if bool_decide (To4 ip <> None) then Flat.aRecords f
           else Flat.aaaaRecords f) !! normalize d with
    | Some _ =>
        if (length ip =? 4) || (length ip =? 16)
        then delete_ptr_owned (normalize d) (Flat.ptrRecords f) ip
        else Flat.ptrRecords f
    | None => Flat.ptrRecords f
    end.
Proof.
  intros Hd. unfold Flat.RemoveRecord. rewrite ContainsAny_normalize, Hd.
  destruct (bool_decide (To4 ip <> None)) eqn:E4.
  - apply bool_decide_eq_true_1, To4_valid, validIP_length in E4.
    rewrite E4. by destruct (Flat.aRecords f !! normalize d).
  - destruct ((length ip =? 4) || (length ip =? 16)) eqn:Ev.
    + apply validIP_length, validIP_To16 in Ev.
      rewrite bool_decide_eq_true_2 by done.
      by destruct (Flat.aaaaRecords f !! normalize d).
    + assert (H16 : To16 ip = None).
      { apply orb_false_iff in Ev as [E1 E2]. unfold To16.
        by rewrite E1, E2. }
      rewrite H16. rewrite bool_decide_eq_false_2 by (by intros []).
      by destruct (Flat.aaaaRecords f !! normalize d).
Qed.

(** A call keeps the PTR tables alike, unless it is one on which the two
    stores part. *)
Lemma call_same_PTR (t : DNSRecordStore) (f : Flat.DNSRecordStore)
    (m : mutator) :
  (forall n, canonical n ->
     Flat.aRecords f !! n = family_at t n A
     /\ Flat.aaaaRecords f !! n = family_at t n AAAA) ->
  ptr_divergent t m = false ->
  same_PTR t f -> same_PTR (call t m) (flat_call f m).
Proof.
  intros Hfam Hm Hsame x Hx. specialize (Hsame x Hx).
  destruct m as [d ip|ip d|d ip|ip|]; simpl.
  - destruct (AddRecord_effect t d ip)
      as [[Hinv ->] | [(Hip & Hd & _ & -> & _) | (Hip & Hd & _ & -> & _)]].
    + assert (H4 : To4 ip = None).
      { destruct (To4 ip) eqn:E; [| done].
        exfalso. apply Hinv, To4_valid. by rewrite E. }
      assert (H16 : To16 ip = None).
      { destruct (To16 ip) eqn:E; [| done]. exfalso. apply Hinv.
        unfold To16, validIP in *.
        destruct (length ip =? 4) eqn:E1; [apply Nat.eqb_eq in E1; auto |].
        destruct (length ip =? 16) eqn:E2; [apply Nat.eqb_eq in E2; auto |].
        done. }
      unfold Flat.AddRecord. by rewrite H4, H16.
    + unfold Flat.AddRecord. rewrite ContainsAny_normalize, Hd.
      destruct (bool_decide (To4 ip <> None)); [done |].
      by rewrite bool_decide_eq_true_2 by (by apply validIP_To16).
    + unfold Flat.AddRecord. rewrite ContainsAny_normalize, Hd.
      destruct (bool_decide (To4 ip <> None)); simpl.
      * rewrite !lookup_insert. by destruct (decide _).
      * rewrite bool_decide_eq_true_2 by (by apply validIP_To16). simpl.
        rewrite !lookup_insert. by destruct (decide _).
  - unfold AddPTRRecord. simpl. rewrite !lookup_insert.
    by destruct (decide _).
  - pose proof (normalize_canonical d) as Hnd.
    destruct (Hfam _ Hnd) as [RA R6]. unfold family_at in RA, R6.
    destruct (ContainsAny d "*?") eqn:Hd.
    { destruct (RemoveRecord_wildcard_effect t d ip Hd) as (_ & -> & _).
      unfold Flat.RemoveRecord. rewrite ContainsAny_normalize, Hd.
      destruct ip as [ip|]; [| done]. by repeat case_match. }
    destruct (RemoveRecord_exact_effect t d ip Hd) as (_ & _ & Hcase).
    destruct ip as [ip|].
    2:{ unfold Flat.RemoveRecord. rewrite ContainsAny_normalize, Hd. simpl.
        destruct (data_at (root t) (domainToPath (normalize d))) as [rs|].
        - destruct Hcase as [_ ->].
          rewrite (delete_ptrs_of_ne _ _ _ (A rs) RA),
                  (delete_ptrs_of_ne _ _ _ (AAAA rs) R6).
          by do 2 apply foldl_delete_ptr_owned_same.
        - rewrite Hcase. unfold Flat.delete_ptrs_of. by rewrite RA, R6. }
    rewrite Flat_RemoveRecord_ptr by done.
    simpl in Hm. rewrite ContainsAny_normalize, Hd in Hm. simpl in Hm.
    rewrite exact_records_data in Hm.
    change (exact_set t (normalize d))
      with (data_at (root t) (domainToPath (normalize d))) in Hm.
    destruct (data_at (root t) (domainToPath (normalize d))) as [rs|].
    2:{ rewrite Hcase.
        destruct (bool_decide (To4 ip <> None));
          [rewrite RA | rewrite R6]; done. }
    destruct Hcase as [_ ->].
    rewrite (bool_decide_eq_true_2 (is_Some (Some rs))) in Hm
      by (by eexists).
    destruct ((length ip =? 4) || (length ip =? 16)) eqn:Ev.
    + simpl in Hm.
      assert (Hlist : (if bool_decide (To4 ip <> None)
                       then Flat.aRecords f else Flat.aaaaRecords f)
                      !! normalize d = ne (select (family ip) rs)).
      { unfold family. by destruct (bool_decide (To4 ip <> None)). }
      rewrite Hlist.
      destruct (select (family ip) rs) as [|a l] eqn:El; simpl in *.
      * apply bool_decide_eq_false_1 in Hm.
        by rewrite delete_ptr_owned_id.
      * apply delete_ptr_owned_same. exact Hsame.
    + assert (Hinv : ~ validIP ip).
      { intros H%validIP_length. congruence. }
      rewrite delete_ptr_owned_lookup.
      rewrite bool_decide_eq_false_2.
      * by destruct ((if bool_decide (To4 ip <> None)
                      then Flat.aRecords f else Flat.aaaaRecords f)
                     !! normalize d).
      * intros [E _]. by apply (String_valid_invalid x ip).
  - rewrite !lookup_delete. by destruct (decide _).
  - done.
Qed.

Lemma ptr_safe_from_app (t : DNSRecordStore) (ms ms' : list mutator) :
  ptr_safe_from t (ms ++ ms')
  = ptr_safe_from t ms && ptr_safe_from (foldl call t ms) ms'.
Proof.
  revert t. induction ms as [|m ms IH]; intros t; simpl; [done |].
  by rewrite IH, andb_assoc.
Qed.

Lemma ptr_safe_snoc (ms : list mutator) (m : mutator) :
  ptr_safe (ms ++ [m]) <-> ptr_safe ms /\ ptr_divergent (run ms) m = false.
Proof.
  unfold ptr_safe. rewrite ptr_safe_from_app. simpl.
  rewrite andb_true_iff, andb_true_r, negb_true_iff. done.
Qed.

(** After a sequence of calls none of which is one on which the stores
    part, the PTR tables are alike. *)
Lemma run_same_PTR (ms : list mutator) :
  ptr_safe ms -> same_PTR (run ms) (flat_run ms).
Proof.
  induction ms as [|m ms IH] using rev_ind.
  - intros _ x Hx. done.
  - intros [Hms Hm]%ptr_safe_snoc.
    rewrite run_snoc, flat_run_snoc.
    apply call_same_PTR; [| done | by apply IH].
    intros n Hn. by apply run_families.
Qed.

Lemma GetPTRRecord_same_PTR (t : DNSRecordStore) (f : Flat.DNSRecordStore)
    (r : string) :
  same_PTR t f ->
  GetPTRRecord t r = Flat.GetPTRRecord f r
  /\ HasPTRRecord t r = Flat.HasPTRRecord f r.
Proof.
  intros Hsame.
  unfold GetPTRRecord, Flat.GetPTRRecord, HasPTRRecord, Flat.HasPTRRecord.
  destruct (reverseDNSToIP r) as [x|] eqn:E; [| done].
  apply reverseDNSToIP_length in E.
  by rewrite (Hsame x) by (by right).
Qed.

(** Without [AddPTRRecord] the stores never part on the PTR table. *)
Lemma no_AddPTRRecord_safe (ms : list mutator) :
  no_AddPTRRecord ms -> ptr_safe ms.
Proof.
  induction ms as [|m ms IH] using rev_ind; [done |].
  intros [Hms Hm%Forall_inv]%Forall_app.
  apply ptr_safe_snoc. split; [by apply IH |].
  destruct m as [d ip|ip d|d [ip|]|ip|]; try done. simpl.
  destruct (run_linked ms Hms) as (_ & Htyped & Hptr & _).
  rewrite exact_records_data.
  change (exact_set (run ms) (normalize d))
    with (data_at (root (run ms)) (domainToPath (normalize d))).
  destruct (data_at (root (run ms)) (domainToPath (normalize d)))
    as [rs|] eqn:Edat.
  2:{ rewrite (bool_decide_eq_false_2 (is_Some None)) by (by intros [? ?]).
      by rewrite !andb_false_r. }
  destruct (length (select (family ip) rs) =? 0) eqn:El;
    [| by rewrite !andb_false_r].
  rewrite (bool_decide_eq_false_2 (_ = Some (normalize d)));
    [by rewrite !andb_false_r |].
  apply (ptr_not_owned (run ms) (normalize d) rs); try done.
  apply Nat.eqb_eq, length_zero_iff_nil in El. unfold family in El.
  destruct (To4 ip) eqn:E4.
  - left. by rewrite bool_decide_eq_true_2 in El.
  - right; left. split; [done |].
    by rewrite bool_decide_eq_false_2 in El by (by intros []).
Qed.

(** On a call on which the stores part, after calls on which they do not,
    the trie store has deleted the PTR entry of the address and the flat-map
    store has kept it. *)
Lemma ptr_divergent_parts (ms : list mutator) (d : string) (ip : IP) :
  ptr_safe ms ->
  ptr_divergent (run ms) (CallRemoveRecord d (Some ip)) = true ->
  GetPTRRecord (run (ms ++ [CallRemoveRecord d (Some ip)]))
               (IPToReverseDNS ip) = (EmptyString, false)
  /\ Flat.GetPTRRecord (flat_run (ms ++ [CallRemoveRecord d (Some ip)]))
                       (IPToReverseDNS ip) = (normalize d, true).
Proof.
  intros Hms Hdiv. pose proof (run_same_PTR ms Hms) as Hsame.
  simpl in Hdiv.
  apply andb_true_iff in Hdiv as [Hdiv Hown%bool_decide_eq_true_1].
  apply andb_true_iff in Hdiv as [Hdiv Hlen%Nat.eqb_eq].
  apply andb_true_iff in Hdiv as [Hdiv Hset%bool_decide_eq_true_1].
  apply andb_true_iff in Hdiv as [Hip%validIP_length Hd%negb_true_iff].
  rewrite ContainsAny_normalize in Hd.
  rewrite run_snoc, flat_run_snoc. cbn [call flat_call].
  rewrite GetPTRRecord_reverse by done.
  destruct (RemoveRecord_exact_effect (run ms) d (Some ip) Hd)
    as (_ & _ & Hcase).
  rewrite exact_records_data in Hlen.
  change (exact_set (run ms) (normalize d))
    with (data_at (root (run ms)) (domainToPath (normalize d))) in Hset.
  destruct (run_families ms (normalize d) (normalize_canonical d))
    as [RA R6].
  unfold family_at in RA, R6.
  destruct (data_at (root (run ms)) (domainToPath (normalize d)))
    as [rs|]; [| by destruct Hset].
  destruct Hcase as [_ ->]. split.
  - rewrite delete_ptr_owned_lookup. by rewrite bool_decide_eq_true_2.
  - unfold Flat.GetPTRRecord. rewrite reverse_round_trip by done.
    destruct (To16 ip) as [ip16|] eqn:E16; [| by apply validIP_To16 in E16].
    rewrite (String_To16 ip ip16) by done.
    rewrite Flat_RemoveRecord_ptr by done.
    apply length_zero_iff_nil in Hlen.
    assert (Hlist : (if bool_decide (To4 ip <> None)
                     then Flat.aRecords (flat_run ms)
                     else Flat.aaaaRecords (flat_run ms))
                    !! normalize d = None).
    { unfold family in Hlen.
      destruct (bool_decide (To4 ip <> None)); [rewrite RA | rewrite R6];
        change (select RecordTypeA rs) with (A rs) in *;
        change (select RecordTypeAAAA rs) with (AAAA rs) in *;
        by rewrite Hlen. }
    rewrite Hlist. by rewrite <- (Hsame ip Hip), Hown.
Qed.

End PtrAgreement.

(** ** The two stores (C4) *)

Section TwoStores.
Import Strings Dns Net.

(** C4, as amended.  After every sequence of [AddRecord], [AddPTRRecord],
    [RemoveRecord], [RemovePTRRecord] and [Clear] calls with ASCII names on
    a new store, the trie store and the flat-map store answer alike to
    [HasRecord] and [GetRecords], for a query type A or AAAA and an ASCII
    query name whose lower-cased fully qualified form is stable under
    [Fqdn]: [HasRecord] returns the same result and [GetRecords] returns the
    same addresses, in the same order when the name has an exact record of
    the type or when the two [range] loops visit the wildcard entries in the
    same order, and up to the order of the addresses otherwise.
    [GetPTRRecord] and [HasPTRRecord] return the same results as well, for
    every ASCII name, when no call of the sequence is a [RemoveRecord] of a
    valid address from a name without wildcards made while the name has
    records but none of the family of the address and the PTR entry of the
    address points at the name ([ptr_safe]); no sequence without
    [AddPTRRecord] has such a call.  The condition is the one that is
    needed: when such a call follows a sequence without one, [GetPTRRecord]
    with the reverse name of the address finds nothing in the trie store
    and the name in the flat-map store. *)
Theorem C4_stores_agree
    (ms : list mutator) (d r : string) (q : RecordType)
    (ot : list (string * recordSet)) (ofl : list (string * list IP)) :
  ascii_calls ms ->
  ascii_name d ->
  ascii_name r ->
  q = RecordTypeA \/ q = RecordTypeAAAA ->
  canonical (ToLower (Fqdn d)) ->
  range_order (wildcards (run ms)) ot ->
  range_order (flat_wildcards (flat_run ms) q) ofl ->
  (HasRecord ot (run ms) d q = Flat.HasRecord ofl (flat_run ms) d q
   /\ same_up_to_order (GetRecords ot (run ms) d q)
                       (Flat.GetRecords ofl (flat_run ms) d q)
   /\ (exact_records (run ms) (ToLower (Fqdn d)) q <> [] ->
       GetRecords ot (run ms) d q = Flat.GetRecords ofl (flat_run ms) d q)
   /\ (ofl = flat_view (select q) ot ->
       GetRecords ot (run ms) d q = Flat.GetRecords ofl (flat_run ms) d q))
  /\ (ptr_safe ms ->
      GetPTRRecord (run ms) r = Flat.GetPTRRecord (flat_run ms) r
      /\ HasPTRRecord (run ms) r = Flat.HasPTRRecord (flat_run ms) r)
  /\ (no_AddPTRRecord ms -> ptr_safe ms)
  /\ (forall d' ip,
        ascii_name d' -> ptr_safe ms ->
        ptr_divergent (run ms) (CallRemoveRecord d' (Some ip)) = true ->
        let ms' := ms ++ [CallRemoveRecord d' (Some ip)] in
        GetPTRRecord (run ms') (IPToReverseDNS ip) = (EmptyString, false)
        /\ Flat.GetPTRRecord (flat_run ms') (IPToReverseDNS ip)
           = (normalize d', true)).
Proof.
  intros _ _ _ Hq Hcan Hot Hofl.
  split; [by apply run_GetRecords |].
  split; [intros Hms; by apply GetPTRRecord_same_PTR, run_same_PTR |].
  split; [apply no_AddPTRRecord_safe |].
  intros d' ip _ Hms Hdiv. by apply ptr_divergent_parts.
Qed.

Lemma C4_stores_agree_witness :
  let ms := [CallAddRecord "*.autoco.internal" ip_10_0_0_1;
             CallAddRecord "host.autoco.internal" ip_10_0_0_2;
             CallAddPTRRecord ip_10_0_0_1 "gw.autoco.internal";
             CallAddRecord "*.internal" ip_10_0_0_2;
             CallRemoveRecord "host.autoco.internal" (Some ip_10_0_0_2)] in
  let ot := map_to_list (wildcards (run ms)) in
  let ofl := map_to_list (flat_wildcards (flat_run ms) RecordTypeA) in
  HasRecord ot (run ms) "host.autoco.internal" RecordTypeA
  = Flat.HasRecord ofl (flat_run ms) "host.autoco.internal" RecordTypeA
  /\ same_up_to_order
       (GetRecords ot (run ms) "host.autoco.internal" RecordTypeA)
       (Flat.GetRecords ofl (flat_run ms) "host.autoco.internal"
          RecordTypeA)
  /\ GetPTRRecord (run ms) "1.0.0.10.in-addr.arpa."
     = Flat.GetPTRRecord (flat_run ms) "1.0.0.10.in-addr.arpa.".
Proof.
  intros ms ot ofl.
  destruct (C4_stores_agree ms "host.autoco.internal"
              "1.0.0.10.in-addr.arpa." RecordTypeA ot ofl)
    as ((H1 & H2 & _) & H3 & _).
  - by repeat constructor.
  - reflexivity.
  - reflexivity.
  - left. reflexivity.
  - vm_compute. reflexivity.
  - unfold range_order. reflexivity.
  - unfold range_order. reflexivity.
  - split; [exact H1 |]. split; [exact H2 |].
    apply H3. vm_compute. reflexivity.
Defined.

(** The claim as stated fails.  [RemoveRecord] of an address deletes the PTR
    entry that the name owns: the trie store whenever the name has a record
    set, the flat-map store only when the name has a list of the family of
    the address.  A name that ends in a backslash is filed by the flat-map
    store under a key that its own lookup does not compute.  And two
    wildcard entries that match a name are visited by each store in the
    order of its own map. *)
Lemma C4_counterexample :
  let v6 := [x20; x01; x0d; xb8; x00; x00; x00; x00;
             x00; x00; x00; x00; x00; x00; x00; x01] in
  let ms := [CallAddRecord "a" v6;
             CallAddPTRRecord ip_10_0_0_1 "a";
             CallRemoveRecord "a" (Some ip_10_0_0_1)] in
  let ms' := [CallAddRecord "a\" ip_10_0_0_1] in
  let ms2 := [CallAddRecord "*.internal" ip_10_0_0_1;
              CallAddRecord "*.a.internal" ip_10_0_0_2] in
  let ot := [("*.internal.", mkRecordSet [ip_10_0_0_1] []);
             ("*.a.internal.", mkRecordSet [ip_10_0_0_2] [])] in
  let ofl := [("*.a.internal.", [ip_10_0_0_2]);
              ("*.internal.", [ip_10_0_0_1])] in
  (GetPTRRecord (run ms) "1.0.0.10.in-addr.arpa." = (EmptyString, false)
   /\ Flat.GetPTRRecord (flat_run ms) "1.0.0.10.in-addr.arpa." = ("a.", true)
   /\ HasPTRRecord (run ms) "1.0.0.10.in-addr.arpa." = false
   /\ Flat.HasPTRRecord (flat_run ms) "1.0.0.10.in-addr.arpa." = true)
  /\ (GetRecords [] (run ms') "a\" RecordTypeA = Some [ip_10_0_0_1]
      /\ Flat.GetRecords [] (flat_run ms') "a\" RecordTypeA = None
      /\ HasRecord [] (run ms') "a\" RecordTypeA = true
      /\ Flat.HasRecord [] (flat_run ms') "a\" RecordTypeA = false
      /\ range_order (wildcards (run ms')) []
      /\ range_order (flat_wildcards (flat_run ms') RecordTypeA) [])
  /\ (range_order (wildcards (run ms2)) ot
      /\ range_order (flat_wildcards (flat_run ms2) RecordTypeA) ofl
      /\ GetRecords ot (run ms2) "x.a.internal" RecordTypeA
         = Some [ip_10_0_0_1; ip_10_0_0_2]
      /\ Flat.GetRecords ofl (flat_run ms2) "x.a.internal" RecordTypeA
         = Some [ip_10_0_0_2; ip_10_0_0_1]).
Proof.
  intros v6 ms ms' ms2 ot ofl.
  split; [by vm_compute |]. split; [by vm_compute |].
  split; [| split; [| by vm_compute]].
  - unfold range_order. vm_compute.
    first [reflexivity | apply perm_swap].
  - unfold range_order. vm_compute.
    first [reflexivity | apply perm_swap].
Qed.

End TwoStores.

(** * Further properties of the code *)

(** ** [matchWildcard] against the reading of the wildcards *)

Section GlobFacts.
Import Strings.

Lemma match_at_end (pre dpre ds : string) :
  matchWildcardInternal pre (dpre +:+ ds)
    (String.length pre) (String.length dpre)
  = Some (bool_decide (ds = EmptyString)).
Proof.
  rewrite matchWildcardInternal_eq. unfold matchWildcardInternal_body.
  rewrite Nat.eqb_refl, slength_app. simpl.
  destruct ds as [|c ds]; simpl.
  - by rewrite Nat.add_0_r, Nat.eqb_refl.
  - by replace (_ =? _) with false by (symmetry; apply Nat.eqb_neq; lia).
Qed.

Lemma length_lt_middle (pre ps : string) (a : ascii) :
  (String.length pre =? String.length pre + S (String.length ps)) = false.
Proof. apply Nat.eqb_neq. lia. Qed.

(** A star that is not the anchored star of the start of the pattern. *)
Lemma match_star_step (pre ps dpre ds : string) :
  (pre = EmptyString -> forall s, ps <> "." +:+ s) ->
  matchWildcardInternal (pre +:+ String "*"%char ps) (dpre +:+ ds)
    (String.length pre) (String.length dpre)
  = match matchWildcardInternal (pre +:+ String "*"%char ps) (dpre +:+ ds)
            (String.length pre + 1) (String.length dpre) with
    | Some true => Some true
    | Some false =>
        match ds with
        | EmptyString => Some false
        | String _ _ =>
            matchWildcardInternal (pre +:+ String "*"%char ps) (dpre +:+ ds)
              (String.length pre) (String.length dpre + 1)
        end
    | None => None
    end.
Proof.
  intros Hpre.
  rewrite matchWildcardInternal_eq at 1. unfold matchWildcardInternal_body.
  rewrite !slength_app, at_middle. simpl String.length.
  rewrite (length_lt_middle pre ps "*"%char), andb_false_l.
  rewrite bool_decide_eq_true_2 by done.
  assert (Hcond : (String.length pre =? 0)
                  && (String.length pre + 1
                      <? String.length pre + S (String.length ps))
                  && bool_decide
                       (at_ (pre +:+ String "*"%char ps)
                            (String.length pre + 1) = Some "."%char)
                  = false).
  { destruct pre as [|x pre]; [| done].
    specialize (Hpre eq_refl). rewrite sapp_nil_l. simpl.
    destruct ps as [|c ps]; [done |]. simpl.
    rewrite bool_decide_eq_false_2; [done |].
    intros [= ->]. by apply (Hpre ps). }
  rewrite Hcond.
  destruct (matchWildcardInternal _ _ (String.length pre + 1) _)
    as [[|]|]; try done.
  destruct ds as [|c ds]; simpl.
  - by replace (_ <? _) with false by (symmetry; apply Nat.ltb_ge; lia).
  - by replace (_ <? _) with true by (symmetry; apply Nat.ltb_lt; lia).
Qed.

Lemma match_qmark_step (pre ps dpre ds : string) :
  matchWildcardInternal (pre +:+ String "?"%char ps) (dpre +:+ ds)
    (String.length pre) (String.length dpre)
  = match ds with
    | EmptyString => Some false
    | String _ _ =>
        matchWildcardInternal (pre +:+ String "?"%char ps) (dpre +:+ ds)
          (String.length pre + 1) (String.length dpre + 1)
    end.
Proof.
  rewrite matchWildcardInternal_eq at 1. unfold matchWildcardInternal_body.
  rewrite !slength_app, at_middle. simpl String.length.
  rewrite (length_lt_middle pre ps "?"%char), andb_false_l.
  rewrite (bool_decide_eq_false_2 (Some "?"%char = Some "*"%char)) by done.
  rewrite bool_decide_eq_true_2 by done.
  destruct ds as [|c ds]; simpl.
  - by replace (_ <=? _) with true by (symmetry; apply Nat.leb_le; lia).
  - by replace (_ <=? _) with false by (symmetry; apply Nat.leb_gt; lia).
Qed.

Lemma match_byte_step (pre ps dpre ds : string) (a : ascii) :
  a <> "*"%char -> a <> "?"%char ->
  matchWildcardInternal (pre +:+ String a ps) (dpre +:+ ds)
    (String.length pre) (String.length dpre)
  = match ds with
    | EmptyString => Some false
    | String c _ =>
        if bool_decide (a = c)
        then matchWildcardInternal (pre +:+ String a ps) (dpre +:+ ds)
               (String.length pre + 1) (String.length dpre + 1)
        else Some false
    end.
Proof.
  intros Ha1 Ha2.
  rewrite matchWildcardInternal_eq at 1. unfold matchWildcardInternal_body.
  rewrite !slength_app, at_middle. simpl String.length.
  rewrite (length_lt_middle pre ps a), andb_false_l.
  rewrite (bool_decide_eq_false_2 (Some a = Some "*"%char)) by congruence.
  rewrite (bool_decide_eq_false_2 (Some a = Some "?"%char)) by congruence.
  destruct ds as [|c ds]; simpl.
  - by replace (_ <=? _) with true by (symmetry; apply Nat.leb_le; lia).
  - replace (_ <=? _) with false by (symmetry; apply Nat.leb_gt; lia).
    rewrite at_middle. simpl.
    destruct (decide (a = c)) as [->|Hac].
    + by rewrite !bool_decide_eq_true_2.
    + by rewrite !bool_decide_eq_false_2 by congruence.
Qed.

Lemma shift_byte (pre s : string) (a : ascii) :
  pre +:+ String a s = (pre +:+ String a EmptyString) +:+ s
  /\ String.length (pre +:+ String a EmptyString) = String.length pre + 1
  /\ pre +:+ String a EmptyString <> EmptyString.
Proof.
  rewrite sapp_assoc, sapp_cons, sapp_nil_l, slength_app.
  repeat split. by destruct pre.
Qed.

(** From a position past the start, or in a pattern that does not start
    with a star and a dot, the matcher decides [glob]. *)
Lemma match_glob (ps pre dpre ds : string) :
  (pre = EmptyString -> forall s, ps <> "*." +:+ s) ->
  matchWildcardInternal (pre +:+ ps) (dpre +:+ ds)
    (String.length pre) (String.length dpre) = Some true
  <-> glob ps ds.
Proof.
  revert pre dpre ds. induction ps as [|a ps IH]; intros pre dpre ds Hpre.
  { rewrite sapp_nil_r, match_at_end. split.
    - intros [= H]. apply bool_decide_eq_true_1 in H. subst ds. constructor.
    - inversion 1. done. }
  assert (Hnext : forall dpre ds,
             matchWildcardInternal (pre +:+ String a ps) (dpre +:+ ds)
               (String.length pre + 1) (String.length dpre) = Some true
             <-> glob ps ds).
  { intros dpre' ds'.
    destruct (shift_byte pre ps a) as (-> & <- & Hne).
    apply IH. by intros E. }
  destruct (decide (a = "*"%char)) as [->|Hstar].
  - revert dpre. induction ds as [|c ds IHd]; intros dpre.
    + rewrite match_star_step
        by (intros E s ->; by apply (Hpre E s)).
      destruct (matchWildcardInternal_total (pre +:+ String "*"%char ps)
                  (dpre +:+ EmptyString) (String.length pre + 1)
                  (String.length dpre)) as [[|] Hb]; rewrite Hb.
      * split; [| done]. intros _. apply glob_star_none.
        exact (proj1 (Hnext _ _) Hb).
      * split; [done |]. inversion 1; subst.
        match goal with
        | H : glob ps _ |- _ => apply (Hnext dpre) in H
        end.
        congruence.
    + rewrite match_star_step
        by (intros E s ->; by apply (Hpre E s)).
      destruct (matchWildcardInternal_total (pre +:+ String "*"%char ps)
                  (dpre +:+ String c ds) (String.length pre + 1)
                  (String.length dpre)) as [[|] Hb]; rewrite Hb.
      * split; [| done]. intros _. apply glob_star_none.
        exact (proj1 (Hnext _ _) Hb).
      * destruct (shift_byte dpre ds c) as (-> & <- & _).
        rewrite IHd. split.
        -- intros H. by apply glob_star_more.
        -- inversion 1; subst; try done.
           match goal with
           | H : glob ps _ |- _ => apply (Hnext dpre) in H
           end.
           destruct (shift_byte dpre ds c) as (E & _ & _).
           rewrite E in *. congruence.
  - destruct (decide (a = "?"%char)) as [->|Hq].
    + rewrite match_qmark_step. destruct ds as [|c ds].
      * split; [done | inversion 1].
      * destruct (shift_byte dpre ds c) as (-> & <- & _).
        rewrite Hnext. split; [by constructor | by inversion 1].
    + rewrite match_byte_step by done. destruct ds as [|c ds].
      * split; [done | inversion 1; done].
      * destruct (decide (a = c)) as [<-|Hac].
        -- rewrite bool_decide_eq_true_2 by done.
           destruct (shift_byte dpre ds a) as (-> & <- & _).
           rewrite Hnext. split; [by constructor | by inversion 1].
        -- rewrite bool_decide_eq_false_2 by done.
           split; [done | inversion 1; done].
Qed.

Lemma first_true_true (f : nat -> option bool) (i n : nat) :
  (forall j, is_Some (f j)) ->
  first_true f i n = Some true
  <-> exists j, i <= j < i + n /\ f j = Some true.
Proof.
  intros Hf. revert i; induction n as [|n IH]; intros i; simpl.
  - split; [done | intros (j & ? & _); lia].
  - destruct (Hf i) as [[|] Hi]; rewrite Hi.
    + split; [| done]. intros _. exists i. split; [lia | done].
    + rewrite IH. split; intros (j & Hj & Hfj).
      * exists j. split; [lia | done].
      * exists j. split; [| done].
        destruct (decide (j = i)) as [->|]; [congruence | lia].
Qed.

Lemma substring_0_length_le (s : string) (n : nat) :
  n <= String.length s -> String.length (String.substring 0 n s) = n.
Proof.
  revert n; induction s as [|c s IH]; intros n Hn; simpl in Hn.
  - by replace n with 0 by lia.
  - destruct n as [|n]; simpl; [done |]. rewrite IH; [done | lia].
Qed.

Lemma anchored_dec (p : string) :
  {s | p = "*." +:+ s} + {forall s, p <> "*." +:+ s}.
Proof.
  destruct p as [|a [|b s]]; [by right | by right |].
  destruct (decide (a = "*"%char)) as [->|Ha];
    [| right; intros s' [= ? _]; done].
  destruct (decide (b = "."%char)) as [->|Hb];
    [| right; intros s' [= ? _]; done].
  left. by exists s.
Qed.

Lemma matchWildcard_anchored (s d : string) :
  matchWildcard ("*." +:+ s) d = true
  <-> exists x ds, x <> EmptyString /\ d = x +:+ ds /\ glob ("." +:+ s) ds.
Proof.
  unfold matchWildcard. rewrite match_anchored.
  destruct d as [|c d].
  { simpl. split; [done |]. intros (x & ds & Hx & Hd & _).
    destruct x; [done | discriminate]. }
  simpl (0 =? _). cbv iota.
  assert (Hglob : forall x ds,
             matchWildcardInternal ("*." +:+ s) (x +:+ ds) 1
               (String.length x) = Some true
             <-> glob ("." +:+ s) ds).
  { intros x ds.
    apply (match_glob ("." +:+ s) (String "*"%char EmptyString) x ds).
    done. }
  destruct (first_true _ _ _) as [[|]|] eqn:E.
  - split; [intros _ | done].
    apply first_true_true in E
      as (j & Hj & Hm); [| intros; apply matchWildcardInternal_total].
    set (dd := String c d) in *.
    assert (Hle : j <= String.length dd) by lia.
    pose proof (substring_split dd j Hle) as Hsplit.
    exists (String.substring 0 j dd),
           (String.substring j (String.length dd - j) dd).
    split; [| split; [done |]].
    + intros E0. apply (f_equal String.length) in E0.
      rewrite substring_0_length_le in E0 by done. simpl in E0. lia.
    + apply (Hglob (String.substring 0 j dd)). rewrite <- Hsplit.
      by rewrite substring_0_length_le.
  - split; [done |]. intros (x & ds & Hx & Hd & Hg). exfalso.
    assert (first_true (matchWildcardInternal ("*." +:+ s) (String c d) 1) 1
              (String.length (String c d) - 0) = Some true) as E'.
    { apply first_true_true; [intros; apply matchWildcardInternal_total |].
      exists (String.length x). rewrite Hd, slength_app. split.
      - destruct x; [done | simpl; lia].
      - by apply (Hglob x ds). }
    congruence.
  - exfalso.
    destruct (first_true_is_Some
                (matchWildcardInternal ("*." +:+ s) (String c d) 1) 1
                (String.length (String c d) - 0)) as [b Hb].
    + intros; apply matchWildcardInternal_total.
    + congruence.
Qed.

Lemma matchWildcard_plain (p d : string) :
  (forall s, p <> "*." +:+ s) ->
  matchWildcard p d = true <-> glob p d.
Proof.
  intros Hp. unfold matchWildcard.
  pose proof (match_glob p EmptyString EmptyString d (fun _ => Hp)) as H.
  rewrite !sapp_nil_l in H. simpl in H. rewrite <- H.
  destruct (matchWildcardInternal p d 0 0) as [[|]|]; split; congruence.
Qed.

End GlobFacts.

(** X1.  [matchWildcard] returns true exactly on the names the pattern
    stands for: [*] takes any run of bytes, dots included, [?] takes one
    byte, every other byte takes itself, and a pattern that starts with
    [*.] asks for at least one byte before that dot. *)
Theorem X1_matchWildcard_decides_wildcard_match (p d : string) :
  matchWildcard p d = true <-> wildcard_match p d.
Proof.
  destruct (anchored_dec p) as [[s ->] | Hp].
  - rewrite matchWildcard_anchored. split.
    + intros (x & ds & Hx & -> & Hg). by constructor.
    + intros H. remember ("*." +:+ s) as p eqn:Ep.
      destruct H as [s' x ds Hx Hg | p d Hp Hg].
      * change (String "*"%char (String "."%char s')
                = String "*"%char (String "."%char s)) in Ep.
        injection Ep as ->. by exists x, ds.
      * by destruct (Hp s).
  - rewrite matchWildcard_plain by done. split.
    + intros Hg. by apply wildcard_plain.
    + intros H. destruct H as [s' x ds Hx Hg | p d Hp' Hg]; [| done].
      by destruct (Hp s').
Qed.

(** ** Names as the calls read them *)

Section QueryNames.
Import Strings Dns Net.

Lemma Fqdn_ToLower (s : string) : Fqdn (ToLower s) = ToLower (Fqdn s).
Proof.
  unfold Fqdn. rewrite IsFqdn_ToLower.
  destruct (IsFqdn s); [done |]. by rewrite ToLower_app.
Qed.

(** The name of a query is lower-cased after [Fqdn], so it depends on the
    lower-cased name only. *)
Lemma query_name_ToLower (d : string) :
  ToLower (Fqdn d) = ToLower (Fqdn (ToLower d)).
Proof. by rewrite Fqdn_ToLower, ToLower_idem. Qed.

Lemma length_0_empty (s : string) :
  (String.length s =? 0) = bool_decide (s = EmptyString).
Proof. by destruct s. Qed.

Lemma normalize_ToLower (d : string) : normalize (ToLower d) = normalize d.
Proof.
  unfold normalize. rewrite ToLower_length.
  rewrite (at_ToLower_is d _ "."%char) by apply lower_byte_is_dot.
  destruct (_ || _).
  - replace (ToLower d +:+ ".") with (ToLower (d +:+ "."))
      by (by rewrite ToLower_app).
    by rewrite <- query_name_ToLower.
  - by rewrite <- query_name_ToLower.
Qed.

(** The name under which a mutator files a record is the name of a query
    for it, up to a further [Fqdn]. *)
Lemma normalize_query (d : string) :
  ToLower (Fqdn (ToLower (Fqdn d))) = normalize d.
Proof.
  pose proof (normalize_canonical d) as Hcan. unfold canonical in Hcan.
  unfold normalize in *.
  destruct (String.length d =? 0) eqn:E0; simpl in *.
  { apply Nat.eqb_eq in E0. destruct d; [| done]. by vm_compute. }
  destruct (bool_decide (at_ d (String.length d - 1) = Some "."%char))
    eqn:Edot; simpl in *.
  - done.
  - assert (Hf : IsFqdn d = false).
    { unfold IsFqdn. by rewrite Edot, orb_true_r. }
    unfold Fqdn at 2. rewrite Hf.
    by rewrite Fqdn_ToLower, ToLower_idem.
Qed.

Lemma domainToPath_query (d : string) :
  domainToPath (ToLower (Fqdn d)) = domainToPath (normalize d).
Proof.
  pose proof (normalize_canonical d) as Hcan. unfold canonical in Hcan.
  unfold domainToPath. by rewrite normalize_query, Hcan.
Qed.

Lemma exact_records_query (s : DNSRecordStore) (d : string)
    (q : RecordType) :
  exact_records s (ToLower (Fqdn d)) q = exact_records s (normalize d) q.
Proof. unfold exact_records, exact_set. by rewrite domainToPath_query. Qed.

End QueryNames.

(** X2.  The names are case-insensitive: two names that agree after
    lower-casing are the same name to every call of the store. *)
Theorem X2_names_are_case_insensitive
    (order : list (string * recordSet)) (s : DNSRecordStore)
    (d d' : string) (ip : Net.IP) (oip : option Net.IP) (q : RecordType) :
  Strings.ToLower d = Strings.ToLower d' ->
  AddRecord s d ip = AddRecord s d' ip
  /\ AddPTRRecord s ip d = AddPTRRecord s ip d'
  /\ RemoveRecord s d oip = RemoveRecord s d' oip
  /\ GetRecords order s d q = GetRecords order s d' q
  /\ HasRecord order s d q = HasRecord order s d' q
  /\ GetPTRRecord s d = GetPTRRecord s d'
  /\ HasPTRRecord s d = HasPTRRecord s d'.
Proof.
  intros H.
  assert (Hn : normalize d = normalize d')
    by (by rewrite <- (normalize_ToLower d), H, normalize_ToLower).
  assert (Hq : Strings.ToLower (Dns.Fqdn d) = Strings.ToLower (Dns.Fqdn d'))
    by (by rewrite (query_name_ToLower d), H, <- query_name_ToLower).
  unfold AddRecord, AddPTRRecord, RemoveRecord, GetRecords, HasRecord,
    GetPTRRecord, HasPTRRecord, reverseDNSToIP.
  by rewrite Hn, Hq.
Qed.

Lemma X2_names_are_case_insensitive_witness :
  let s := (AddRecord NewDNSRecordStore "Host.Example.COM" ip_10_0_0_1).1 in
  GetRecords [] s "host.example.com" RecordTypeA
  = GetRecords [] s "HOST.EXAMPLE.COM" RecordTypeA
  /\ GetRecords [] s "HOST.EXAMPLE.COM" RecordTypeA = Some [ip_10_0_0_1].
Proof.
  intros s.
  destruct (X2_names_are_case_insensitive [] s "host.example.com"
              "HOST.EXAMPLE.COM" ip_10_0_0_1 None RecordTypeA)
    as (_ & _ & _ & H & _).
  - reflexivity.
  - split; [exact H | reflexivity].
Defined.

(** ** ASCII names *)

Section AsciiNames.
Import Strings Dns.

Lemma isASCII_app (a b : string) :
  isASCII (a +:+ b) = isASCII a && isASCII b.
Proof.
  induction a as [|c a IH]; [by rewrite sapp_nil_l |].
  rewrite sapp_cons. simpl. by rewrite IH, andb_assoc.
Qed.

Lemma lower_byte_ascii (c : ascii) :
  (nat_of_ascii (lower_byte c) <? 128) = (nat_of_ascii c <? 128).
Proof.
  unfold lower_byte.
  destruct ((65 <=? nat_of_ascii c) && (nat_of_ascii c <=? 90)) eqn:E;
    [| done].
  apply andb_true_iff in E as [E1%Nat.leb_le E2%Nat.leb_le].
  rewrite nat_ascii_embedding by lia.
  transitivity true; [| symmetry]; apply Nat.ltb_lt; lia.
Qed.

Lemma isASCII_ToLower (s : string) : isASCII (ToLower s) = isASCII s.
Proof.
  induction s as [|c s IH]; [done |].
  simpl. by rewrite lower_byte_ascii, IH.
Qed.

Lemma ascii_name_Fqdn (s : string) : ascii_name s -> ascii_name (Fqdn s).
Proof.
  unfold ascii_name, Fqdn. intros H. destruct (IsFqdn s); [done |].
  by rewrite isASCII_app, H.
Qed.

(** The name that a mutator files for an ASCII name is ASCII. *)
Lemma ascii_name_normalize (d : string) :
  ascii_name d -> ascii_name (normalize d).
Proof.
  intros H. unfold normalize, ascii_name. rewrite isASCII_ToLower.
  apply ascii_name_Fqdn. unfold ascii_name.
  destruct (_ || _); [| done]. by rewrite isASCII_app, H.
Qed.

End AsciiNames.

(** X3.  The name that a mutator files for an ASCII name is an ASCII name
    and a fixed point of the normalization of the mutators and of that of
    the queries: a name that [GetPTRRecord] returns can be passed back to
    any call unchanged. *)
Theorem X3_normalize_stable (d : string) :
  ascii_name d ->
  ascii_name (normalize d)
  /\ normalize (normalize d) = normalize d
  /\ Strings.ToLower (Dns.Fqdn (normalize d)) = normalize d
  /\ Dns.IsFqdn (normalize d) = true.
Proof.
  intros Hascii. split; [by apply ascii_name_normalize |].
  pose proof (normalize_canonical d) as Hcan. unfold canonical in Hcan.
  assert (Hfq : Dns.IsFqdn (normalize d) = true).
  { destruct (Dns.IsFqdn (normalize d)) eqn:E; [done |].
    unfold Dns.Fqdn in Hcan. rewrite E, ToLower_app in Hcan.
    apply (f_equal String.length) in Hcan.
    rewrite slength_app, ToLower_length in Hcan. simpl in Hcan. lia. }
  split; [| by split].
  destruct (IsFqdn_ends_in_dot _ Hfq) as [t Ht].
  assert (Hat : Strings.at_ (normalize d) (String.length (normalize d) - 1)
                = Some "."%char).
  { rewrite Ht, slength_app. simpl String.length.
    replace (String.length t + 1 - 1) with (String.length t) by lia.
    apply at_middle. }
  assert (Hlen : (String.length (normalize d) =? 0) = false).
  { rewrite Ht, slength_app. simpl. apply Nat.eqb_neq. lia. }
  unfold normalize at 1. rewrite Hlen, Hat.
  by rewrite bool_decide_eq_true_2.
Qed.

Lemma X3_normalize_stable_witness :
  ascii_name "Host.Example.COM"
  /\ ascii_name "host.example.com."
  /\ normalize "host.example.com." = "host.example.com."
  /\ Strings.ToLower (Dns.Fqdn "host.example.com.") = "host.example.com."
  /\ Dns.IsFqdn "host.example.com." = true.
Proof.
  split; [reflexivity |].
  apply (X3_normalize_stable "Host.Example.COM"). reflexivity.
Defined.

(** ** What [AddRecord] files, and where the queries find it *)

Section AddLookup.
Import Strings Dns Net.

Lemma invalid_To4_To16 (ip : IP) :
  ~ validIP ip -> To4 ip = None /\ To16 ip = None.
Proof.
  intros Hip. unfold To4, To16, validIP in *.
  destruct (length ip =? 4) eqn:E4; [apply Nat.eqb_eq in E4; tauto |].
  destruct (length ip =? 16) eqn:E16; [apply Nat.eqb_eq in E16; tauto |].
  done.
Qed.

(** [HasRecord] in terms of the trie lookup and of the wildcard loop. *)
Lemma HasRecord_unfold (order : list (string * recordSet))
    (s : DNSRecordStore) (d : string) (q : RecordType) :
  q = RecordTypeA \/ q = RecordTypeAAAA ->
  HasRecord order s d q
  = (0 <? length (exact_records s (ToLower (Fqdn d)) q))
    || has_wildcard order (ToLower (Fqdn d)) q.
Proof.
  intros Hq. unfold HasRecord, exact_records, exact_set.
  destruct (walk _ _) as [node|]; [| done].
  destruct (data node) as [rs|]; [| done].
  unfold select. destruct Hq as [-> | ->]; simpl.
  - rewrite orb_false_r. by destruct (0 <? length (A rs)).
  - by destruct (0 <? length (AAAA rs)).
Qed.

Lemma family_is_A_or_AAAA (ip : IP) :
  let q := if bool_decide (To4 ip <> None)
           then RecordTypeA else RecordTypeAAAA in
  q = RecordTypeA \/ q = RecordTypeAAAA.
Proof. simpl. destruct (bool_decide _); auto. Qed.

Lemma slice_result_nonempty (l : list IP) :
  l <> [] -> slice_result l = Some l.
Proof. by destruct l. Qed.

Lemma elem_of_concat (x : IP) (l : list IP) (ls : list (list IP)) :
  x ∈ l -> l ∈ ls -> x ∈ concat ls.
Proof.
  intros Hx Hl. induction ls as [|l' ls IH]; [by apply elem_of_nil in Hl |].
  simpl. apply elem_of_app.
  apply elem_of_cons in Hl as [<- | Hl]; [by left | right; by apply IH].
Qed.

Lemma select_other_append_ip (ip : IP) (rs : recordSet) (q : RecordType) :
  let v4 := bool_decide (To4 ip <> None) in
  q = (if v4 then RecordTypeAAAA else RecordTypeA) ->
  select q (append_ip v4 ip rs) = select q rs.
Proof. simpl. intros ->. by destruct (bool_decide _). Qed.

Lemma exact_records_other (s s' : DNSRecordStore) (n nd : string)
    (q : RecordType) :
  canonical n -> canonical nd -> n <> nd ->
  (forall p, p <> domainToPath nd ->
     data_at (root s') p = data_at (root s) p) ->
  exact_records s' n q = exact_records s n q.
Proof.
  intros Hn Hnd Hne Hother. rewrite !exact_records_data.
  rewrite Hother; [done |]. intros E. by apply Hne, domainToPath_inj.
Qed.

End AddLookup.

(** X4.  [AddRecord] fails exactly on an address that has neither 4 nor 16
    bytes: it then returns a [ParseError] of type ["IP address"] with the
    text of the address and leaves the store as it was; with any other
    address it returns no error.  The flat-map store does the same. *)
Theorem X4_AddRecord_rejects_invalid_addresses
    (s : DNSRecordStore) (f : Flat.DNSRecordStore) (d : string)
    (ip : Net.IP) :
  ((AddRecord s d ip).2 = None <-> validIP ip)
  /\ ((Flat.AddRecord f d ip).2 = None <-> validIP ip)
  /\ (~ validIP ip ->
      AddRecord s d ip
      = (s, Some (mkParseError "IP address" (Net.String_ ip)))
      /\ Flat.AddRecord f d ip
         = (f, Some (mkParseError "IP address" (Net.String_ ip)))).
Proof.
  destruct (decide (validIP ip)) as [Hip | Hip].
  - pose proof (AddRecord_valid_guard ip Hip) as Hg.
    pose proof (validIP_To16 ip Hip) as H16.
    split; [| split; [| done]].
    + split; [done | intros _].
      unfold AddRecord. rewrite Hg. by destruct (Strings.ContainsAny _ _).
    + split; [done | intros _].
      unfold Flat.AddRecord.
      destruct (bool_decide (Net.To4 ip <> None));
        [by destruct (Strings.ContainsAny _ _) |].
      rewrite bool_decide_eq_true_2 by done.
      by destruct (Strings.ContainsAny _ _).
  - destruct (invalid_To4_To16 ip Hip) as [H4 H16].
    assert (Ht : AddRecord s d ip
                 = (s, Some (mkParseError "IP address" (Net.String_ ip)))).
    { unfold AddRecord. by rewrite H4, H16. }
    assert (Hf : Flat.AddRecord f d ip
                 = (f, Some (mkParseError "IP address" (Net.String_ ip)))).
    { unfold Flat.AddRecord. by rewrite H4, H16. }
    rewrite Ht, Hf. simpl. split; [split; done |]. split; [split; done |].
    done.
Qed.

(** X5.  After [AddRecord] of a valid address under an ASCII name without
    wildcards, [GetRecords] with that name and the type of the address
    returns the addresses the name had, followed by the new one, whatever
    the wildcard entries; [HasRecord] is true; and [GetPTRRecord] with the
    reverse name of the address returns the normalized name.  The list of
    the other type, the records of every other ASCII name, the other PTR
    entries and the wildcard entries are as before. *)
Theorem X5_AddRecord_then_lookup
    (order : list (string * recordSet)) (s : DNSRecordStore) (d : string)
    (ip : Net.IP) :
  ascii_name d ->
  validIP ip ->
  Strings.ContainsAny d "*?" = false ->
  let v4 := bool_decide (Net.To4 ip <> None) in
  let q := if v4 then RecordTypeA else RecordTypeAAAA in
  let q' := if v4 then RecordTypeAAAA else RecordTypeA in
  let s' := (AddRecord s d ip).1 in
  GetRecords order s' d q = Some (exact_records s (normalize d) q ++ [ip])
  /\ HasRecord order s' d q = true
  /\ GetPTRRecord s' (IPToReverseDNS ip) = (normalize d, true)
  /\ exact_records s' (normalize d) q' = exact_records s (normalize d) q'
  /\ (forall n q0, ascii_name n -> canonical n -> n <> normalize d ->
        exact_records s' n q0 = exact_records s n q0)
  /\ (forall k, k <> Net.String_ ip ->
        ptrRecords s' !! k = ptrRecords s !! k)
  /\ wildcards s' = wildcards s.
Proof.
  intros _ Hip Hd v4 q q' s'.
  destruct (AddRecord_effect s d ip)
    as [[Hno _] | [(_ & Hd' & _) | (_ & _ & Hwild & Hp & Hdat & Hoth)]];
    [done | congruence |].
  fold s' in Hwild, Hp, Hdat, Hoth.
  assert (Hex : exact_records s' (normalize d) q
                = exact_records s (normalize d) q ++ [ip]).
  { rewrite !exact_records_data, Hdat. unfold q, v4.
    rewrite select_append_ip.
    by destruct (data_at (root s) (domainToPath (normalize d))),
                (bool_decide (Net.To4 ip <> None)). }
  assert (Hlen : (0 <? length (exact_records s' (normalize d) q)) = true).
  { rewrite Hex, length_app. simpl. apply Nat.ltb_lt. lia. }
  split; [| split; [| split; [| split; [| split; [| split; [| done]]]]]].
  - rewrite GetRecords_unfold. cbv zeta.
    by rewrite exact_records_query, Hlen, Hex.
  - rewrite HasRecord_unfold by apply family_is_A_or_AAAA.
    by rewrite exact_records_query, Hlen.
  - rewrite GetPTRRecord_reverse, Hp by done. by rewrite lookup_insert_eq.
  - rewrite !exact_records_data, Hdat. unfold q', v4.
    rewrite select_other_append_ip by done.
    by destruct (data_at (root s) (domainToPath (normalize d))),
                (bool_decide (Net.To4 ip <> None)).
  - intros n q0 _ Hn Hne.
    apply (exact_records_other s s' n (normalize d)); try done.
    apply normalize_canonical.
  - intros k Hk. rewrite Hp. by rewrite lookup_insert_ne.
Qed.

Lemma X5_AddRecord_then_lookup_witness :
  let s := (AddRecord NewDNSRecordStore "Host.Internal" ip_10_0_0_1).1 in
  let s' := (AddRecord s "host.internal." ip_10_0_0_2).1 in
  GetRecords [] s' "host.internal." RecordTypeA
  = Some [ip_10_0_0_1; ip_10_0_0_2]
  /\ GetPTRRecord s' "2.0.0.10.in-addr.arpa." = ("host.internal.", true).
Proof.
  intros s s'.
  destruct (X5_AddRecord_then_lookup [] s "host.internal." ip_10_0_0_2)
    as (H1 & _ & H3 & _).
  - reflexivity.
  - left. reflexivity.
  - reflexivity.
  - split; [exact H1 | exact H3].
Defined.

(** X6.  After [AddRecord] of a valid address under a pattern with a
    wildcard, a query of the type of the address for a name that the
    pattern matches and that has no exact record of that type gets the
    address, among those of the matching wildcard entries; the other
    wildcard entries, the trie and the PTR table are as before. *)
Theorem X6_AddRecord_wildcard_then_lookup
    (order : list (string * recordSet)) (s : DNSRecordStore)
    (p d : string) (ip : Net.IP) :
  validIP ip ->
  Strings.ContainsAny p "*?" = true ->
  let q := if bool_decide (Net.To4 ip <> None)
           then RecordTypeA else RecordTypeAAAA in
  let s' := (AddRecord s p ip).1 in
  let name := Strings.ToLower (Dns.Fqdn d) in
  range_order (wildcards s') order ->
  matchWildcard (normalize p) name = true ->
  exact_records s' name q = [] ->
  (exists l, GetRecords order s' d q = Some l /\ ip ∈ l)
  /\ HasRecord order s' d q = true
  /\ (forall p', p' <> normalize p ->
        wildcards s' !! p' = wildcards s !! p')
  /\ root s' = root s
  /\ ptrRecords s' = ptrRecords s.
Proof.
  intros Hip Hp q s' name Horder Hm Hex.
  destruct (AddRecord_effect s p ip)
    as [[Hno _] | [(_ & _ & Hr & Hptr & Hwild) | (_ & Hp' & _)]];
    [done | | congruence].
  fold s' in Hr, Hptr, Hwild.
  set (rs := append_ip (bool_decide (Net.To4 ip <> None)) ip
               (default (mkRecordSet [] []) (wildcards s !! normalize p)))
    in *.
  assert (Hin : (normalize p, rs) ∈ order).
  { rewrite Horder. apply elem_of_map_to_list.
    rewrite Hwild. apply lookup_insert_eq. }
  assert (Hsel : ip ∈ select q rs).
  { unfold q, rs. rewrite select_append_ip.
    apply elem_of_app. right. by left. }
  assert (Hne : select q rs <> []).
  { intros E. rewrite E in Hsel. by apply elem_of_nil in Hsel. }
  split; [| split; [| split; [| done]]].
  3:{ intros p' Hp'. rewrite Hwild. by rewrite lookup_insert_ne. }
  - rewrite GetRecords_unfold. cbv zeta. fold name. rewrite Hex. simpl.
    set (l := concat (select q <$> (filter (matching name) order).*2)).
    assert (Hl : ip ∈ l).
    { unfold l. apply (elem_of_concat ip (select q rs)); [done |].
      apply list_elem_of_fmap. exists rs. split; [done |].
      apply list_elem_of_fmap. exists (normalize p, rs). split; [done |].
      by apply list_elem_of_filter. }
    exists l. split; [| done]. apply slice_result_nonempty.
    intros E. rewrite E in Hl. by apply elem_of_nil in Hl.
  - rewrite HasRecord_unfold by apply family_is_A_or_AAAA.
    fold name. rewrite Hex. simpl.
    apply has_wildcard_true; [apply family_is_A_or_AAAA |].
    by exists (normalize p, rs).
Qed.

Lemma X6_AddRecord_wildcard_then_lookup_witness :
  let s' := (AddRecord NewDNSRecordStore "*.Internal" ip_10_0_0_1).1 in
  (exists l, GetRecords (map_to_list (wildcards s')) s' "Host.internal"
               RecordTypeA = Some l /\ ip_10_0_0_1 ∈ l)
  /\ HasRecord (map_to_list (wildcards s')) s' "Host.internal" RecordTypeA
     = true.
Proof.
  intros s'.
  destruct (X6_AddRecord_wildcard_then_lookup (map_to_list (wildcards s'))
              NewDNSRecordStore "*.Internal" "Host.internal" ip_10_0_0_1)
    as (H1 & H2 & _).
  - left. reflexivity.
  - reflexivity.
  - unfold range_order. reflexivity.
  - vm_compute. reflexivity.
  - vm_compute. reflexivity.
  - split; [exact H1 | exact H2].
Defined.

(** ** What [RemoveRecord] removes *)

Section RemoveFacts.
Import Strings Dns Net.

Lemma select_pruned (rs : recordSet) (q : RecordType) :
  match (if is_empty_set rs then None else Some rs) with
  | Some rs => select q rs
  | None => []
  end = select q rs.
Proof.
  destruct (is_empty_set rs) eqn:E; [| done].
  apply is_empty_set_ne in E as [Ea E6]. unfold select.
  destruct (A rs), (AAAA rs); try done. by destruct (q =? RecordTypeA)%N.
Qed.

Lemma select_without (ip : IP) (rs : recordSet) :
  select (family ip) (without ip rs) = removeIP (select (family ip) rs) ip
  /\ select (other_family ip) (without ip rs) = select (other_family ip) rs.
Proof.
  unfold family, other_family, without.
  by destruct (bool_decide (To4 ip <> None)).
Qed.

Lemma removeIP_none_equal (l : list IP) (ip : IP) :
  Forall (fun x => Equal x ip = false) (removeIP l ip).
Proof.
  unfold removeIP. apply Forall_forall.
  by intros x [Hx _]%list_elem_of_filter.
Qed.

Lemma foldl_delete_ptr_owned_other (nd : string) (ptr : gmap string string)
    (l : list IP) (k n : string) :
  ptr !! k = Some n -> n <> nd ->
  foldl (delete_ptr_owned nd) ptr l !! k = Some n.
Proof.
  revert ptr; induction l as [|ip l IH]; intros ptr Hk Hn; simpl; [done |].
  apply IH; [| done]. rewrite delete_ptr_owned_lookup.
  rewrite bool_decide_eq_false_2; [done |]. intros [_ E]. congruence.
Qed.

Lemma store_eta (s : DNSRecordStore) :
  mkStore (root s) (wildcards s) (ptrRecords s) = s.
Proof. by destruct s. Qed.

End RemoveFacts.

(** X7.  [RemoveRecord] of an address from an ASCII name without wildcards
    removes every address equal to it from the list of its type and nothing
    else: the list of the other type, the records of every other ASCII name
    and the wildcard entries are as before.  It deletes the PTR entry of
    the address only when that entry points at the name; it never adds a
    PTR entry and it keeps every other one. *)
Theorem X7_RemoveRecord_removes_the_address
    (s : DNSRecordStore) (d : string) (ip : Net.IP) :
  ascii_name d ->
  Strings.ContainsAny d "*?" = false ->
  let nd := normalize d in
  let s' := RemoveRecord s d (Some ip) in
  exact_records s' nd (family ip)
  = removeIP (exact_records s nd (family ip)) ip
  /\ Forall (fun x => Net.Equal x ip = false)
            (exact_records s' nd (family ip))
  /\ exact_records s' nd (other_family ip)
     = exact_records s nd (other_family ip)
  /\ (forall n q, ascii_name n -> canonical n -> n <> nd ->
        exact_records s' n q = exact_records s n q)
  /\ wildcards s' = wildcards s
  /\ (forall k n, ptrRecords s' !! k = Some n -> ptrRecords s !! k = Some n)
  /\ (forall k n, ptrRecords s !! k = Some n ->
        k <> Net.String_ ip \/ n <> nd -> ptrRecords s' !! k = Some n)
  /\ (exact_set s nd <> None ->
      ptrRecords s' !! Net.String_ ip <> Some nd).
Proof.
  intros _ Hd nd s'.
  destruct (RemoveRecord_exact_effect s d (Some ip) Hd)
    as (Hwild & Hother & Hcase).
  fold s' nd in Hwild, Hother, Hcase.
  pose proof (normalize_canonical d) as Hnd. fold nd in Hnd.
  destruct (select_without ip
              (default (mkRecordSet [] [])
                 (data_at (root s) (domainToPath nd)))) as [Hsel Hsel'].
  assert (Hrec : forall q,
             exact_records s' nd q
             = match data_at (root s) (domainToPath nd) with
               | Some rs => select q (without ip rs)
               | None => []
               end).
  { intros q. rewrite exact_records_data.
    destruct (data_at (root s) (domainToPath nd)) as [rs|] eqn:E.
    - destruct Hcase as [-> _]. apply select_pruned.
    - rewrite Hcase. by rewrite E. }
  assert (Hfam : exact_records s' nd (family ip)
                 = removeIP (exact_records s nd (family ip)) ip).
  { rewrite Hrec, exact_records_data.
    destruct (data_at (root s) (domainToPath nd)); [exact Hsel | done]. }
  split; [done |]. split; [rewrite Hfam; apply removeIP_none_equal |].
  split.
  { rewrite Hrec, exact_records_data.
    destruct (data_at (root s) (domainToPath nd)); [exact Hsel' | done]. }
  split; [intros n q _ Hn Hne; by apply (exact_records_other s s' n nd) |].
  split; [done |].
  assert (Hptr : ptrRecords s'
                 = match data_at (root s) (domainToPath nd) with
                   | Some _ => delete_ptr_owned nd (ptrRecords s) ip
                   | None => ptrRecords s
                   end).
  { destruct (data_at (root s) (domainToPath nd)) as [rs|] eqn:E.
    - by destruct Hcase as [_ ->].
    - by rewrite Hcase. }
  split; [| split].
  - intros k n. rewrite Hptr.
    destruct (data_at (root s) (domainToPath nd)); [| done].
    rewrite delete_ptr_owned_lookup. by destruct (bool_decide _).
  - intros k n Hk Hor. rewrite Hptr.
    destruct (data_at (root s) (domainToPath nd)); [| done].
    rewrite delete_ptr_owned_lookup.
    rewrite bool_decide_eq_false_2; [done |].
    intros [E1 E2]. destruct Hor as [Hor | Hor]; [done | congruence].
  - intros Hset. rewrite Hptr.
    change (exact_set s nd) with (data_at (root s) (domainToPath nd))
      in Hset.
    destruct (data_at (root s) (domainToPath nd)); [| done].
    rewrite delete_ptr_owned_lookup.
    destruct (bool_decide _) eqn:E; [done |].
    apply bool_decide_eq_false_1 in E. intros E'. by apply E.
Qed.

Lemma X7_RemoveRecord_removes_the_address_witness :
  let s := (AddRecord (AddRecord NewDNSRecordStore "a.internal"
                         ip_10_0_0_1).1 "a.internal" ip_10_0_0_2).1 in
  let s' := RemoveRecord s "a.internal" (Some ip_10_0_0_1) in
  exact_records s' "a.internal." RecordTypeA = [ip_10_0_0_2]
  /\ ptrRecords s' !! "10.0.0.1" = None
  /\ ptrRecords s' !! "10.0.0.2" = Some "a.internal.".
Proof.
  intros s s'.
  destruct (X7_RemoveRecord_removes_the_address s "a.internal" ip_10_0_0_1)
    as (H1 & _).
  - reflexivity.
  - reflexivity.
  - split; [etransitivity; [exact H1 | reflexivity] |]. split; reflexivity.
Defined.

(** X8.  [RemoveRecord] with a nil address and an ASCII name without
    wildcards removes every record of the name and no record of another
    ASCII name.  After it no address that the name held has a PTR entry
    that points at the name; the PTR entries that point at other names are
    kept, and none is added. *)
Theorem X8_RemoveRecord_nil_clears_the_name
    (s : DNSRecordStore) (d : string) :
  ascii_name d ->
  Strings.ContainsAny d "*?" = false ->
  let nd := normalize d in
  let s' := RemoveRecord s d None in
  (forall q, exact_records s' nd q = [])
  /\ (forall n q, ascii_name n -> canonical n -> n <> nd ->
        exact_records s' n q = exact_records s n q)
  /\ wildcards s' = wildcards s
  /\ (forall ip,
        ip ∈ exact_records s nd RecordTypeA
        \/ ip ∈ exact_records s nd RecordTypeAAAA ->
        ptrRecords s' !! Net.String_ ip <> Some nd)
  /\ (forall k n, ptrRecords s' !! k = Some n -> ptrRecords s !! k = Some n)
  /\ (forall k n, ptrRecords s !! k = Some n -> n <> nd ->
        ptrRecords s' !! k = Some n).
Proof.
  intros _ Hd nd s'.
  destruct (RemoveRecord_exact_effect s d None Hd)
    as (Hwild & Hother & Hcase).
  fold s' nd in Hwild, Hother, Hcase.
  pose proof (normalize_canonical d) as Hnd. fold nd in Hnd.
  split.
  { intros q. rewrite exact_records_data.
    destruct (data_at (root s) (domainToPath nd)) as [rs|] eqn:E.
    - by destruct Hcase as [-> _].
    - rewrite Hcase. by rewrite E. }
  split; [intros n q _ Hn Hne; by apply (exact_records_other s s' n nd) |].
  split; [done |].
  rewrite !(exact_records_data s).
  destruct (data_at (root s) (domainToPath nd)) as [rs|] eqn:E.
  2:{ rewrite Hcase. split; [| done].
      intros ip [H | H]; by apply elem_of_nil in H. }
  destruct Hcase as [_ Hp]. rewrite Hp. split; [| split].
  - intros ip [Hin | Hin].
    + intros H%foldl_delete_ptr_owned_sub.
      by apply (foldl_delete_ptr_owned_gone nd (ptrRecords s) (A rs) ip).
    + by apply foldl_delete_ptr_owned_gone.
  - intros k n H. by do 2 apply foldl_delete_ptr_owned_sub in H.
  - intros k n H Hn.
    apply foldl_delete_ptr_owned_other; [| done].
    by apply foldl_delete_ptr_owned_other.
Qed.

Lemma X8_RemoveRecord_nil_clears_the_name_witness :
  let s := (AddRecord (AddRecord NewDNSRecordStore "a.internal"
                         ip_10_0_0_1).1 "b.internal" ip_10_0_0_2).1 in
  let s' := RemoveRecord s "A.internal" None in
  exact_records s' "a.internal." RecordTypeA = []
  /\ exact_records s' "b.internal." RecordTypeA = [ip_10_0_0_2]
  /\ ptrRecords s' !! "10.0.0.1" = None.
Proof.
  intros s s'.
  destruct (X8_RemoveRecord_nil_clears_the_name s "A.internal")
    as (H1 & _).
  - reflexivity.
  - reflexivity.
  - split; [exact (H1 RecordTypeA) |]. split; reflexivity.
Defined.

(** X9.  [RemoveRecord] with a pattern that has a wildcard works on the
    entry of that pattern only: a nil address empties it, an address is
    removed (every address equal to it) from the list of its type.  The
    other wildcard entries, the trie and the PTR table are as before. *)
Theorem X9_RemoveRecord_wildcard
    (s : DNSRecordStore) (d : string) (oip : option Net.IP) :
  Strings.ContainsAny d "*?" = true ->
  let nd := normalize d in
  let s' := RemoveRecord s d oip in
  root s' = root s
  /\ ptrRecords s' = ptrRecords s
  /\ (forall p, p <> nd -> wildcards s' !! p = wildcards s !! p)
  /\ match oip with
     | None => wildcards s' !! nd = None
     | Some ip =>
         wildcard_records s' nd (family ip)
         = removeIP (wildcard_records s nd (family ip)) ip
         /\ wildcard_records s' nd (other_family ip)
            = wildcard_records s nd (other_family ip)
     end.
Proof.
  intros Hd nd s'.
  destruct (RemoveRecord_wildcard_effect s d oip Hd) as (Hr & Hp & Hw).
  fold s' nd in Hr, Hp, Hw.
  split; [done |]. split; [done |]. rewrite Hw. split.
  - intros p Hne. destruct oip as [ip|].
    + destruct (wildcards s !! nd) as [rs|]; [| done].
      destruct (is_empty_set _).
      * by rewrite lookup_delete_ne.
      * by rewrite lookup_insert_ne.
    + by rewrite lookup_delete_ne.
  - destruct oip as [ip|]; [| apply lookup_delete_eq].
    unfold wildcard_records. rewrite Hw.
    destruct (wildcards s !! nd) as [rs|] eqn:E; [| by rewrite E].
    destruct (select_without ip rs) as [Hsel Hsel'].
    destruct (is_empty_set (without ip rs)) eqn:Ee.
    + rewrite lookup_delete_eq.
      pose proof (select_pruned (without ip rs)) as Hpr.
      rewrite Ee in Hpr. rewrite <- Hsel, <- Hsel'.
      split; apply Hpr.
    + by rewrite lookup_insert_eq.
Qed.

Lemma X9_RemoveRecord_wildcard_witness :
  let s := (AddRecord (AddRecord NewDNSRecordStore "*.internal"
                         ip_10_0_0_1).1 "*.internal" ip_10_0_0_2).1 in
  let s' := RemoveRecord s "*.INTERNAL" (Some ip_10_0_0_1) in
  wildcard_records s' "*.internal." RecordTypeA = [ip_10_0_0_2]
  /\ wildcards (RemoveRecord s "*.internal" None) !! "*.internal." = None.
Proof.
  intros s s'.
  destruct (X9_RemoveRecord_wildcard s "*.INTERNAL" (Some ip_10_0_0_1))
    as (_ & _ & _ & H & _); [reflexivity |].
  destruct (X9_RemoveRecord_wildcard s "*.internal" None)
    as (_ & _ & _ & H'); [reflexivity |].
  split; [etransitivity; [exact H | reflexivity] | exact H'].
Defined.

(** X10.  [RemoveRecord] of a name that has no record set, or of a pattern
    that has no wildcard entry, leaves the store as it was, whatever the
    address. *)
Theorem X10_RemoveRecord_absent_is_noop
    (s : DNSRecordStore) (d : string) (oip : option Net.IP) :
  (if Strings.ContainsAny d "*?"
   then wildcards s !! normalize d = None
   else exact_set s (normalize d) = None) ->
  RemoveRecord s d oip = s.
Proof.
  destruct (Strings.ContainsAny d "*?") eqn:Hd; intros Habs.
  - destruct (RemoveRecord_wildcard_effect s d oip Hd) as (Hr & Hp & Hw).
    rewrite <- (store_eta (RemoveRecord s d oip)), Hr, Hp, Hw.
    destruct oip; rewrite ?Habs, ?delete_id by done; apply store_eta.
  - destruct (RemoveRecord_exact_effect s d oip Hd) as (_ & _ & Hcase).
    change (exact_set s (normalize d))
      with (data_at (root s) (domainToPath (normalize d))) in Habs.
    by rewrite Habs in Hcase.
Qed.

Lemma X10_RemoveRecord_absent_is_noop_witness :
  let s := (AddRecord NewDNSRecordStore "a.internal" ip_10_0_0_1).1 in
  RemoveRecord s "b.internal" None = s
  /\ RemoveRecord s "*.internal" (Some ip_10_0_0_1) = s.
Proof.
  intros s. split.
  - apply (X10_RemoveRecord_absent_is_noop s "b.internal" None).
    reflexivity.
  - apply (X10_RemoveRecord_absent_is_noop s "*.internal"
             (Some ip_10_0_0_1)).
    reflexivity.
Defined.

(** ** An add undone, the PTR calls and [Clear] *)

Section PtrFacts.
Import Strings Dns Net.

Lemma Equal_refl (x : IP) : Equal x x = true.
Proof. unfold Equal. by rewrite Nat.eqb_refl, bool_decide_eq_true_2. Qed.

(** Equal addresses are filed under the same type. *)
Lemma To4_v4 (x : IP) : length x = 4 -> To4 x = Some x.
Proof. intros H. unfold To4. by rewrite H. Qed.

Lemma To4_mapped (x : IP) :
  length x = 16 -> take 12 x = v4InV6Prefix -> To4 x = Some (drop 12 x).
Proof.
  intros H Hp. unfold To4. rewrite H. simpl.
  by rewrite bool_decide_eq_true_2.
Qed.

Lemma Equal_family (x y : IP) : Equal x y = true -> family x = family y.
Proof.
  unfold Equal, family.
  destruct (length x =? length y) eqn:E.
  { by intros ->%bool_decide_eq_true_1. }
  destruct ((length x =? 4) && (length y =? 16)) eqn:E1.
  { apply andb_true_iff in E1 as [Ex%Nat.eqb_eq Ey%Nat.eqb_eq].
    intros [Hp%bool_decide_eq_true_1 _]%andb_true_iff.
    by rewrite (To4_v4 x Ex), (To4_mapped y Ey Hp). }
  destruct ((length x =? 16) && (length y =? 4)) eqn:E2; [| done].
  apply andb_true_iff in E2 as [Ex%Nat.eqb_eq Ey%Nat.eqb_eq].
  intros [Hp%bool_decide_eq_true_1 _]%andb_true_iff.
  by rewrite (To4_v4 y Ey), (To4_mapped x Ex Hp).
Qed.

(** [GetRecords] and [HasRecord] read the trie through the record sets of
    its nodes only. *)
Lemma GetRecords_same_data (order : list (string * recordSet))
    (s s' : DNSRecordStore) (d : string) (q : RecordType) :
  (forall p, data_at (root s') p = data_at (root s) p) ->
  GetRecords order s' d q = GetRecords order s d q
  /\ HasRecord order s' d q = HasRecord order s d q.
Proof.
  intros H. unfold GetRecords, HasRecord.
  specialize (H (domainToPath (ToLower (Fqdn d)))). unfold data_at in H.
  destruct (walk (root s') _) as [n'|], (walk (root s) _) as [n|];
    simpl in *; rewrite ?H; try done.
  - by rewrite <- H.
Qed.

Lemma HasPTRRecord_snd (s : DNSRecordStore) (r : string) :
  HasPTRRecord s r = (GetPTRRecord s r).2.
Proof.
  unfold HasPTRRecord, GetPTRRecord.
  destruct (reverseDNSToIP r) as [ip|]; [| done].
  by destruct (ptrRecords s !! String_ ip).
Qed.

Lemma data_at_new (p : list string) :
  data_at (root NewDNSRecordStore) p = None.
Proof. destruct p as [|l p]; [done |]. unfold data_at. simpl.
  by rewrite lookup_empty. Qed.

Lemma range_order_empty {V} (order : list (string * V)) :
  range_order (∅ : gmap string V) order -> order = [].
Proof.
  unfold range_order. rewrite map_to_list_empty.
  apply Permutation_nil_r.
Qed.

End PtrFacts.

(** X11.  [AddRecord] of a valid address under a name without wildcards
    that has no record set, followed by [RemoveRecord] of an equal address
    (in its 4-byte or its 16-byte form) from that name, gives a store that
    answers [GetRecords] and [HasRecord] as before the two calls.  The PTR
    entry of the address is gone, also when it pointed at another name
    before. *)
Theorem X11_add_then_remove
    (order : list (string * recordSet)) (s : DNSRecordStore) (d : string)
    (ip ip' : Net.IP) :
  validIP ip ->
  Net.Equal ip ip' = true ->
  Strings.ContainsAny d "*?" = false ->
  exact_set s (normalize d) = None ->
  let s2 := RemoveRecord (AddRecord s d ip).1 d (Some ip') in
  (forall d' q,
     GetRecords order s2 d' q = GetRecords order s d' q
     /\ HasRecord order s2 d' q = HasRecord order s d' q)
  /\ wildcards s2 = wildcards s
  /\ ptrRecords s2 = delete (Net.String_ ip) (ptrRecords s).
Proof.
  intros Hip Heq Hd Hnone s2.
  set (s1 := (AddRecord s d ip).1) in *.
  set (nd := normalize d) in *.
  change (exact_set s nd) with (data_at (root s) (domainToPath nd)) in Hnone.
  destruct (AddRecord_effect s d ip)
    as [[Hno _] | [(_ & Hd' & _) | (_ & _ & Hw1 & Hp1 & Hdat1 & Hoth1)]];
    [done | congruence |].
  fold s1 nd in Hw1, Hp1, Hdat1, Hoth1.
  destruct (RemoveRecord_exact_effect s1 d (Some ip') Hd)
    as (Hw2 & Hoth2 & Hcase).
  fold s2 nd in Hw2, Hoth2, Hcase.
  rewrite Hdat1, Hnone in Hcase. simpl in Hcase.
  destruct Hcase as [Hdat2 Hp2].
  assert (Hempty : is_empty_set
                     (without ip'
                        (append_ip (bool_decide (Net.To4 ip <> None)) ip
                           (mkRecordSet [] []))) = true).
  { pose proof (Equal_family ip ip' Heq) as Hfam. unfold family in Hfam.
    unfold without, append_ip, is_empty_set, removeIP.
    destruct (bool_decide (Net.To4 ip <> None)),
             (bool_decide (Net.To4 ip' <> None)); try done; simpl;
      rewrite filter_cons, decide_False by (by rewrite Heq); done. }
  rewrite Hempty in Hdat2.
  assert (Hdata : forall p, data_at (root s2) p = data_at (root s) p).
  { intros p. destruct (decide (p = domainToPath nd)) as [->|Hne].
    - by rewrite Hdat2, Hnone.
    - by rewrite Hoth2, Hoth1. }
  split; [| split].
  - intros d' q. by apply GetRecords_same_data.
  - by rewrite Hw2, Hw1.
  - rewrite Hp2, Hp1. unfold delete_ptr_owned.
    rewrite <- (Equal_String ip ip' Heq), lookup_insert_eq.
    rewrite bool_decide_eq_true_2 by done. apply delete_insert_eq.
Qed.

Lemma X11_add_then_remove_witness :
  let s := (AddRecord NewDNSRecordStore "b.internal" ip_10_0_0_1).1 in
  let ip16 := [x00; x00; x00; x00; x00; x00; x00; x00; x00; x00; xff; xff;
               x0a; x00; x00; x01] in
  let s2 := RemoveRecord (AddRecord s "a.internal" ip16).1 "a.internal"
              (Some ip_10_0_0_1) in
  GetRecords [] s2 "a.internal" RecordTypeA = None
  /\ GetRecords [] s2 "b.internal" RecordTypeA = Some [ip_10_0_0_1]
  /\ GetPTRRecord s "1.0.0.10.in-addr.arpa." = ("b.internal.", true)
  /\ GetPTRRecord s2 "1.0.0.10.in-addr.arpa." = (EmptyString, false).
Proof.
  intros s ip16 s2.
  destruct (X11_add_then_remove [] s "a.internal" ip16 ip_10_0_0_1)
    as (H & _).
  - right. reflexivity.
  - reflexivity.
  - reflexivity.
  - reflexivity.
  - destruct (H "a.internal" RecordTypeA) as [Ha _].
    destruct (H "b.internal" RecordTypeA) as [Hb _].
    split; [etransitivity; [exact Ha | reflexivity] |].
    split; [etransitivity; [exact Hb | reflexivity] |].
    split; reflexivity.
Defined.

(** X12.  [AddPTRRecord] with a valid address makes [GetPTRRecord] with the
    reverse name of the address return the normalized name, whatever the
    table held; it changes no other PTR entry and no A or AAAA record. *)
Theorem X12_AddPTRRecord_then_GetPTRRecord
    (s : DNSRecordStore) (ip : Net.IP) (d : string) :
  validIP ip ->
  let s' := AddPTRRecord s ip d in
  GetPTRRecord s' (IPToReverseDNS ip) = (normalize d, true)
  /\ HasPTRRecord s' (IPToReverseDNS ip) = true
  /\ (forall k, k <> Net.String_ ip ->
        ptrRecords s' !! k = ptrRecords s !! k)
  /\ root s' = root s
  /\ wildcards s' = wildcards s.
Proof.
  intros Hip s'.
  assert (Hget : GetPTRRecord s' (IPToReverseDNS ip) = (normalize d, true)).
  { rewrite GetPTRRecord_reverse by done. unfold s', AddPTRRecord. simpl.
    by rewrite lookup_insert_eq. }
  split; [done |]. split; [by rewrite HasPTRRecord_snd, Hget |].
  split; [| done]. intros k Hk. unfold s', AddPTRRecord. simpl.
  by rewrite lookup_insert_ne.
Qed.

Lemma X12_AddPTRRecord_then_GetPTRRecord_witness :
  GetPTRRecord (AddPTRRecord NewDNSRecordStore ip_10_0_0_1 "GW.Internal")
    "1.0.0.10.in-addr.arpa."
  = ("gw.internal.", true).
Proof.
  destruct (X12_AddPTRRecord_then_GetPTRRecord NewDNSRecordStore ip_10_0_0_1
              "GW.Internal") as (H & _).
  - left. reflexivity.
  - exact H.
Defined.

(** X13.  After [RemovePTRRecord] with an address, [GetPTRRecord] with the
    reverse name of any equal valid address finds nothing; no other PTR
    entry and no A or AAAA record changes. *)
Theorem X13_RemovePTRRecord_then_GetPTRRecord
    (s : DNSRecordStore) (ip ip' : Net.IP) :
  validIP ip ->
  Net.Equal ip ip' = true ->
  let s' := RemovePTRRecord s ip' in
  GetPTRRecord s' (IPToReverseDNS ip) = (EmptyString, false)
  /\ HasPTRRecord s' (IPToReverseDNS ip) = false
  /\ (forall k, k <> Net.String_ ip ->
        ptrRecords s' !! k = ptrRecords s !! k)
  /\ root s' = root s
  /\ wildcards s' = wildcards s.
Proof.
  intros Hip Heq s'.
  assert (Hget : GetPTRRecord s' (IPToReverseDNS ip) = (EmptyString, false)).
  { rewrite GetPTRRecord_reverse by done. unfold s', RemovePTRRecord. simpl.
    by rewrite (Equal_String ip ip' Heq), lookup_delete_eq. }
  split; [done |]. split; [by rewrite HasPTRRecord_snd, Hget |].
  split; [| done]. intros k Hk. unfold s', RemovePTRRecord. simpl.
  rewrite lookup_delete_ne; [done |].
  by rewrite <- (Equal_String ip ip' Heq).
Qed.

Lemma X13_RemovePTRRecord_then_GetPTRRecord_witness :
  let s := (AddRecord NewDNSRecordStore "a.internal" ip_10_0_0_1).1 in
  GetPTRRecord s "1.0.0.10.in-addr.arpa." = ("a.internal.", true)
  /\ GetPTRRecord (RemovePTRRecord s ip_10_0_0_1) "1.0.0.10.in-addr.arpa."
     = (EmptyString, false).
Proof.
  intros s.
  destruct (X13_RemovePTRRecord_then_GetPTRRecord s ip_10_0_0_1 ip_10_0_0_1)
    as (H & _).
  - left. reflexivity.
  - reflexivity.
  - split; [reflexivity | exact H].
Defined.

(** X14.  After [Clear] the store is the new store: [GetRecords] returns
    nil and [HasRecord] false for every name and type, [GetPTRRecord] and
    [HasPTRRecord] find nothing for any name. *)
Theorem X14_Clear_empties_the_store
    (order : list (string * recordSet)) (s : DNSRecordStore)
    (d r : string) (q : RecordType) :
  range_order (wildcards (Clear s)) order ->
  Clear s = NewDNSRecordStore
  /\ GetRecords order (Clear s) d q = None
  /\ HasRecord order (Clear s) d q = false
  /\ GetPTRRecord (Clear s) r = (EmptyString, false)
  /\ HasPTRRecord (Clear s) r = false.
Proof.
  intros ->%range_order_empty. split; [done |].
  change (Clear s) with NewDNSRecordStore.
  assert (Hget : GetPTRRecord NewDNSRecordStore r = (EmptyString, false)).
  { unfold GetPTRRecord. destruct (reverseDNSToIP r); [| done].
    simpl. by rewrite lookup_empty. }
  pose proof (data_at_new
                (domainToPath (Strings.ToLower (Dns.Fqdn d)))) as Hdat.
  unfold data_at in Hdat.
  split; [| split; [| split; [done | by rewrite HasPTRRecord_snd, Hget]]].
  - unfold GetRecords. simpl.
    destruct (walk _ _) as [node|]; [by rewrite Hdat | done].
  - unfold HasRecord. simpl.
    destruct (walk _ _) as [node|]; [by rewrite Hdat | done].
Qed.

Lemma X14_Clear_empties_the_store_witness :
  let s := (AddRecord (AddRecord NewDNSRecordStore "a.internal"
                         ip_10_0_0_1).1 "*.internal" ip_10_0_0_2).1 in
  HasRecord (map_to_list (wildcards s)) s "a.internal" RecordTypeA = true
  /\ HasRecord [] (Clear s) "a.internal" RecordTypeA = false
  /\ HasPTRRecord (Clear s) "1.0.0.10.in-addr.arpa." = false.
Proof.
  intros s.
  destruct (X14_Clear_empties_the_store [] s "a.internal"
              "1.0.0.10.in-addr.arpa." RecordTypeA)
    as (_ & _ & H1 & _ & H2).
  - unfold range_order. reflexivity.
  - split; [reflexivity |]. split; [exact H1 | exact H2].
Defined.

(** X15.  [HasPTRRecord] is true exactly when [GetPTRRecord] finds a name,
    and a [GetPTRRecord] that finds nothing returns the empty name. *)
Theorem X15_HasPTRRecord_iff_GetPTRRecord_finds
    (s : DNSRecordStore) (r : string) :
  (HasPTRRecord s r = true <-> exists n, GetPTRRecord s r = (n, true))
  /\ (HasPTRRecord s r = false <-> GetPTRRecord s r = (EmptyString, false)).
Proof.
  rewrite HasPTRRecord_snd. unfold GetPTRRecord.
  destruct (reverseDNSToIP r) as [ip|]; simpl.
  - destruct (ptrRecords s !! Net.String_ ip) as [n|]; simpl.
    + split; split; try done. intros _. by exists n.
    + split; split; try done. by intros [n ?].
  - split; split; try done. by intros [n ?].
Qed.

(** ** What holds after every sequence of calls *)

Section RunFacts.
Import Strings Dns Net.

#[local] Existing Instance flat_matching_dec.

Lemma run_inv_typed (ms : list mutator) : inv_typed (run ms).
Proof.
  induction ms as [|m ms IH] using rev_ind.
  - change (run []) with NewDNSRecordStore. split.
    + intros p rs H. by rewrite data_at_new in H.
    + intros p rs H. simpl in H. by rewrite lookup_empty in H.
  - rewrite run_snoc. by apply call_inv_typed.
Qed.

Lemma typed_select (q : RecordType) (rs : recordSet) :
  q = RecordTypeA \/ q = RecordTypeAAAA ->
  typed_set rs -> Forall (of_type q) (select q rs).
Proof. intros [-> | ->] [HA H6]; done. Qed.

Lemma slice_result_Some (l r : list IP) : slice_result l = Some r -> r = l.
Proof. unfold slice_result. destruct (_ =? _); congruence. Qed.

Lemma no_empty_list_empty : no_empty_list ∅.
Proof. intros k l H. by rewrite lookup_empty in H. Qed.

Lemma no_empty_list_append_at (m : gmap string (list IP)) (k : string)
    (ip : IP) :
  no_empty_list m -> no_empty_list (Flat.append_at m k ip).
Proof.
  intros Hm j l. unfold Flat.append_at. rewrite lookup_insert.
  destruct (decide (k = j)); [| apply Hm].
  intros [= <-]. by destruct (default [] (m !! k)).
Qed.

Lemma no_empty_list_delete (m : gmap string (list IP)) (k : string) :
  no_empty_list m -> no_empty_list (delete k m).
Proof.
  intros Hm j l. rewrite lookup_delete.
  destruct (decide (k = j)); [done | apply Hm].
Qed.

Lemma no_empty_list_remove_at (m : gmap string (list IP)) (k : string)
    (ip : IP) :
  no_empty_list m -> no_empty_list (Flat.remove_at m k ip).
Proof.
  intros Hm. unfold Flat.remove_at.
  destruct (m !! k) as [ips|]; [| done].
  destruct (length (removeIP ips ip) =? 0) eqn:E.
  - by apply no_empty_list_delete.
  - intros j l. rewrite lookup_insert.
    destruct (decide (k = j)); [| apply Hm].
    intros [= <-] E'. by rewrite E' in E.
Qed.

Lemma flat_call_inv (f : Flat.DNSRecordStore) (m : mutator) :
  flat_inv f -> flat_inv (flat_call f m).
Proof.
  intros (Ha & Hb & Hc & He).
  destruct m as [d ip|ip d|d ip|ip|]; simpl; try done.
  - unfold Flat.AddRecord.
    repeat case_match; simpl; repeat split; try done;
      by apply no_empty_list_append_at.
  - unfold Flat.RemoveRecord.
    repeat case_match; simpl; repeat split; try done;
      first [by apply no_empty_list_remove_at
            | by apply no_empty_list_delete].
Qed.

Lemma flat_run_inv (ms : list mutator) : flat_inv (flat_run ms).
Proof.
  induction ms as [|m ms IH] using rev_ind.
  - change (flat_run []) with Flat.NewDNSRecordStore.
    repeat split; apply no_empty_list_empty.
  - rewrite flat_run_snoc. by apply flat_call_inv.
Qed.

Lemma existsb_flat_matching (order : list (string * list IP))
    (name : string) :
  existsb (fun '(pattern, _) => matchWildcard pattern name) order = true
  <-> exists e, e ∈ order /\ flat_matching name e.
Proof.
  rewrite existsb_exists. split.
  - intros ([p l] & Hin%list_elem_of_In & Hm). by exists (p, l).
  - intros ([p l] & Hin%list_elem_of_In & Hm). by exists (p, l).
Qed.

Lemma concat_flat_nonempty (order : list (string * list IP))
    (name : string) :
  (forall e, e ∈ order -> e.2 <> []) ->
  concat (filter (flat_matching name) order).*2 <> []
  <-> exists e, e ∈ order /\ flat_matching name e.
Proof.
  intros Hne. induction order as [|[p l] order IH].
  - split; [done | intros (e & He & _); by apply elem_of_nil in He].
  - rewrite filter_cons.
    assert (Hne' : forall e, e ∈ order -> e.2 <> [])
      by (intros e He; apply Hne; by right).
    specialize (IH Hne').
    destruct (decide (flat_matching name (p, l))) as [Hm|Hm].
    + simpl. split.
      * intros _. exists (p, l). split; [by left | done].
      * intros _. specialize (Hne (p, l) ltac:(by left)). simpl in Hne.
        by destruct l.
    + rewrite IH. split.
      * intros (e & He & Hme). exists e. split; [by right | done].
      * intros (e & He & Hme). exists e. split; [| done].
        apply elem_of_cons in He as [-> | He]; [done | done].
Qed.

End RunFacts.

(** ** The names of the PTR table after calls with ASCII names *)

Section AsciiRuns.
Import Strings Dns Net.

(** A call with an ASCII name keeps the names of the PTR table ASCII. *)
Lemma call_ptr_ascii (t : DNSRecordStore) (m : mutator) :
  ascii_call m ->
  (forall k n, ptrRecords t !! k = Some n -> ascii_name n) ->
  forall k n, ptrRecords (call t m) !! k = Some n -> ascii_name n.
Proof.
  intros Hm Hinv k n.
  destruct m as [d ip|ip d|d ip|ip|]; simpl in *.
  - destruct (AddRecord_effect t d ip)
      as [[_ ->] | [(_ & _ & _ & -> & _) | (_ & _ & _ & -> & _)]];
      [apply Hinv | apply Hinv |].
    intros [[_ <-] | [_ H]]%lookup_insert_Some;
      [by apply ascii_name_normalize | by apply (Hinv k)].
  - unfold AddPTRRecord. simpl.
    intros [[_ <-] | [_ H]]%lookup_insert_Some;
      [by apply ascii_name_normalize | by apply (Hinv k)].
  - destruct (ContainsAny d "*?") eqn:Hd.
    + destruct (RemoveRecord_wildcard_effect t d ip Hd) as (_ & -> & _).
      apply Hinv.
    + destruct (RemoveRecord_exact_effect t d ip Hd) as (_ & _ & Hcase).
      destruct (data_at (root t) (domainToPath (normalize d)));
        [| rewrite Hcase; apply Hinv].
      destruct ip as [ip|]; destruct Hcase as [_ ->].
      * rewrite delete_ptr_owned_lookup.
        destruct (bool_decide _); [done | apply Hinv].
      * intros H. do 2 apply foldl_delete_ptr_owned_sub in H.
        by apply (Hinv k).
  - intros [_ H]%lookup_delete_Some. by apply (Hinv k).
  - unfold Clear. simpl. by rewrite lookup_empty.
Qed.

(** After calls with ASCII names, the PTR table holds ASCII names. *)
Lemma run_ptr_ascii (ms : list mutator) :
  ascii_calls ms ->
  forall k n, ptrRecords (run ms) !! k = Some n -> ascii_name n.
Proof.
  induction ms as [|m ms IH] using rev_ind; intros Hms.
  - intros k n. change (run []) with NewDNSRecordStore. simpl.
    by rewrite lookup_empty.
  - apply Forall_app in Hms as [Hms Hm%Forall_inv].
    rewrite run_snoc. apply call_ptr_ascii; [exact Hm | by apply IH].
Qed.

End AsciiRuns.

(** X16.  After every sequence of calls on a new store, the addresses that
    [GetRecords] returns for the type A are IPv4 addresses (4 bytes, or 16
    bytes with the IPv4-in-IPv6 prefix), and those it returns for the type
    AAAA are 16-byte addresses that are not IPv4: no call files an address
    under the wrong type. *)
Theorem X16_GetRecords_returns_the_type_asked
    (ms : list mutator) (order : list (string * recordSet)) (d : string)
    (q : RecordType) (l : list Net.IP) :
  q = RecordTypeA \/ q = RecordTypeAAAA ->
  range_order (wildcards (run ms)) order ->
  GetRecords order (run ms) d q = Some l ->
  Forall (of_type q) l.
Proof.
  intros Hq Horder. destruct (run_inv_typed ms) as [Hdata Hwild].
  rewrite GetRecords_unfold. cbv zeta.
  set (name := Strings.ToLower (Dns.Fqdn d)).
  destruct (0 <? _) eqn:E.
  - intros [= <-]. rewrite exact_records_data.
    destruct (data_at _ _) as [rs|] eqn:Edat; [| done].
    apply typed_select; [done |]. by apply (Hdata _ _ Edat).
  - intros ->%slice_result_Some. apply Forall_concat, Forall_fmap.
    apply Forall_fmap, Forall_forall.
    intros [p rs] [_ Hin]%list_elem_of_filter. simpl.
    apply typed_select; [done |]. apply (Hwild p).
    apply elem_of_map_to_list. by rewrite <- Horder.
Qed.

Lemma X16_GetRecords_returns_the_type_asked_witness :
  let v6 := [x20; x01; x0d; xb8; x00; x00; x00; x00;
             x00; x00; x00; x00; x00; x00; x00; x01] in
  let ms := [CallAddRecord "a.internal" v6;
             CallAddRecord "a.internal" ip_10_0_0_1;
             CallAddRecord "a.internal" ip_10_0_0_2] in
  GetRecords [] (run ms) "a.internal" RecordTypeA
  = Some [ip_10_0_0_1; ip_10_0_0_2]
  /\ Forall (of_type RecordTypeA) [ip_10_0_0_1; ip_10_0_0_2].
Proof.
  intros v6 ms. split; [reflexivity |].
  apply (X16_GetRecords_returns_the_type_asked ms [] "a.internal"
           RecordTypeA).
  - left. reflexivity.
  - unfold range_order. reflexivity.
  - reflexivity.
Defined.

(** X17.  After every sequence of calls with ASCII names and without
    [AddPTRRecord], a name that [GetPTRRecord] returns for an ASCII query
    name is an ASCII normalized name that holds an exact A or AAAA record:
    the guarded removal leaves no PTR entry behind that points at a name
    without records. *)
Theorem X17_no_dangling_PTR
    (ms : list mutator) (r n : string) :
  ascii_calls ms ->
  ascii_name r ->
  no_AddPTRRecord ms ->
  GetPTRRecord (run ms) r = (n, true) ->
  ascii_name n
  /\ canonical n
  /\ (exact_records (run ms) n RecordTypeA <> []
      \/ exact_records (run ms) n RecordTypeAAAA <> []).
Proof.
  intros Hascii _ Hms Hget.
  destruct (run_linked ms Hms) as (_ & _ & Hptr & _).
  unfold GetPTRRecord in Hget.
  destruct (reverseDNSToIP r) as [ip0|]; [| done].
  destruct (ptrRecords (run ms) !! Net.String_ ip0) as [n'|] eqn:E;
    [| done].
  injection Hget as ->.
  destruct (Hptr _ _ E) as (Hcan & ip & rs & _ & Hdat & Hin).
  split; [by apply (run_ptr_ascii ms Hascii _ _ E) |].
  split; [done |]. rewrite !exact_records_data, Hdat.
  destruct Hin as [Hin | Hin]; [left | right]; intros E';
    change (select RecordTypeA rs) with (A rs) in *;
    change (select RecordTypeAAAA rs) with (AAAA rs) in *;
    rewrite E' in Hin; by apply elem_of_nil in Hin.
Qed.

Lemma X17_no_dangling_PTR_witness :
  let ms := [CallAddRecord "a.internal" ip_10_0_0_1;
             CallAddRecord "b.internal" ip_10_0_0_1;
             CallRemoveRecord "a.internal" None] in
  GetPTRRecord (run ms) "1.0.0.10.in-addr.arpa." = ("b.internal.", true)
  /\ ascii_name "b.internal."
  /\ canonical "b.internal."
  /\ (exact_records (run ms) "b.internal." RecordTypeA <> []
      \/ exact_records (run ms) "b.internal." RecordTypeAAAA <> []).
Proof.
  intros ms. split; [reflexivity |].
  apply (X17_no_dangling_PTR ms "1.0.0.10.in-addr.arpa." "b.internal.").
  - by repeat constructor.
  - reflexivity.
  - unfold no_AddPTRRecord. repeat constructor.
  - reflexivity.
Defined.

(** X18.  After every sequence of calls on a new flat-map store none of its
    four maps holds an empty list: [RemoveRecord] deletes the key of a list
    that it empties.  So, for the type A or AAAA, [GetRecords] never
    returns an empty list that is not nil, and [HasRecord] is true exactly
    when [GetRecords] returns addresses. *)
Theorem X18_flat_store_holds_no_empty_list
    (ms : list mutator) (order : list (string * list Net.IP)) (d : string)
    (q : RecordType) :
  q = RecordTypeA \/ q = RecordTypeAAAA ->
  range_order (flat_wildcards (flat_run ms) q) order ->
  flat_inv (flat_run ms)
  /\ Flat.GetRecords order (flat_run ms) d q <> Some []
  /\ (Flat.HasRecord order (flat_run ms) d q = true
      <-> 0 < len_ (Flat.GetRecords order (flat_run ms) d q)).
Proof.
  intros Hq Horder. pose proof (flat_run_inv ms) as Hinv.
  split; [done |].
  set (f := flat_run ms) in *.
  set (name := Strings.ToLower (Dns.Fqdn d)).
  set (E := if (q =? RecordTypeA)%N then Flat.aRecords f
            else Flat.aaaaRecords f).
  assert (HE : no_empty_list E).
  { unfold E. destruct Hinv as (Ha & Hb & _).
    by destruct (q =? RecordTypeA)%N. }
  assert (HW : forall e, e ∈ order -> e.2 <> []).
  { intros [p l] Hin. rewrite Horder in Hin.
    apply elem_of_map_to_list in Hin. simpl.
    destruct Hinv as (_ & _ & Hc & He). unfold flat_wildcards in Hin.
    destruct (q =? RecordTypeA)%N; [by apply (Hc p) | by apply (He p)]. }
  assert (Hget : Flat.GetRecords order f d q = Flat.get_case E order name).
  { unfold Flat.GetRecords, E. fold name. by destruct Hq as [-> | ->]. }
  assert (Hhas : Flat.HasRecord order f d q = Flat.has_case E order name).
  { unfold Flat.HasRecord, E. fold name. by destruct Hq as [-> | ->]. }
  rewrite Hget, Hhas. unfold Flat.get_case, Flat.has_case.
  destruct (E !! name) as [ips|] eqn:Eex.
  - pose proof (HE _ _ Eex) as Hne. split; [congruence |].
    split; [intros _ | done]. destruct ips; [done | simpl; lia].
  - rewrite Flat_GetRecords_loop. simpl.
    rewrite existsb_flat_matching, <- (concat_flat_nonempty order name HW).
    destruct (concat _) as [|x l]; simpl.
    + split; [done |]. split; [done | lia].
    + split; [done |]. split; [lia | done].
Qed.

Lemma X18_flat_store_holds_no_empty_list_witness :
  let ms := [CallAddRecord "a.internal" ip_10_0_0_1;
             CallRemoveRecord "a.internal" (Some ip_10_0_0_1)] in
  Flat.aRecords (flat_run ms) !! "a.internal." = None
  /\ (Flat.HasRecord [] (flat_run ms) "a.internal" RecordTypeA = true
      <-> 0 < len_ (Flat.GetRecords [] (flat_run ms) "a.internal"
                      RecordTypeA)).
Proof.
  intros ms. split; [reflexivity |].
  destruct (X18_flat_store_holds_no_empty_list ms [] "a.internal"
              RecordTypeA) as (_ & _ & H).
  - left. reflexivity.
  - unfold range_order. reflexivity.
  - exact H.
Defined.

(** ** Reverse names and addresses *)

Section ReverseFacts.
Import Strings Dns Net.

Lemma Fqdn_nonempty (x : string) : Fqdn x <> EmptyString.
Proof.
  unfold Fqdn. destruct (IsFqdn x) eqn:E.
  - intros ->. done.
  - by destruct x.
Qed.

(** Equal addresses have the same 4-byte and 16-byte forms. *)
Lemma Equal_To4_To16 (x y : IP) :
  Equal x y = true -> To4 x = To4 y /\ To16 x = To16 y.
Proof.
  unfold Equal.
  destruct (length x =? length y) eqn:E.
  { by intros ->%bool_decide_eq_true_1. }
  destruct ((length x =? 4) && (length y =? 16)) eqn:E1.
  { apply andb_true_iff in E1 as [Ex%Nat.eqb_eq Ey%Nat.eqb_eq].
    intros [Hp%bool_decide_eq_true_1 Hd%bool_decide_eq_true_1]%andb_true_iff.
    rewrite (To4_v4 x Ex), (To4_mapped y Ey Hp). split; [by rewrite Hd |].
    unfold To16. rewrite Ex, Ey. simpl.
    by rewrite <- (take_drop 12 y), Hp, <- Hd. }
  destruct ((length x =? 16) && (length y =? 4)) eqn:E2; [| done].
  apply andb_true_iff in E2 as [Ex%Nat.eqb_eq Ey%Nat.eqb_eq].
  intros [Hp%bool_decide_eq_true_1 Hd%bool_decide_eq_true_1]%andb_true_iff.
  rewrite (To4_v4 y Ey), (To4_mapped x Ex Hp). split; [by rewrite Hd |].
  unfold To16. rewrite Ex, Ey. simpl.
  by rewrite <- (take_drop 12 x), Hp, Hd.
Qed.

(** Valid addresses with the same 16-byte form are equal. *)
Lemma To16_Equal (x y : IP) :
  validIP x -> validIP y -> To16 x = To16 y -> Equal x y = true.
Proof.
  unfold To16, Equal.
  intros [Hx | Hx] [Hy | Hy]; rewrite Hx, Hy; simpl.
  - intros [= E]. by apply bool_decide_eq_true_2.
  - intros [= <-]. simpl. by rewrite !bool_decide_eq_true_2.
  - intros [= ->]. simpl. by rewrite !bool_decide_eq_true_2.
  - intros [= E]. by apply bool_decide_eq_true_2.
Qed.

End ReverseFacts.

(** X19.  [IPToReverseDNS] returns the empty string exactly for an address
    that has neither 4 nor 16 bytes. *)
Theorem X19_IPToReverseDNS_empty_iff_invalid (ip : Net.IP) :
  IPToReverseDNS ip = EmptyString <-> ~ validIP ip.
Proof.
  split.
  - intros H Hip. unfold IPToReverseDNS in H.
    destruct (Net.To4 ip); [by apply Fqdn_nonempty in H |].
    pose proof (validIP_To16 ip Hip) as H16.
    destruct (Net.To16 ip); [by apply Fqdn_nonempty in H | done].
  - intros Hip. destruct (invalid_To4_To16 ip Hip) as [H4 H16].
    unfold IPToReverseDNS. by rewrite H4, H16.
Qed.

(** X20.  Two valid addresses have the same reverse name exactly when they
    are equal as addresses: the 4-byte and the 16-byte form of an IPv4
    address give one name, and different addresses give different names. *)
Theorem X20_IPToReverseDNS_identifies_the_address (ip1 ip2 : Net.IP) :
  validIP ip1 -> validIP ip2 ->
  IPToReverseDNS ip1 = IPToReverseDNS ip2 <-> Net.Equal ip1 ip2 = true.
Proof.
  intros H1 H2. split.
  - intros H. apply (f_equal reverseDNSToIP) in H.
    rewrite !reverse_round_trip in H by done. by apply To16_Equal.
  - intros [H4 H16]%Equal_To4_To16. unfold IPToReverseDNS.
    by rewrite H4, H16.
Qed.

Lemma X20_IPToReverseDNS_identifies_the_address_witness :
  let ip16 := [x00; x00; x00; x00; x00; x00; x00; x00; x00; x00; xff; xff;
               x0a; x00; x00; x01] in
  (IPToReverseDNS ip_10_0_0_1 = IPToReverseDNS ip16
   <-> Net.Equal ip_10_0_0_1 ip16 = true)
  /\ IPToReverseDNS ip16 = "1.0.0.10.in-addr.arpa.".
Proof.
  intros ip16. split; [| reflexivity].
  apply (X20_IPToReverseDNS_identifies_the_address ip_10_0_0_1 ip16).
  - left. reflexivity.
  - right. reflexivity.
Defined.

(** X21.  An address that [reverseDNSToIP] returns has 16 bytes: it is nil
    or the 16-byte form that [net.ParseIP] gives, also for an in-addr.arpa
    name. *)
Theorem X21_reverseDNSToIP_returns_16_bytes (r : string) (ip : Net.IP) :
  reverseDNSToIP r = Some ip -> length ip = 16 /\ validIP ip.
Proof.
  intros H%reverseDNSToIP_length. split; [done | by right].
Qed.

Lemma X21_reverseDNSToIP_returns_16_bytes_witness :
  reverseDNSToIP "1.0.0.10.IN-ADDR.ARPA"
  = Some [x00; x00; x00; x00; x00; x00; x00; x00; x00; x00; xff; xff;
          x0a; x00; x00; x01]
  /\ length [x00; x00; x00; x00; x00; x00; x00; x00; x00; x00; xff; xff;
             x0a; x00; x00; x01] = 16.
Proof.
  split; [reflexivity |].
  apply (X21_reverseDNSToIP_returns_16_bytes "1.0.0.10.IN-ADDR.ARPA").
  reflexivity.
Defined.

(** X22.  [AddPTRRecord] and [RemovePTRRecord] do not check the address.
    With an address that has neither 4 nor 16 bytes they write or delete an
    entry that no query reads: [GetPTRRecord] and [HasPTRRecord] answer as
    before, for every name. *)
Theorem X22_PTR_calls_with_invalid_address
    (s : DNSRecordStore) (ip : Net.IP) (d r : string) :
  ~ validIP ip ->
  GetPTRRecord (AddPTRRecord s ip d) r = GetPTRRecord s r
  /\ HasPTRRecord (AddPTRRecord s ip d) r = HasPTRRecord s r
  /\ GetPTRRecord (RemovePTRRecord s ip) r = GetPTRRecord s r
  /\ HasPTRRecord (RemovePTRRecord s ip) r = HasPTRRecord s r.
Proof.
  intros Hip.
  assert (Hadd : GetPTRRecord (AddPTRRecord s ip d) r = GetPTRRecord s r).
  { unfold GetPTRRecord, AddPTRRecord.
    destruct (reverseDNSToIP r) as [ip0|] eqn:E; [| done]. simpl.
    rewrite lookup_insert_ne; [done |].
    intros H. apply (String_valid_invalid ip0 ip); [| done | done].
    right. by apply (reverseDNSToIP_length r). }
  assert (Hdel : GetPTRRecord (RemovePTRRecord s ip) r = GetPTRRecord s r).
  { unfold GetPTRRecord, RemovePTRRecord.
    destruct (reverseDNSToIP r) as [ip0|] eqn:E; [| done]. simpl.
    rewrite lookup_delete_ne; [done |].
    intros H. apply (String_valid_invalid ip0 ip); [| done | done].
    right. by apply (reverseDNSToIP_length r). }
  by rewrite !HasPTRRecord_snd, Hadd, Hdel.
Qed.

Lemma X22_PTR_calls_with_invalid_address_witness :
  let s := AddPTRRecord NewDNSRecordStore [x0a; x00; x00] "a.internal" in
  ptrRecords s !! "?0a0000" = Some "a.internal."
  /\ GetPTRRecord s "0.0.10.in-addr.arpa." = (EmptyString, false).
Proof.
  intros s. split; [reflexivity |].
  destruct (X22_PTR_calls_with_invalid_address NewDNSRecordStore
              [x0a; x00; x00] "a.internal" "0.0.10.in-addr.arpa.")
    as (H & _).
  - intros [H | H]; discriminate H.
  - etransitivity; [exact H | reflexivity].
Defined.

(** ** Trie paths, plain patterns and the order of the wildcard map *)

Section PathFacts.
Import Strings Dns Net.

Lemma glob_literal (p d : string) :
  ContainsAny p "*?" = false -> glob p d <-> d = p.
Proof.
  revert d. induction p as [|c p IH]; intros d Hp.
  - split; [by inversion 1 | intros ->; constructor].
  - apply ContainsAny_cons_false in Hp as (Hc1 & Hc2 & Hp). split.
    + inversion 1; subst; try done. f_equal. by apply IH.
    + intros ->. apply glob_byte; [done | done |]. by apply IH.
Qed.

Lemma glob_no_star_length (p d : string) :
  IndexByte p "*"%char = false -> glob p d ->
  String.length d = String.length p.
Proof.
  intros Hp Hg. induction Hg as [| p d Hg IH | p d c Hg IH
                                 | p d c Hg IH | p d a Ha1 Ha2 Hg IH].
  - done.
  - done.
  - done.
  - simpl. rewrite IH; done.
  - simpl in *. apply orb_false_iff in Hp as [_ Hp]. by rewrite IH.
Qed.

Lemma not_anchored_no_star (p : string) :
  IndexByte p "*"%char = false -> forall s, p <> "*." +:+ s.
Proof. intros Hp s ->. done. Qed.

Lemma ContainsAny_no_star (p : string) :
  ContainsAny p "*?" = false -> IndexByte p "*"%char = false.
Proof.
  induction p as [|c p IH]; [done |].
  intros (Hc1 & _ & Hp)%ContainsAny_cons_false. simpl.
  rewrite IH by done. by rewrite bool_decide_eq_false_2.
Qed.

Lemma same_up_to_order_slice_result (l1 l2 : list IP) :
  l1 ≡ₚ l2 -> same_up_to_order (slice_result l1) (slice_result l2).
Proof.
  intros H. unfold slice_result. rewrite (Permutation_length H).
  destruct (length l2 =? 0); [exact I | exact H].
Qed.

End PathFacts.

(** X23.  A normalized name is its trie path read backwards: joining the
    labels of the path, last label first, with dots and a final dot gives
    the name back.  So two normalized names with the same path are the
    same name, and only the root name ["."] has the empty path. *)
Theorem X23_domainToPath_round_trip (n : string) :
  canonical n ->
  Strings.Join (rev (domainToPath n)) "." +:+ "." = n
  /\ (domainToPath n = [] <-> n = ".")
  /\ (forall n', canonical n' -> domainToPath n' = domainToPath n ->
        n' = n).
Proof.
  intros Hn.
  assert (Hjoin : forall m, canonical m ->
             Strings.Join (rev (domainToPath m)) "." +:+ "." = m
             /\ (domainToPath m = [] <-> m = ".")).
  { intros m Hm. destruct (canonical_ends_in_dot m Hm) as [t Ht].
    rewrite (domainToPath_canonical m t Hm Ht).
    destruct (decide (t = EmptyString)) as [->|Hne].
    - rewrite bool_decide_eq_true_2 by done. by subst m.
    - rewrite bool_decide_eq_false_2 by done.
      rewrite rev_involutive, Join_Split. split; [done |]. split.
      + intros H%(f_equal (@rev string)).
        rewrite rev_involutive in H. by apply Split_nonempty in H.
      + intros E. rewrite E in Ht. destruct t; [done |].
        injection Ht as _ Ht. by destruct t. }
  destruct (Hjoin n Hn) as [H1 H2]. split; [done |]. split; [done |].
  intros n' Hn' E. destruct (Hjoin n' Hn') as [H1' _].
  by rewrite <- H1', E.
Qed.

Lemma X23_domainToPath_round_trip_witness :
  domainToPath "host.autoco.internal." = ["internal"; "autoco"; "host"]
  /\ Strings.Join (rev (domainToPath "host.autoco.internal.")) "." +:+ "."
     = "host.autoco.internal.".
Proof.
  split; [reflexivity |].
  destruct (X23_domainToPath_round_trip "host.autoco.internal.")
    as [H _]; [reflexivity | exact H].
Defined.

(** X24.  A pattern without [*] and [?] matches its own text and no other
    name. *)
Theorem X24_plain_pattern_matches_itself_only (p d : string) :
  Strings.ContainsAny p "*?" = false ->
  matchWildcard p d = true <-> d = p.
Proof.
  intros Hp.
  rewrite matchWildcard_plain
    by (by apply not_anchored_no_star, ContainsAny_no_star).
  by apply glob_literal.
Qed.

Lemma X24_plain_pattern_matches_itself_only_witness :
  matchWildcard "exact.autoco.internal." "exact.autoco.internal." = true
  /\ matchWildcard "exact.autoco.internal." "other.autoco.internal."
     <> true.
Proof.
  pose proof (X24_plain_pattern_matches_itself_only
                "exact.autoco.internal.") as H.
  split.
  - apply H; reflexivity.
  - intros E. apply H in E; [discriminate E | reflexivity].
Defined.

(** X25.  A pattern without [*] matches only names of its own length: each
    [?] takes exactly one byte, which may be a dot. *)
Theorem X25_question_mark_takes_one_byte (p d : string) :
  Strings.IndexByte p "*"%char = false ->
  matchWildcard p d = true ->
  String.length d = String.length p.
Proof.
  intros Hp Hm. apply glob_no_star_length; [done |].
  by apply matchWildcard_plain; [apply not_anchored_no_star |].
Qed.

Lemma X25_question_mark_takes_one_byte_witness :
  matchWildcard "host-0?.internal." "host-01.internal." = true
  /\ String.length "host-01.internal." = String.length "host-0?.internal."
  /\ matchWildcard "a?b" "a.b" = true.
Proof.
  split; [reflexivity |]. split; [| reflexivity].
  apply (X25_question_mark_takes_one_byte "host-0?.internal."
           "host-01.internal."); reflexivity.
Defined.

(** X26.  The answers do not depend on the order in which Go visits the
    wildcard map: for two orders of the same map [HasRecord] (with the
    type A or AAAA) returns the same result and [GetRecords] the same
    addresses, in the same order unless they come from several wildcard
    entries. *)
Theorem X26_answers_independent_of_map_order
    (order1 order2 : list (string * recordSet)) (s : DNSRecordStore)
    (d : string) (q : RecordType) :
  range_order (wildcards s) order1 ->
  range_order (wildcards s) order2 ->
  same_up_to_order (GetRecords order1 s d q) (GetRecords order2 s d q)
  /\ (length (filter (matching (Strings.ToLower (Dns.Fqdn d))) order1) <= 1
      -> GetRecords order1 s d q = GetRecords order2 s d q)
  /\ (q = RecordTypeA \/ q = RecordTypeAAAA ->
      HasRecord order1 s d q = HasRecord order2 s d q).
Proof.
  intros H1 H2.
  assert (Hperm : order1 ≡ₚ order2) by (by rewrite H1, H2).
  set (name := Strings.ToLower (Dns.Fqdn d)).
  assert (Hf : filter (matching name) order1
               ≡ₚ filter (matching name) order2) by (by rewrite Hperm).
  split; [| split].
  - rewrite !GetRecords_unfold. cbv zeta. fold name.
    destruct (0 <? _); [apply same_up_to_order_refl |].
    apply same_up_to_order_slice_result. by rewrite Hf.
  - intros Hlen. rewrite !GetRecords_unfold. cbv zeta. fold name.
    destruct (0 <? _); [done |]. do 3 f_equal.
    destruct (filter (matching name) order1) as [|e [|e' l]];
      simpl in Hlen; [| | lia].
    + apply Permutation_nil_l in Hf. by rewrite Hf.
    + apply Permutation_singleton_l in Hf. by rewrite Hf.
  - intros Hq. rewrite !HasRecord_unfold by done. fold name.
    f_equal. apply eq_true_iff_eq.
    rewrite !(has_wildcard_true _ _ _ Hq).
    split; intros (e & He & Hm); exists e; [by rewrite <- Hperm
                                         | by rewrite Hperm].
Qed.

Lemma X26_answers_independent_of_map_order_witness :
  let s := (AddRecord (AddRecord NewDNSRecordStore "*.internal"
                         ip_10_0_0_1).1 "*.a.internal" ip_10_0_0_2).1 in
  let o1 := [("*.internal.", mkRecordSet [ip_10_0_0_1] []);
             ("*.a.internal.", mkRecordSet [ip_10_0_0_2] [])] in
  let o2 := [("*.a.internal.", mkRecordSet [ip_10_0_0_2] []);
             ("*.internal.", mkRecordSet [ip_10_0_0_1] [])] in
  GetRecords o1 s "x.a.internal" RecordTypeA
  = Some [ip_10_0_0_1; ip_10_0_0_2]
  /\ GetRecords o2 s "x.a.internal" RecordTypeA
     = Some [ip_10_0_0_2; ip_10_0_0_1]
  /\ same_up_to_order (GetRecords o1 s "x.a.internal" RecordTypeA)
                      (GetRecords o2 s "x.a.internal" RecordTypeA).
Proof.
  intros s o1 o2. split; [reflexivity |]. split; [reflexivity |].
  apply (X26_answers_independent_of_map_order o1 o2 s "x.a.internal"
           RecordTypeA).
  - unfold range_order. vm_compute.
    first [reflexivity | apply perm_swap].
  - unfold range_order. vm_compute.
    first [reflexivity | apply perm_swap].
Defined.

(** ** The recursion of the matcher, the flat-map store and the form of a
    reverse name *)

Section MoreFacts.
Import Strings Dns Net.

(** When the fully qualified form of a name is fully qualified, the
    mutators and the queries normalize the name alike. *)
Lemma normalize_is_query (d : string) :
  IsFqdn (Fqdn d) = true -> normalize d = ToLower (Fqdn d).
Proof.
  intros H. unfold normalize.
  destruct (String.length d =? 0) eqn:E0; simpl.
  { apply Nat.eqb_eq in E0. by destruct d. }
  destruct (bool_decide (at_ d (String.length d - 1) = Some "."%char))
    eqn:Edot; simpl; [done |].
  assert (Hf : IsFqdn d = false).
  { unfold IsFqdn. by rewrite Edot, orb_true_r. }
  unfold Fqdn in H |- *. rewrite Hf in H |- *. by rewrite H.
Qed.

Lemma Flat_GetPTRRecord_reverse (f : Flat.DNSRecordStore) (ip : IP) :
  validIP ip ->
  Flat.GetPTRRecord f (IPToReverseDNS ip)
  = match Flat.ptrRecords f !! String_ ip with
    | Some ptrDomain => (ptrDomain, true)
    | None => (EmptyString, false)
    end.
Proof.
  intros Hip. unfold Flat.GetPTRRecord. rewrite reverse_round_trip by done.
  destruct (To16 ip) as [ip16|] eqn:E; [| by apply validIP_To16 in E].
  by rewrite (String_To16 ip ip16).
Qed.

Lemma reverse_name_v4 (p : string) :
  ToLower p = p ->
  Fqdn (p +:+ ".in-addr.arpa") = p +:+ ".in-addr.arpa."
  /\ IsFqdn (Fqdn (p +:+ ".in-addr.arpa")) = true
  /\ ToLower (Fqdn (p +:+ ".in-addr.arpa")) = Fqdn (p +:+ ".in-addr.arpa").
Proof.
  intros Hp.
  assert (Hfq : Fqdn (p +:+ ".in-addr.arpa") = p +:+ ".in-addr.arpa.").
  { unfold Fqdn.
    change (p +:+ ".in-addr.arpa")
      with (p +:+ (".in-addr.arp" +:+ String "a"%char EmptyString)).
    rewrite <- sapp_assoc, IsFqdn_not_dot by done.
    by rewrite !sapp_assoc. }
  rewrite Hfq. split; [done |]. split.
  - change (p +:+ ".in-addr.arpa.")
      with (p +:+ (".in-addr.arp"
                   +:+ String "a"%char (String "."%char EmptyString))).
    by rewrite <- sapp_assoc, IsFqdn_dot.
  - by rewrite ToLower_app, Hp.
Qed.

Lemma reverse_name_v6 (j : string) :
  ToLower j = j ->
  Fqdn (j +:+ ".ip6.arpa") = j +:+ ".ip6.arpa."
  /\ IsFqdn (Fqdn (j +:+ ".ip6.arpa")) = true
  /\ ToLower (Fqdn (j +:+ ".ip6.arpa")) = Fqdn (j +:+ ".ip6.arpa").
Proof.
  intros Hj.
  assert (Hfq : Fqdn (j +:+ ".ip6.arpa") = j +:+ ".ip6.arpa.").
  { unfold Fqdn.
    change (j +:+ ".ip6.arpa")
      with (j +:+ (".ip6.arp" +:+ String "a"%char EmptyString)).
    rewrite <- sapp_assoc, IsFqdn_not_dot by done.
    by rewrite !sapp_assoc. }
  rewrite Hfq. split; [done |]. split.
  - change (j +:+ ".ip6.arpa.")
      with (j +:+ (".ip6.arp"
                   +:+ String "a"%char (String "."%char EmptyString))).
    by rewrite <- sapp_assoc, IsFqdn_dot.
  - by rewrite ToLower_app, Hj.
Qed.

Lemma canonical_of_fqdn_lower (r : string) :
  IsFqdn r = true -> ToLower r = r -> canonical r.
Proof. intros Hf Hl. unfold canonical, Fqdn. by rewrite Hf. Qed.

End MoreFacts.

(** X27.  The recursion of [matchWildcardInternal] ends, from every
    pattern index up to the length of the pattern (the indices that
    [matchWildcard] and the recursive calls pass; beyond them the code
    panics on [pattern[pi]]) and every name index: every call lowers the
    number of pattern and name bytes left, so a depth of one more than that
    number is enough, and the result with any larger bound is the same. *)
Theorem X27_matchWildcardInternal_terminates
    (p d : string) (pi di n : nat) :
  pi <= String.length p ->
  measure_ p d pi di < n ->
  is_Some (matchWildcardInternal p d pi di)
  /\ matchWildcardInternal_fuel n p d pi di
     = matchWildcardInternal p d pi di.
Proof.
  intros _ Hn. destruct (matchWildcardInternal_total p d pi di) as [b Hb].
  split; [by exists b |]. rewrite Hb.
  unfold matchWildcardInternal in Hb.
  apply (fuel_mono _ n) in Hb; [done |]. unfold measure_ in Hn. lia.
Qed.

Lemma X27_matchWildcardInternal_terminates_witness :
  matchWildcardInternal_fuel 40 "*.a?c.*" "x.abc.internal" 0 0 = Some true.
Proof.
  destruct (X27_matchWildcardInternal_terminates "*.a?c.*"
              "x.abc.internal" 0 0 40) as [_ H].
  - simpl. lia.
  - vm_compute. lia.
  - etransitivity; [exact H | reflexivity].
Defined.

(** X28.  In the flat-map store, after [AddRecord] of a valid address under
    a name without wildcards whose fully qualified form is fully qualified
    (its last dot is not escaped), [GetRecords] with that name and the
    type of the address returns the addresses the name had, followed by
    the new one; [HasRecord] is true and [GetPTRRecord] with the reverse
    name of the address returns the normalized name. *)
Theorem X28_flat_AddRecord_then_lookup
    (order : list (string * list Net.IP)) (f : Flat.DNSRecordStore)
    (d : string) (ip : Net.IP) :
  validIP ip ->
  Strings.ContainsAny d "*?" = false ->
  Dns.IsFqdn (Dns.Fqdn d) = true ->
  let f' := (Flat.AddRecord f d ip).1 in
  let held := if bool_decide (Net.To4 ip <> None)
              then Flat.aRecords f else Flat.aaaaRecords f in
  Flat.GetRecords order f' d (family ip)
  = Some (default [] (held !! normalize d) ++ [ip])
  /\ Flat.HasRecord order f' d (family ip) = true
  /\ Flat.GetPTRRecord f' (IPToReverseDNS ip) = (normalize d, true).
Proof.
  intros Hip Hd Hfq f' held.
  pose proof (normalize_is_query d Hfq) as Hn.
  pose proof (validIP_To16 ip Hip) as H16.
  assert (Hw : Strings.ContainsAny (normalize d) "*?" = false)
    by (by rewrite ContainsAny_normalize).
  split; [| split].
  - unfold Flat.GetRecords, Flat.get_case, f', Flat.AddRecord, held, family.
    rewrite <- Hn, Hw.
    destruct (bool_decide (Net.To4 ip <> None)); simpl.
    + by rewrite append_at_lookup, decide_True.
    + rewrite bool_decide_eq_true_2 by done. simpl.
      by rewrite append_at_lookup, decide_True.
  - unfold Flat.HasRecord, Flat.has_case, f', Flat.AddRecord, family.
    rewrite <- Hn, Hw.
    destruct (bool_decide (Net.To4 ip <> None)); simpl.
    + by rewrite append_at_lookup, decide_True.
    + rewrite bool_decide_eq_true_2 by done. simpl.
      by rewrite append_at_lookup, decide_True.
  - rewrite Flat_GetPTRRecord_reverse by done.
    unfold f', Flat.AddRecord. rewrite Hw.
    destruct (bool_decide (Net.To4 ip <> None)); simpl.
    + by rewrite lookup_insert_eq.
    + rewrite bool_decide_eq_true_2 by done. simpl.
      by rewrite lookup_insert_eq.
Qed.

Lemma X28_flat_AddRecord_then_lookup_witness :
  let f := (Flat.AddRecord Flat.NewDNSRecordStore "Host.Internal"
              ip_10_0_0_1).1 in
  let f' := (Flat.AddRecord f "host.internal." ip_10_0_0_2).1 in
  Flat.GetRecords [] f' "host.internal." RecordTypeA
  = Some [ip_10_0_0_1; ip_10_0_0_2]
  /\ Flat.GetPTRRecord f' "2.0.0.10.in-addr.arpa."
     = ("host.internal.", true).
Proof.
  intros f f'.
  destruct (X28_flat_AddRecord_then_lookup [] f "host.internal."
              ip_10_0_0_2) as (H1 & _ & H3).
  - left. reflexivity.
  - reflexivity.
  - reflexivity.
  - split; [etransitivity; [exact H1 | reflexivity] | exact H3].
Defined.

(** X29.  The reverse name of a valid address is a normalized name:
    lower-case, fully qualified, and unchanged by the normalization of the
    PTR queries.  It ends in [.in-addr.arpa.] for an IPv4 address and in
    [.ip6.arpa.] for any other. *)
Theorem X29_IPToReverseDNS_is_normalized (ip : Net.IP) :
  validIP ip ->
  let r := IPToReverseDNS ip in
  canonical r
  /\ Dns.IsFqdn r = true
  /\ Strings.ToLower r = r
  /\ Strings.HasSuffix r
       (if bool_decide (Net.To4 ip <> None)
        then ".in-addr.arpa." else ".ip6.arpa.") = true.
Proof.
  intros Hip r. unfold r, IPToReverseDNS.
  destruct (Net.To4 ip) as [p4|] eqn:E4.
  - rewrite bool_decide_eq_true_2 by done.
    set (p := Net.itoa (ix p4 3) +:+ "." +:+ Net.itoa (ix p4 2) +:+ "." +:+
              Net.itoa (ix p4 1) +:+ "." +:+ Net.itoa (ix p4 0)).
    assert (Hname : Net.itoa (ix p4 3) +:+ "." +:+ Net.itoa (ix p4 2)
                    +:+ "." +:+ Net.itoa (ix p4 1) +:+ "." +:+
                    Net.itoa (ix p4 0) +:+ ".in-addr.arpa"
                    = p +:+ ".in-addr.arpa").
    { unfold p.
      repeat first [rewrite sapp_assoc | rewrite sapp_cons
                   | rewrite sapp_nil_l].
      done. }
    rewrite Hname.
    assert (Hp : Strings.ToLower p = p).
    { unfold p.
      repeat first [rewrite ToLower_app | rewrite ToLower_dot
                   | rewrite itoa_lower].
      done. }
    destruct (reverse_name_v4 p Hp) as (E & Hf & Hl).
    split; [by apply canonical_of_fqdn_lower |].
    split; [done |]. split; [done |].
    rewrite E. apply HasSuffix_app.
  - rewrite bool_decide_eq_false_2 by (by intros []).
    assert (Hlen : length ip = 16).
    { destruct Hip as [H | H]; [| done].
      unfold Net.To4 in E4. by rewrite H in E4. }
    assert (H16 : Net.To16 ip = Some ip)
      by (unfold Net.To16; by rewrite Hlen).
    rewrite H16. cbv beta iota zeta. rewrite (nibbles_of_ip6 ip Hlen).
    set (j := Strings.Join (nibble_labels ip) ".").
    assert (Hj : Strings.ToLower j = j).
    { unfold j. apply ToLower_Join; [| done].
      apply nibble_labels_plain. }
    destruct (reverse_name_v6 j Hj) as (E & Hf & Hl).
    split; [by apply canonical_of_fqdn_lower |].
    split; [done |]. split; [done |].
    rewrite E. apply HasSuffix_app.
Qed.

Lemma X29_IPToReverseDNS_is_normalized_witness :
  IPToReverseDNS ip_10_0_0_1 = "1.0.0.10.in-addr.arpa."
  /\ canonical (IPToReverseDNS ip_10_0_0_1).
Proof.
  split; [reflexivity |].
  destruct (X29_IPToReverseDNS_is_normalized ip_10_0_0_1) as (H & _).
  - left. reflexivity.
  - exact H.
Defined.
